(** * opendata-pdf-to-csv: the normalisation pipeline of [main.py]

    A shallow embedding of the Python program [src/main.py] -- the table
    cleaning rules, the first-page header detection, the page assembly, the
    address resolver and the per-prefecture driver -- together with the
    properties its specification states about them.

    Conventions of the embedding:
    - a Python [str] is the list of its code points ([str := list N]); the
      source's literals are written as UTF-8 Rocq strings and decoded by [u];
    - the missing values are told apart: [NA] is Python's [None], which is
      what an extracted table has for a cell without text, and [NaN] is the
      float that [pd.read_csv] puts for a field without value; [pd.isna] and
      [pd.notna] treat them alike, truthiness and the string methods do not;
    - a raised Python exception is the [Exc] case of [result];
    - the collaborators (directory listing, PDF table extraction, the geocoding
      service) are the fields of a [world] record. *)

From Stdlib Require Import NArith ZArith String Ascii.
From stdpp Require Import base option numbers list strings gmap.

Local Open Scope N_scope.

(** ** Python strings *)

Definition str := list N.

(** UTF-8 decoding of a byte sequence, used only to write the source's string
    literals legibly; an ill-formed tail decodes to nothing. *)
Fixpoint utf8_decode (bs : list N) : str :=
  match bs with
  | [] => []
  | b :: r =>
      if b <? 128 then b :: utf8_decode r
      else if b <? 224 then
        match r with
        | c1 :: r' =>
            N.lor (N.shiftl (N.land b 31) 6) (N.land c1 63) :: utf8_decode r'
        | _ => []
        end
      else if b <? 240 then
        match r with
        | c1 :: c2 :: r' =>
            N.lor (N.shiftl (N.land b 15) 12)
              (N.lor (N.shiftl (N.land c1 63) 6) (N.land c2 63))
            :: utf8_decode r'
        | _ => []
        end
      else
        match r with
        | c1 :: c2 :: c3 :: r' =>
            N.lor (N.shiftl (N.land b 7) 18)
              (N.lor (N.shiftl (N.land c1 63) 12)
                 (N.lor (N.shiftl (N.land c2 63) 6) (N.land c3 63)))
            :: utf8_decode r'
        | _ => []
        end
  end.

Definition u (s : string) : str :=
  utf8_decode (map N_of_ascii (list_ascii_of_string s)).

Definition LF : N := 10.
Definition CR : N := 13.
Definition DQUOTE : N := 34.
Definition HYPHEN : N := 45.
Definition TILDE : N := 126.
(** U+301C, the wave dash of the source's second tilde rule. *)
Definition WAVE_DASH : N := 12316.

(** [s.replace(old, new)] for a one-character [old]; the same function is
    [re.sub] for a one-character literal pattern. *)
Definition replace_char (old : N) (new : str) (s : str) : str :=
  flat_map (fun c => if N.eqb c old then new else [c]) s.

(** [pat in s]: [pat] occurs in [s] as a contiguous substring. *)
Fixpoint is_prefix (pat s : str) : bool :=
  match pat, s with
  | [], _ => true
  | _ :: _, [] => false
  | p :: pat', c :: s' => N.eqb p c && is_prefix pat' s'
  end.

Fixpoint contains (pat s : str) : bool :=
  is_prefix pat s ||
  match s with
  | [] => false
  | _ :: s' => contains pat s'
  end.

(** Characters that [re] does not read literally.  [Series.str.contains]
    compiles its argument as a regular expression; for a pattern without these
    characters the search is the substring test [contains]. *)
Definition regex_special : str := u ".^$*+?{}[]\|()".

Definition regex_literal (pat : str) : Prop :=
  Forall (fun c => c ∉ regex_special) pat.

(** [str.isspace] for one character, as used by [str.strip]. *)
Definition py_isspace (c : N) : bool :=
  (9 <=? c) && (c <=? 13) || (28 <=? c) && (c <=? 32) || (c =? 133) ||
  (c =? 160) || (c =? 5760) || (8192 <=? c) && (c <=? 8202) ||
  (c =? 8232) || (c =? 8233) || (c =? 8239) || (c =? 8287) || (c =? 12288).

Fixpoint lstrip (s : str) : str :=
  match s with
  | c :: s' => if py_isspace c then lstrip s' else s
  | [] => []
  end.

Definition strip (s : str) : str := rev (lstrip (rev (lstrip s))).

(** ** Exceptions *)

Inductive exn :=
| KeyError (key : str)
| IndexError
| ValueError
| TypeError
| AttributeError
| ParseError
| ConnectionError
| OSError
| ParserError             (* pandas.errors.ParserError *)
| EmptyDataError.         (* pandas.errors.EmptyDataError *)

Inductive result (A : Type) :=
| Ok (a : A)
| Exc (e : exn).
Arguments Ok {A} a.
Arguments Exc {A} e.

#[global] Instance result_ret : MRet result := @Ok.
#[global] Instance result_bind : MBind result :=
  fun A B f m => match m with Ok a => f a | Exc e => Exc e end.
#[global] Instance result_fmap : FMap result :=
  fun A B f m => match m with Ok a => Ok (f a) | Exc e => Exc e end.

(** [xs[i]] on a Python list. *)
Definition py_index {A} (xs : list A) (i : nat) : result A :=
  match xs !! i with
  | Some x => Ok x
  | None => Exc IndexError
  end.

(** ** Regular expressions

    The fragment of [re] that [split_japanese_address] uses, with the
    backtracking order of the [re] module: a greedy operator tries its operand
    first, a lazy one tries the rest of the pattern first.  [rmatch r s c k]
    matches [r] at the head of [s] with captures [c] and hands the rest of the
    input to the continuation [k]. *)

Inductive regex :=
| Dot                                  (* .     any character but a line feed *)
| Class (cs : str)                     (* [...] *)
| Cat (r1 r2 : regex)
| Opt (r : regex)                      (* r?    *)
| OptLazy (r : regex)                  (* r??   *)
| PlusLazy (r : regex)                 (* r+?   *)
| Star (r : regex)                     (* r*    *)
| Group (name : string) (r : regex).   (* (?P<name>r) *)

Abbreviation captures := (gmap string str).

Definition or_else {A} (x : option A) (y : option A) : option A :=
  match x with
  | Some a => Some a
  | None => y
  end.

Definition matcher :=
  str -> captures -> (str -> captures -> option captures) -> option captures.

(** [r+?]: one more [r], then the rest of the pattern before another turn.
    The fuel bounds the turns by the length of the input, which is enough as
    long as a turn consumes a character. *)
Fixpoint plus_lazy_loop (m : matcher) (k : str -> captures -> option captures)
    (fuel : nat) (s : str) (c : captures) : option captures :=
  match fuel with
  | O => None
  | S fuel' =>
      m s c (fun s' c' => or_else (k s' c') (plus_lazy_loop m k fuel' s' c'))
  end.

(** [r*]: another [r] before the rest of the pattern. *)
Fixpoint star_loop (m : matcher) (k : str -> captures -> option captures)
    (fuel : nat) (s : str) (c : captures) : option captures :=
  match fuel with
  | O => k s c
  | S fuel' => or_else (m s c (fun s' c' => star_loop m k fuel' s' c')) (k s c)
  end.

Fixpoint rmatch (r : regex) (s : str) (c : captures)
    (k : str -> captures -> option captures) {struct r} : option captures :=
  match r with
  | Dot =>
      match s with
      | x :: s' => if N.eqb x LF then None else k s' c
      | [] => None
      end
  | Class cs =>
      match s with
      | x :: s' => if bool_decide (x ∈ cs) then k s' c else None
      | [] => None
      end
  | Cat r1 r2 => rmatch r1 s c (fun s' c' => rmatch r2 s' c' k)
  | Opt r1 => or_else (rmatch r1 s c k) (k s c)
  | OptLazy r1 => or_else (k s c) (rmatch r1 s c k)
  | PlusLazy r1 => plus_lazy_loop (rmatch r1) k (S (length s)) s c
  | Star r1 => star_loop (rmatch r1) k (length s) s c
  | Group name r1 =>
      rmatch r1 s c
        (fun s' c' => k s' (<[name := take (length s - length s') s]> c'))
  end.

(** [pattern.match(s)]: anchored at the start, free at the end. *)
Definition re_match (r : regex) (s : str) : option captures :=
  rmatch r s ∅ (fun _ c => Some c).

(** ** Table cells *)

(** A cell is [None], a text, or a float.  Finite numbers only occur as
    coordinates and are kept in millionths of a degree (the source rounds to
    six decimals), the integer [0] being [Num 0]; the floats that are not
    finite are [NaN] and the two infinities. *)
Inductive cell :=
| NA                      (* None *)
| Str (s : str)
| Num (n : Z)
| NaN                     (* float nan *)
| Inf (negative : bool).  (* float inf, -inf *)

#[global] Instance cell_eq_dec : EqDecision cell.
Proof. solve_decision. Defined.

#[global] Instance exn_eq_dec : EqDecision exn.
Proof. solve_decision. Defined.

(** [pd.notna(x)] *)
Definition notna (c : cell) : bool :=
  match c with
  | NA | NaN => false
  | _ => true
  end.

(** Python truthiness, negated: [not x].  [None], the empty text and zero
    are false; every other float, [nan] included, is true. *)
Definition py_not (c : cell) : bool :=
  match c with
  | NA => true
  | Str s => bool_decide (s = [])
  | Num n => bool_decide (n = 0%Z)
  | NaN | Inf _ => false
  end.

(** [x == s] against a string literal. *)
Definition cell_is (s : str) (c : cell) : bool := bool_decide (c = Str s).

(** ** [split_japanese_address] *)

Definition PREFECTURE_SUFFIXES : str := u "都道府県".
Definition LOCALITY_SUFFIXES : str := u "市区町村湾島".

Definition address_pattern : regex :=
  Cat (Opt (Group "region"
              (Cat Dot (Cat Dot (Cat (OptLazy Dot) (Class PREFECTURE_SUFFIXES))))))
    (Cat (Group "locality" (Cat (PlusLazy Dot) (Class LOCALITY_SUFFIXES)))
       (Group "remainder" (Star Dot))).

(** [result[name] if result[name] else empty] on a [groupdict]. *)
Definition group_or_empty (name : string) (d : captures) : str :=
  match d !! name with
  | Some text => text
  | None => []
  end.

Definition split_japanese_address (address : cell) : result (list str) :=
  if py_not address then Ok [[]; []]
  else
    match address with
    | Str s =>
        match re_match address_pattern s with
        | Some d => Ok [group_or_empty "region" d; group_or_empty "locality" d]
        | None => Ok [[]; []]
        end
    | _ => Exc TypeError
    end.

(** ** Data frames

    A [DataFrame] is its header and its rows in order.  Row labels are left
    out: every frame of the program carries unique labels (a fresh range
    index, thinned by [dropna], rebuilt by [concat(ignore_index=True)]), so
    each label-based access of the source ([drop(df.index[:n])], [.loc] with
    the labels of a selection, [update]) addresses rows by their position. *)

Record DataFrame := mkDataFrame {
  columns : list str;
  rows : list (list cell)
}.

#[global] Instance DataFrame_eq_dec : EqDecision DataFrame.
Proof. solve_decision. Defined.

(** What the table extraction returns for one page. *)
Definition RawTableGrid := list (list (option str)).

Definition cell_of (x : option str) : cell :=
  match x with
  | Some s => Str s
  | None => NA
  end.

Definition pad_row (width : nat) (r : list cell) : list cell :=
  r ++ replicate (width - length r) NA.

(** [pd.DataFrame(data, columns=headers)] on a list of rows: short rows are
    filled with [None] up to the longest one, whose length has to be the
    number of column names.  The columns are object columns, in which a
    [None] of the data stays [None]. *)
Definition new_DataFrame (data : RawTableGrid) (headers : list str)
    : result DataFrame :=
  match data with
  | [] => Ok (mkDataFrame headers [])
  | _ =>
      let width := foldr Nat.max O (map length data) in
      if bool_decide (width = length headers)
      then Ok (mkDataFrame headers (map (fun r => pad_row width (map cell_of r)) data))
      else Exc ValueError
  end.

Fixpoint col_index (name : str) (cols : list str) : option nat :=
  match cols with
  | [] => None
  | c :: cols' =>
      if bool_decide (c = name) then Some O else S <$> col_index name cols'
  end.

(** [name in df.columns] *)
Definition has_col (name : str) (df : DataFrame) : bool :=
  bool_decide (name ∈ columns df).

(** [df[name]] read as a series. *)
Definition get_col (name : str) (df : DataFrame) : result (list cell) :=
  match col_index name (columns df) with
  | Some j => Ok (map (fun r => default NA (r !! j)) (rows df))
  | None => Exc (KeyError name)
  end.

(** [df[name] = values]: overwrite the column, or append it as the last one.
    The program always assigns as many values as the frame has rows. *)
Definition set_col (name : str) (values : list cell) (df : DataFrame)
    : DataFrame :=
  match col_index name (columns df) with
  | Some j =>
      mkDataFrame (columns df) (zip_with (fun r v => <[j := v]> r) (rows df) values)
  | None =>
      mkDataFrame (columns df ++ [name])
        (zip_with (fun r v => r ++ [v]) (rows df) values)
  end.

(** The cell of row [i] in the column called [name]. *)
Definition cell_at (df : DataFrame) (i : nat) (name : str) : option cell :=
  j ← col_index name (columns df);
  r ← rows df !! i;
  r !! j.

(** [df.iloc[i, j]] *)
Definition iloc (df : DataFrame) (i j : nat) : result cell :=
  r ← py_index (rows df) i;
  py_index r j.

(** [df.drop(df.index[:n])] *)
Definition drop_rows (n : nat) (df : DataFrame) : DataFrame :=
  mkDataFrame (columns df) (drop n (rows df)).

(** [df.replace(old, new, regex=True)] for a one-character pattern: every
    text cell is rewritten, the header and the other cells are not. *)
Definition replace_cell (old : N) (new : str) (c : cell) : cell :=
  match c with
  | Str s => Str (replace_char old new s)
  | _ => c
  end.

Definition df_replace (old : N) (new : str) (df : DataFrame) : DataFrame :=
  mkDataFrame (columns df) (map (map (replace_cell old new)) (rows df)).

Definition count_notna (r : list cell) : nat :=
  length (filter (fun c => notna c = true) r).

(** [df.dropna(axis=0, thresh=n)]: keep the rows with at least [n] values. *)
Definition dropna_rows (thresh : nat) (df : DataFrame) : DataFrame :=
  mkDataFrame (columns df)
    (filter (fun r => thresh <= count_notna r)%nat (rows df)).

(** [pd.concat([df1, df2], ignore_index=True)] of two frames with the same
    header. *)
Definition concat (df1 df2 : DataFrame) : DataFrame :=
  mkDataFrame (columns df1) (rows df1 ++ rows df2).

(** ** Row cleaning and page assembly *)

(** [clear_change_line].  The first statement of the source chains its
    [replace] calls without [inplace=True] and drops their value, so it leaves
    [df] as it was (once the two one-character replacements are made, the
    two-character patterns of the chain have nothing left to match); the later
    statements work in place. *)
Definition clear_change_line (df : DataFrame) : DataFrame :=
  let _unused := df_replace CR [] (df_replace LF [] df) in
  let df := df_replace DQUOTE [] df in
  let df := df_replace TILDE [HYPHEN] df in
  let df := df_replace WAVE_DASH [HYPHEN] df in
  dropna_rows 2 df.

Definition STRAY_TITLE : str := u "緊急避妊に係る診療が可能な産婦人科医療機関等一覧".
Definition BASIC_INFORMATION : str := u "基本情報".
Definition FACILITY_NAME : str := u "施設名".
Definition OKINAWA : str := u "沖縄県".
Definition CONSENT_TO_DISCLOSURE : str := u "公表の希望の有無".

Definition delete_title (df : DataFrame) : result DataFrame :=
  c ← iloc df 0 0;
  if cell_is STRAY_TITLE c then Ok (drop_rows 1 df)
  else Ok (clear_change_line df).

(** One turn of the loop of [delete_headers]. *)
Definition is_header_echo (df : DataFrame) (target : str) : result bool :=
  c0 ← iloc df 0 0;
  if cell_is target c0 then Ok true
  else if bool_decide (1 < length (columns df))%nat then
    c1 ← iloc df 0 1; Ok (cell_is target c1)
  else Ok false.

Fixpoint delete_headers_loop (df : DataFrame) (line_number : nat)
    (target_list : list str) : result DataFrame :=
  match target_list with
  | [] => Ok df
  | target :: rest =>
      b ← is_header_echo df target;
      if b : bool then Ok (drop_rows line_number df)
      else delete_headers_loop df line_number rest
  end.

Definition delete_headers (df : DataFrame) (line_number : nat)
    : result DataFrame :=
  delete_headers_loop df line_number [BASIC_INFORMATION; FACILITY_NAME].

Definition fix_format_page_df (df : DataFrame) (line_number : nat)
    : result DataFrame :=
  let df := clear_change_line df in
  df ← delete_title df;
  delete_headers df line_number.

(** [header.replace('\n', '').replace('\r', '') if header else ''] *)
Definition clean_header (header : option str) : str :=
  match header with
  | Some (c :: s) => replace_char CR [] (replace_char LF [] (c :: s))
  | _ => []
  end.

Definition get_first_page (first_table : RawTableGrid) (prefecture_name : str)
    : result (list str * RawTableGrid) :=
  let row := 1%nat in
  headers ← py_index first_table row;
  h0 ← py_index headers 0;
  row ← (if bool_decide (h0 = Some BASIC_INFORMATION)
         then (_ ← py_index first_table (row + 1); Ok (row + 1)%nat)
         else Ok row);
  raw_headers ← py_index first_table row;
  let headers := map clean_header raw_headers in
  headers ← (if bool_decide (prefecture_name = OKINAWA)
             then match headers with
                  | [] => Exc IndexError
                  | _ :: t => Ok (CONSENT_TO_DISCLOSURE :: t)
                  end
             else Ok headers);
  Ok (headers, drop (row + 1) first_table).

(** ** Lookup tables *)

(** [load_prefectures]: the rows of [table/prefectures.csv] as
    (number, name, english_name); the result is the dictionary from the
    English key to the display name and the keys in file order. *)
Definition load_prefectures (rows : list (Z * str * str))
    : gmap str str * list str :=
  (foldl (fun d row => <[row.2 := row.1.2]> d) ∅ rows, map snd rows).

(** [prefectures.get(prefecture_english_name, default)] with the empty text
    as default. *)
Definition get_prefecture_name (prefectures : gmap str str)
    (prefecture_english_name : str) : str :=
  default [] (prefectures !! prefecture_english_name).

(** The texts that [pd.read_csv] reads as a missing value by default; the
    postal table is read with [dtype=str], which keeps this conversion. *)
Definition na_values : list str :=
  map u [EmptyString; "#N/A"; "#N/A N/A"; "#NA"; "-1.#IND"; "-1.#QNAN"; "-NaN"; "-nan";
         "1.#IND"; "1.#QNAN"; "<NA>"; "N/A"; "NA"; "NULL"; "NaN"; "None";
         "n/a"; "nan"; "null"]%string.

Definition read_csv_field (field : str) : cell :=
  if bool_decide (field ∈ na_values) then NaN else Str field.

(** [pd.read_csv(..., header=None, dtype=str).values] on the fields of the
    lines of the file (blank lines are skipped by the reader and are not
    among them).  The table is as wide as the first line; a shorter line is
    filled with [NaN] up to that width. *)
Definition read_csv_str (raw : list (list str)) : list (list cell) :=
  let width := length (default [] (head raw)) in
  map (fun line => map read_csv_field line
                   ++ replicate (width - length line) NaN) raw.

(** The reader refuses a file without lines, and a line that has more fields
    than the first one. *)
Definition read_csv (raw : list (list str)) : result (list (list cell)) :=
  match raw with
  | [] => Exc EmptyDataError
  | first :: _ =>
      if bool_decide (Forall (fun line => length line <= length first)%nat raw)
      then Ok (read_csv_str raw)
      else Exc ParserError
  end.

(** One entry of the dictionary comprehension
    [{row[2].strip(): (row[6], row[7]) for row in address_df.values}]. *)
Definition postal_entry (row : list cell) : result (str * (cell * cell)) :=
  code ← py_index row 2;
  key ← match code with
        | Str s => Ok (strip s)
        | _ => Exc AttributeError
        end;
  region ← py_index row 6;
  locality ← py_index row 7;
  Ok (key, (region, locality)).

Definition postal_to_location (address_df : list (list cell))
    : result (gmap str (cell * cell)) :=
  foldl (fun acc row =>
           d ← acc;
           e ← postal_entry row;
           Ok (<[e.1 := e.2]> d))
    (Ok ∅) address_df.

(** Lines 30-33 together: the postal table is read, then indexed. *)
Definition load_postal_to_location (raw : list (list str))
    : result (gmap str (cell * cell)) :=
  address_df ← read_csv raw;
  postal_to_location address_df.

Definition postal2location (index : gmap str (cell * cell)) (postal_code : cell)
    : result (cell * cell) :=
  match postal_code with
  | NA | NaN => Ok (Str [], Str [])
  | Str s =>
      let postal_code := replace_char HYPHEN [] s in
      match index !! postal_code with
      | Some location => Ok location
      | None => Ok (Str [], Str [])
      end
  | Num _ | Inf _ => Exc AttributeError
  end.

(** ** The geocoding collaborator *)

(** A text node of the answer as [round(float(root.findtext(...)), 6)] sees
    it. *)
Inductive xml_node :=
| Missing                 (* findtext returns None: float raises TypeError *)
| NotANumber              (* a text float cannot read: ValueError *)
| Number (micro : Z)      (* a finite value, rounded to six decimals *)
| NanText                 (* a text float reads as nan *)
| InfText (negative : bool).  (* a text float reads as inf or -inf *)

Inductive xml_body :=
| Malformed               (* ET.fromstring raises ParseError *)
| Candidate (longitude latitude : xml_node).

Inductive geo_response :=
| NoResponse              (* requests.get raises *)
| Response (status_code : Z) (body : xml_body).

Definition read_node (n : xml_node) : result cell :=
  match n with
  | Missing => Exc TypeError
  | NotANumber => Exc ValueError
  | Number micro => Ok (Num micro)
  | NanText => Ok NaN
  | InfText negative => Ok (Inf negative)
  end.

Section Geocoding.
(** The service, as a function of the address the request is built from. *)
Variable geocode : cell -> geo_response.

Definition address_to_coordinates (address : cell) : result (cell * cell) :=
  if py_not address then Ok (Num 0, Num 0)
  else
    match geocode address with
    | NoResponse => Exc ConnectionError
    | Response status_code body =>
        if bool_decide (status_code = 200%Z) then
          match body with
          | Malformed => Exc ParseError
          | Candidate lon lat =>
              longitude ← read_node lon;
              latitude ← read_node lat;
              Ok (latitude, longitude)
          end
        else Ok (Num 0, Num 0)
    end.
End Geocoding.

(** ** The address resolver (the second half of [main]) *)

Definition POSTAL_CODE : str := u "郵便番号".
Definition ADDRESS : str := u "住所".
Definition REGION : str := u "都道府県".
Definition LOCALITY : str := u "市町村".
Definition LATITUDE : str := u "緯度".
Definition LONGITUDE : str := u "経度".

(** [Series.apply] with a function that may raise. *)
Fixpoint apply {A B} (f : A -> result B) (xs : list A) : result (list B) :=
  match xs with
  | [] => Ok []
  | x :: xs' => y ← f x; ys ← apply f xs'; Ok (y :: ys)
  end.

(** [a, b = zip( *pairs )]: with no pair there is nothing to unpack. *)
Definition unzip_pairs {A} (pairs : list (A * A)) : result (list A * list A) :=
  match pairs with
  | [] => Exc ValueError
  | _ => Ok (map fst pairs, map snd pairs)
  end.

(** Lines 196-199: the postal-code lookup. *)
Definition main_postal_lookup (index : gmap str (cell * cell)) (df : DataFrame)
    : result DataFrame :=
  if has_col POSTAL_CODE df then
    codes ← get_col POSTAL_CODE df;
    pairs ← apply (fun x => if notna x then postal2location index x
                            else Ok (Str [], Str [])) codes;
    cols ← unzip_pairs pairs;
    Ok (set_col LOCALITY cols.2 (set_col REGION cols.1 df))
  else Ok df.

(** [df["住所"].str.contains(prefecture_name) == False] for one cell: a cell
    that is no text gives [NaN], which is not equal to [False]. *)
Definition lacks_prefecture (prefecture_name : str) (x : cell) : bool :=
  match x with
  | Str s => negb (contains prefecture_name s)
  | _ => false
  end.

(** [prefecture_name + x] on a selected (text) cell. *)
Definition prepend (prefecture_name : str) (x : cell) : cell :=
  match x with
  | Str s => Str (prefecture_name ++ s)
  | _ => x
  end.

(** Lines 203-207: the address repair. *)
Definition main_prepend_prefecture (prefecture_name : str) (df : DataFrame)
    : result DataFrame :=
  addresses ← get_col ADDRESS df;
  let null_prefecture_address := map (lacks_prefecture prefecture_name) addresses in
  if existsb id null_prefecture_address then
    Ok (set_col ADDRESS
          (zip_with (fun (selected : bool) x =>
                       if selected then prepend prefecture_name x else x)
             null_prefecture_address addresses) df)
  else Ok df.

(** [df.update(other)] on one column: the values of [other] that are not
    missing replace those of [df]; a row that [other] does not have is
    missing in it. *)
Definition update_col (name : str) (other : list (option cell)) (df : DataFrame)
    : result DataFrame :=
  this ← get_col name df;
  Ok (set_col name
        (zip_with (fun old that =>
                     match that with
                     | Some v => if notna v then v else old
                     | None => old
                     end) this other) df).

Section Resolver.
Variable geocode : cell -> geo_response.
Variable index : gmap str (cell * cell).
Variable prefecture_name : str.

(** Lines 210-211: the coordinates. *)
Definition main_geocode (df : DataFrame) : result DataFrame :=
  addresses ← get_col ADDRESS df;
  pairs ← apply (fun x => if notna x then address_to_coordinates geocode x
                          else Ok (Str (u "0"), Str (u "0"))) addresses;
  cols ← unzip_pairs pairs;
  Ok (set_col LONGITUDE cols.2 (set_col LATITUDE cols.1 df)).

(** Lines 214-220: the gap fill from the parsed address. *)
Definition main_fill_from_address (df : DataFrame) : result DataFrame :=
  regions ← get_col REGION df;
  localities ← get_col LOCALITY df;
  let null_prefecture :=
    zip_with (fun r l => cell_is [] r || cell_is [] l) regions localities in
  if existsb id null_prefecture then
    addresses ← get_col ADDRESS df;
    region_locality ←
      apply (fun p : bool * cell =>
               if p.1 then Some <$> (take 2 <$> split_japanese_address p.2)
               else Ok None)
        (zip null_prefecture addresses);
    df ← update_col REGION
           (map (fun rl => (fun l : list str => Str (default [] (l !! 0%nat))) <$> rl)
              region_locality) df;
    update_col LOCALITY
      (map (fun rl => (fun l : list str => Str (default [] (l !! 1%nat))) <$> rl)
         region_locality) df
  else Ok df.

(** Lines 196-220. *)
Definition resolve (df : DataFrame) : result DataFrame :=
  df ← main_postal_lookup index df;
  if has_col ADDRESS df then
    df ← main_prepend_prefecture prefecture_name df;
    df ← main_geocode df;
    main_fill_from_address df
  else Ok df.
End Resolver.

(** ** The driver *)

(** The collaborators of one run.  A page is given by what its
    [extract_table()] returns. *)
Record world := mkWorld {
  listdir : nat -> result (list str);
  pdf_open : nat -> str -> result (list (option RawTableGrid));
  geocoder : cell -> geo_response
}.

Inductive message :=
| PrefectureNumber (i : nat) (prefecture_name prefecture : str)
| NoTableFound
| Error (e : exn).

(** What a run does to the outside: the lines it prints and the files it
    writes ([ToCsv i prefecture df] is [df.to_csv] on the output path made of
    the two-digit number [i] and the key [prefecture]). *)
Inductive event :=
| Print (m : message)
| ToCsv (i : nat) (prefecture : str) (df : DataFrame).

(** Lines 185-194: the pages after the first. *)
Fixpoint assemble_pages (headers : list str) (df : DataFrame)
    (pages : list (option RawTableGrid)) : result DataFrame :=
  match pages with
  | [] => Ok df
  | table :: rest =>
      df ← match table with
           | Some (r :: t) =>
               page_df ← new_DataFrame (r :: t) headers;
               page_df ← fix_format_page_df page_df 1;
               let page_df := clear_change_line page_df in
               Ok (concat df page_df)
           | _ => Ok df
           end;
      assemble_pages headers df rest
  end.

(** Lines 175-194, the [with] block: [None] stands for the [continue] taken
    after printing that no table was found. *)
Definition assemble (pages : list (option RawTableGrid)) (prefecture_name : str)
    : result (option DataFrame) :=
  first_table ← py_index pages 0;
  match first_table with
  | None => Ok None
  | Some first_table =>
      if bool_decide (length first_table < 2)%nat then Ok None
      else
        page ← get_first_page first_table prefecture_name;
        df ← new_DataFrame page.2 page.1;
        let df := clear_change_line df in
        df ← assemble_pages page.1 df (drop 1 pages);
        Ok (Some df)
  end.

Section Driver.
Variable w : world.
Variable index : gmap str (cell * cell).
Variable prefectures : gmap str str.

(** The body of the [try] statement for prefecture number [i]. *)
Definition try_prefecture (i : nat) (prefecture_name : str)
    : result (option DataFrame) :=
  opendata_files ← listdir w i;
  opendata_file ← py_index opendata_files 0;
  pages ← pdf_open w i opendata_file;
  table ← assemble pages prefecture_name;
  match table with
  | None => Ok None
  | Some df => Some <$> resolve (geocoder w) index prefecture_name df
  end.

(** One turn of the loop of [main]. *)
Definition main_iteration (i : nat) (prefecture : str) : list event :=
  let prefecture_name := get_prefecture_name prefectures prefecture in
  Print (PrefectureNumber i prefecture_name prefecture) ::
  match try_prefecture i prefecture_name with
  | Ok None => [Print NoTableFound]
  | Ok (Some df) => [ToCsv i prefecture df]
  | Exc e => [Print (Error e)]
  end.

Fixpoint main_from (i : nat) (PREFECTURES : list str) : list event :=
  match PREFECTURES with
  | [] => []
  | prefecture :: rest => main_iteration i prefecture ++ main_from (S i) rest
  end.

(** [for i, prefecture in enumerate(PREFECTURES, 1)] *)
Definition main (PREFECTURES : list str) : list event :=
  main_from 1 PREFECTURES.
End Driver.

(** Whether a run wrote a file for prefecture number [i]. *)
Definition writes_csv (i : nat) (e : event) : bool :=
  match e with
  | ToCsv j _ _ => bool_decide (i = j)
  | Print _ => false
  end.

(** ** Definitions used by the statements

    The closed forms, shapes and well-formedness conditions that the
    properties below are stated with, and the sample inputs they are
    evaluated on. *)

(** What the three in-place replacements of [clear_change_line] do to one
    character. *)
Definition clean_char (c : N) : str :=
  if N.eqb c DQUOTE then []
  else if N.eqb c TILDE then [HYPHEN]
  else if N.eqb c WAVE_DASH then [HYPHEN]
  else [c].

Definition clean_cell (c : cell) : cell :=
  match c with
  | Str s => Str (flat_map clean_char s)
  | _ => c
  end.

(** The first page gives no table, or one of fewer than two rows. *)
Definition no_usable_table (first_table : option RawTableGrid) : Prop :=
  match first_table with
  | None => True
  | Some t => (length t < 2)%nat
  end.

(** The shortest span of one character or more, none of them a line feed,
    that is followed by a character of [cls]: the span with that character,
    and the rest of the text. *)
Fixpoint shortest_span (cls : str) (s : str) : option (str * str) :=
  match s with
  | [] => None
  | x :: s' =>
      if N.eqb x LF then None
      else
        match s' with
        | [] => None
        | d :: s'' =>
            if bool_decide (d ∈ cls) then Some ([x; d], s'')
            else
              match shortest_span cls s' with
              | Some (m, rest) => Some (x :: m, rest)
              | None => None
              end
        end
  end.

(** A prefix of two, or of three, characters other than a line feed, followed
    by a prefecture-class suffix character. *)
Definition region_prefix2 (s : str) : option (str * str) :=
  match s with
  | x1 :: x2 :: d :: t =>
      if negb (N.eqb x1 LF) && negb (N.eqb x2 LF)
         && bool_decide (d ∈ PREFECTURE_SUFFIXES)
      then Some ([x1; x2; d], t) else None
  | _ => None
  end.

Definition region_prefix3 (s : str) : option (str * str) :=
  match s with
  | x1 :: x2 :: x3 :: d :: t =>
      if negb (N.eqb x1 LF) && negb (N.eqb x2 LF) && negb (N.eqb x3 LF)
         && bool_decide (d ∈ PREFECTURE_SUFFIXES)
      then Some ([x1; x2; x3; d], t) else None
  | _ => None
  end.

Definition locality_after (rt : option (str * str)) : option (str * str) :=
  match rt with
  | Some (region, t) =>
      match shortest_span LOCALITY_SUFFIXES t with
      | Some (m, _) => Some (region, m)
      | None => None
      end
  | None => None
  end.

(** The parse that the specification describes: the region is tried with the
    shorter prefix first, then with the longer one, then left out; the
    result is the pair (region, locality). *)
Definition parse_address (s : str) : option (str * str) :=
  or_else (locality_after (region_prefix2 s))
    (or_else (locality_after (region_prefix3 s))
       (locality_after (Some ([], s)))).

Definition region_shape (region : str) : Prop :=
  region = [] \/
  exists (p : str) (d : N),
    region = p ++ [d] /\ d ∈ PREFECTURE_SUFFIXES /\
    (length p = 2%nat \/ length p = 3%nat) /\ LF ∉ p.

Definition locality_shape (locality : str) : Prop :=
  exists (x : N) (mid : str) (d : N),
    locality = x :: mid ++ [d] /\ d ∈ LOCALITY_SUFFIXES /\
    Forall (fun c => c ∉ LOCALITY_SUFFIXES) mid /\ LF ∉ x :: mid.

(** The locality and remainder groups. *)
Definition locality_tail (s : str) (c : captures) : option captures :=
  rmatch (Cat (Group "locality" (Cat (PlusLazy Dot) (Class LOCALITY_SUFFIXES)))
            (Group "remainder" (Star Dot)))
    s c (fun _ c' => Some c').

(** Every row has one cell per column. *)
Definition rectangular (df : DataFrame) : Prop :=
  Forall (fun r => length r = length (columns df)) (rows df).

(** The column names that the resolver reads or writes. *)
Definition RESOLVER_COLUMNS : list str :=
  [POSTAL_CODE; ADDRESS; REGION; LOCALITY; LATITUDE; LONGITUDE].

(** Each of them names at most one column: [df[name]] is then a series, which
    is what the resolver takes it for. *)
Definition resolver_columns_unique (df : DataFrame) : Prop :=
  Forall (fun name => (length (filter (fun c => c = name) (columns df)) <= 1)%nat)
    RESOLVER_COLUMNS.

(** [pat] occurs in [s]. *)
Definition substring (pat s : str) : Prop :=
  exists a b, s = a ++ pat ++ b.

#[global] Instance regex_literal_dec (pat : str) : Decision (regex_literal pat).
Proof. unfold regex_literal. apply _. Defined.

(** No half of an entry is the empty text. *)
Definition full_entries (index : gmap str (cell * cell)) : Prop :=
  forall k r l, index !! k = Some (r, l) -> r <> Str [] /\ l <> Str [].

(** A pair of step 1: both halves empty, or neither. *)
Definition pair_settled (p : cell * cell) : Prop :=
  (p.1 = Str [] /\ p.2 = Str []) \/ (p.1 <> Str [] /\ p.2 <> Str []).

Definition frame_or (r : result DataFrame) (d : DataFrame) : DataFrame :=
  match r with
  | Ok x => x
  | Exc _ => d
  end.

(** One line of the postal table: the code in field 2, the region and the
    municipality in fields 6 and 7 (counted from 0). *)
Definition demo_postal_csv : list (list str) :=
  [map u ["13101"; "100  "; "1000001"; "TOKYO TO"; "CHIYODA KU"; "CHIYODA";
          "東京都"; "千代田区"; "千代田"]%string].

Definition demo_index : gmap str (cell * cell) :=
  match postal_to_location (read_csv_str demo_postal_csv) with
  | Ok d => d
  | Exc _ => ∅
  end.

Definition demo_geocode (address : cell) : geo_response :=
  Response 200 (Candidate (Number 139745000) (Number 35658000)).

Definition demo_df : DataFrame :=
  mkDataFrame [u "施設名"; POSTAL_CODE; ADDRESS]
    [[Str (u "千代田病院"); Str (u "100-0001"); Str (u "千代田区千代田1-1")];
     [Str (u "芝病院"); Str (u "999-9999"); Str (u "港区芝公園4-2-8")]].

Definition demo_df1 : DataFrame :=
  Eval vm_compute in frame_or (main_postal_lookup demo_index demo_df) demo_df.
Definition demo_df2 : DataFrame :=
  Eval vm_compute in
    frame_or (main_prepend_prefecture (u "東京都") demo_df1) demo_df.
Definition demo_df3 : DataFrame :=
  Eval vm_compute in frame_or (main_geocode demo_geocode demo_df2) demo_df.
Definition demo_df4 : DataFrame :=
  Eval vm_compute in frame_or (main_fill_from_address demo_df3) demo_df.

(** One file per prefecture directory, with the given pages. *)
Definition sample_world (pages : nat -> list (option RawTableGrid))
    (geocode : cell -> geo_response) : world :=
  mkWorld (fun _ => Ok [u "list.pdf"]) (fun i _ => Ok (pages i)) geocode.

Definition sample_prefectures : gmap str str * list str :=
  load_prefectures
    [(13%Z, u "東京都", u "tokyo"); (14%Z, u "神奈川県", u "kanagawa");
     (15%Z, u "新潟県", u "niigata")].

Definition no_index : gmap str (cell * cell) := ∅.

(** A document whose second prefecture has a first page of one row. *)
Definition short_page (i : nat) : list (option RawTableGrid) :=
  if Nat.eqb i 2 then [Some [[Some (u "only")]]] else [None].

(** The service answers 200 with a body that has no candidate. *)
Definition no_candidate_geocode (address : cell) : geo_response :=
  Response 200 (Candidate Missing Missing).

(** A document with a postal-code column and an address column. *)
Definition postal_page (i : nat) : list (option RawTableGrid) :=
  [Some [[Some (u "title")];
         [Some (u "施設名"); Some POSTAL_CODE; Some ADDRESS];
         [Some (u "芝病院"); Some (u "105-0011"); Some (u "港区芝公園4-2-8")]]].

(** A document with an address column only. *)
Definition address_page (i : nat) : list (option RawTableGrid) :=
  [Some [[Some (u "title")];
         [Some (u "施設名"); Some ADDRESS];
         [Some (u "芝病院"); Some (u "港区芝公園4-2-8")]]].

(** A document that brings its own region and municipality columns. *)
Definition own_region_page (i : nat) : list (option RawTableGrid) :=
  [Some [[Some (u "title")];
         [Some (u "施設名"); Some ADDRESS; Some REGION; Some LOCALITY];
         [Some (u "芝病院"); Some (u "港区芝公園4-2-8"); Some (u "東京都");
          Some []]]].

(** A record with its region filled and its municipality empty. *)
Definition region_only_df : DataFrame :=
  mkDataFrame [u "施設名"; ADDRESS; REGION; LOCALITY]
    [[Str (u "千代田医院"); Str (u "東京都千代田1-1"); Str (u "東京都"); Str []]].

(** The text of a node cannot be read as a float. *)
Definition unreadable (n : xml_node) : Prop :=
  n = Missing \/ n = NotANumber.

(** The answer cannot be read as a pair of floats. *)
Definition parse_fails (body : xml_body) : Prop :=
  match body with
  | Malformed => True
  | Candidate longitude latitude => unreadable longitude \/ unreadable latitude
  end.

(** The address of a record after step 2. *)
Definition repaired (prefecture_name : str) (x : cell) : cell :=
  if lacks_prefecture prefecture_name x then prepend prefecture_name x else x.

(** The service is out of order: every answer has status 503. *)
Definition unavailable_geocode (address : cell) : geo_response :=
  Response 503 Malformed.

(** Three records: one with an address text, one without address, one whose
    address is the empty text. *)
Definition gaps_df : DataFrame :=
  mkDataFrame [u "施設名"; ADDRESS; u "電話番号"]
    [[Str (u "芝病院"); Str (u "港区芝公園4-2-8"); Str (u "03-0000-0001")];
     [Str (u "八幡医院"); NA; Str (u "03-0000-0002")];
     [Str (u "千代田医院"); Str []; Str (u "03-0000-0003")]].

Definition gaps_df2 : DataFrame :=
  Eval vm_compute in
    frame_or (main_prepend_prefecture (u "東京都") gaps_df) gaps_df.
Definition gaps_df3 : DataFrame :=
  Eval vm_compute in frame_or (main_geocode unavailable_geocode gaps_df2) gaps_df.

(** A document whose only record has the empty text for address. *)
Definition empty_address_page (i : nat) : list (option RawTableGrid) :=
  [Some [[Some (u "title")];
         [Some (u "施設名"); Some ADDRESS; Some REGION; Some LOCALITY];
         [Some (u "千代田医院"); Some []; Some (u "東京都");
          Some (u "千代田区")]]].

(** The column that the filter of step 4 misses first. *)
Definition missing_column (df : DataFrame) : str :=
  if has_col REGION df then LOCALITY else REGION.

(** ** Further definitions used by the statements *)

(** The name, key and number of a line of the prefecture table. *)
Definition row_key (row : Z * str * str) : str := row.2.
Definition row_name (row : Z * str * str) : str := row.1.2.

(** A cell as [pd.read_csv] with [dtype=str] can produce it: missing, or a
    text that is not empty. *)
Definition loaded_field (c : cell) : Prop :=
  c = NaN \/ exists s, c = Str s /\ s <> [].

(** A line of the postal file has a code: a third field, which the reader
    does not take for a missing value. *)
Definition has_code (line : list str) : Prop :=
  exists s, line !! 2%nat = Some s /\ s ∉ na_values.

(** What the load of the postal file needs: a first line of eight fields or
    more, no line longer than the first, a code on every line. *)
Definition loadable (raw : list (list str)) : Prop :=
  exists first,
    head raw = Some first /\ (8 <= length first)%nat /\
    Forall (fun line => (length line <= length first)%nat /\ has_code line) raw.

(** The postal file of the samples, followed by a line that stops after its
    code. *)
Definition short_line_csv : list (list str) :=
  demo_postal_csv ++ [map u ["13102"; "103  "; "1030000"]%string].

(** A cell as the table extraction produces it: [None] or a text. *)
Definition text_cell (c : cell) : Prop :=
  c = NA \/ exists s, c = Str s.

Definition sample_prefecture_rows : list (Z * str * str) :=
  [(13%Z, u "東京都", u "tokyo"); (14%Z, u "神奈川県", u "kanagawa");
   (15%Z, u "新潟県", u "niigata")].

(** What every table under assembly satisfies: it carries the first page's
    header, is rectangular, has two values or more in every row, and holds
    only missing or text cells. *)
Definition assembled (headers : list str) (df : DataFrame) : Prop :=
  columns df = headers /\ rectangular df /\
  Forall (fun r => 2 <= count_notna r)%nat (rows df) /\
  Forall (Forall text_cell) (rows df).


(** * Properties *)

(** ** The address split on sample addresses *)

Example split_minato :
  split_japanese_address (Str (u "港区芝公園4-2-8")) = Ok [[]; u "港区"].
Proof. vm_compute. reflexivity. Qed.

Example split_tokyo_minato :
  split_japanese_address (Str (u "東京都港区芝公園4-2-8")) = Ok [u "東京都"; u "港区"].
Proof. vm_compute. reflexivity. Qed.

Example split_kanagawa :
  split_japanese_address (Str (u "神奈川県横浜市中区1-1")) = Ok [u "神奈川県"; u "横浜市"].
Proof. vm_compute. reflexivity. Qed.

Example split_ichikawa :
  split_japanese_address (Str (u "市川市八幡1-1")) = Ok [[]; u "市川市"].
Proof. vm_compute. reflexivity. Qed.

Example split_nomatch :
  split_japanese_address (Str (u "1-2-3")) = Ok [[]; []].
Proof. vm_compute. reflexivity. Qed.

(** ** Proof tools *)

(** Reduce the monadic plumbing only. *)
Tactic Notation "rsimpl" :=
  cbn [mbind result_bind mret result_ret fmap result_fmap].
Tactic Notation "rsimpl" "in" hyp(H) :=
  cbn [mbind result_bind mret result_ret fmap result_fmap] in H.

(** ** The row cleaner *)

Lemma replace_chars_clean (s : str) :
  replace_char WAVE_DASH [HYPHEN]
    (replace_char TILDE [HYPHEN] (replace_char DQUOTE [] s))
  = flat_map clean_char s.
Proof.
  unfold replace_char. induction s as [|c s IH]; [reflexivity|].
  cbn [flat_map]. unfold clean_char at 1.
  destruct (N.eqb_spec c DQUOTE) as [->|Hq]; [exact IH|].
  destruct (N.eqb_spec c TILDE) as [->|Ht]; [cbn; f_equal; exact IH|].
  destruct (N.eqb_spec c WAVE_DASH) as [->|Hw]; [cbn; f_equal; exact IH|].
  cbn. rewrite (proj2 (N.eqb_neq c TILDE) Ht). cbn.
  rewrite (proj2 (N.eqb_neq c WAVE_DASH) Hw). cbn. f_equal. exact IH.
Qed.

Lemma clean_char_stable (c d : N) :
  d ∈ clean_char c -> clean_char d = [d].
Proof.
  unfold clean_char at 1.
  destruct (N.eqb_spec c DQUOTE); [intros H; inversion H|].
  destruct (N.eqb_spec c TILDE);
    [intros ->%list_elem_of_singleton; reflexivity|].
  destruct (N.eqb_spec c WAVE_DASH);
    [intros ->%list_elem_of_singleton; reflexivity|].
  intros ->%list_elem_of_singleton. unfold clean_char.
  rewrite (proj2 (N.eqb_neq c DQUOTE)), (proj2 (N.eqb_neq c TILDE)),
    (proj2 (N.eqb_neq c WAVE_DASH)); auto.
Qed.

Lemma flat_map_clean_fixed (s : str) :
  Forall (fun d => clean_char d = [d]) s -> flat_map clean_char s = s.
Proof.
  induction 1 as [|d s Hd _ IH]; [reflexivity|].
  cbn [flat_map]. rewrite Hd, IH. reflexivity.
Qed.

Lemma clean_cell_idem (c : cell) : clean_cell (clean_cell c) = clean_cell c.
Proof.
  destruct c as [|s|n| |neg]; cbn; try reflexivity.
  f_equal. apply flat_map_clean_fixed, Forall_forall.
  intros d Hd. apply list_elem_of_In, in_flat_map in Hd.
  destruct Hd as (c & _ & Hd). apply (clean_char_stable c), list_elem_of_In, Hd.
Qed.

Lemma clean_cell_notna (c : cell) : notna (clean_cell c) = notna c.
Proof. destruct c; reflexivity. Qed.

Lemma count_notna_clean (r : list cell) :
  count_notna (map clean_cell r) = count_notna r.
Proof.
  unfold count_notna. induction r as [|c r IH]; [reflexivity|].
  cbn [map]. rewrite !filter_cons, clean_cell_notna.
  destruct (decide (notna c = true)); cbn; rewrite IH; reflexivity.
Qed.

(** [clear_change_line] in closed form: clean every cell, then keep the rows
    with two values or more. *)
Lemma clear_change_line_eq (df : DataFrame) :
  clear_change_line df =
  mkDataFrame (columns df)
    (filter (fun r => 2 <= count_notna r)%nat (map (map clean_cell) (rows df))).
Proof.
  unfold clear_change_line, dropna_rows, df_replace. cbn. f_equal. f_equal.
  rewrite !map_map. apply map_ext. intros r.
  rewrite !map_map. apply map_ext. intros [|s|n| |neg]; cbn; try reflexivity.
  f_equal. apply replace_chars_clean.
Qed.

Lemma clear_change_line_columns (df : DataFrame) :
  columns (clear_change_line df) = columns df.
Proof. rewrite clear_change_line_eq. reflexivity. Qed.

(** C5.  The row cleaner is idempotent: cleaning a cleaned table returns that
    table, for every table. *)
Theorem clear_change_line_idempotent (df : DataFrame) :
  clear_change_line (clear_change_line df) = clear_change_line df.
Proof.
  rewrite !clear_change_line_eq. cbn [columns rows]. f_equal.
  induction (rows df) as [|r l IH]; [reflexivity|].
  cbn [map]. rewrite filter_cons.
  destruct (decide (2 <= count_notna (map clean_cell r))%nat) as [Hr|Hr].
  - cbn [map]. rewrite filter_cons.
    rewrite map_map, (map_ext _ clean_cell) by apply clean_cell_idem.
    rewrite decide_True by exact Hr. f_equal. exact IH.
  - exact IH.
Qed.

(** C2.  A line feed and a carriage return survive the row cleaner: the
    statement that would remove them does not keep its result.  (The cells
    below are the texts a-LF-b and c-CR-d.) *)
Theorem clear_change_line_keeps_newlines :
  clear_change_line
    (mkDataFrame [u "h1"; u "h2"] [[Str [97; LF; 98]; Str [99; CR; 100]]])
  = mkDataFrame [u "h1"; u "h2"] [[Str [97; LF; 98]; Str [99; CR; 100]]].
Proof. vm_compute. reflexivity. Qed.

(** C8.  A column whose header is missing survives table construction and the
    row cleaner: the first page with header row [h1, None, h3] is assembled
    into a table that still has the column with the empty name. *)
Theorem empty_header_column_survives :
  assemble
    [Some [[Some (u "title")];
           [Some (u "h1"); None; Some (u "h3")];
           [Some (u "v1"); Some (u "v2"); Some (u "v3")]]]
    (u "東京都")
  = Ok (Some (mkDataFrame [u "h1"; []; u "h3"]
                [[Str (u "v1"); Str (u "v2"); Str (u "v3")]])).
Proof. vm_compute. reflexivity. Qed.

(** ** The first page *)

Lemma py_index_Some {A} (xs : list A) (i : nat) (x : A) :
  xs !! i = Some x -> py_index xs i = Ok x.
Proof. unfold py_index. intros ->. reflexivity. Qed.

(** The header row is row 1 unless its first cell is the placeholder. *)
Lemma get_first_page_plain (first_table : RawTableGrid) (prefecture_name : str)
    (headers : list (option str)) (h0 : option str) :
  prefecture_name <> OKINAWA ->
  first_table !! 1%nat = Some headers ->
  headers !! 0%nat = Some h0 ->
  h0 <> Some BASIC_INFORMATION ->
  get_first_page first_table prefecture_name
  = Ok (map clean_header headers, drop 2 first_table).
Proof.
  intros Hp H1 H0 Hb. unfold get_first_page.
  rewrite (py_index_Some _ _ _ H1). rsimpl.
  rewrite (py_index_Some _ _ _ H0). rsimpl.
  rewrite (bool_decide_eq_false_2 _ Hb). rsimpl.
  rewrite (py_index_Some _ _ _ H1). rsimpl.
  rewrite (bool_decide_eq_false_2 _ Hp). reflexivity.
Qed.

(** With the placeholder in that cell, the header row is row 2. *)
Lemma get_first_page_nested (first_table : RawTableGrid) (prefecture_name : str)
    (section_row headers : list (option str)) :
  prefecture_name <> OKINAWA ->
  first_table !! 1%nat = Some section_row ->
  section_row !! 0%nat = Some (Some BASIC_INFORMATION) ->
  first_table !! 2%nat = Some headers ->
  get_first_page first_table prefecture_name
  = Ok (map clean_header headers, drop 3 first_table).
Proof.
  intros Hp H1 H0 H2. unfold get_first_page.
  rewrite (py_index_Some _ _ _ H1). rsimpl.
  rewrite (py_index_Some _ _ _ H0). rsimpl.
  rewrite (bool_decide_eq_true_2 (Some BASIC_INFORMATION = Some BASIC_INFORMATION))
    by reflexivity.
  rsimpl.
  replace (1 + 1)%nat with 2%nat by reflexivity.
  rewrite (py_index_Some _ _ _ H2). rsimpl.
  rewrite (py_index_Some _ _ _ H2). rsimpl.
  rewrite (bool_decide_eq_false_2 _ Hp). reflexivity.
Qed.

(** C4.  First-page header detection.  For a prefecture other than the
    special-cased one, the grid [title / placeholder / h1 h2 / v1 v2] is
    assembled into the table with header [h1, h2] and the single row
    [v1, v2]; in general the header row is the grid's row 1, or row 2 when the
    first cell of row 1 is the placeholder, and the data rows are all the
    rows after the header row. *)
Theorem first_page_header_detection (prefecture_name : str) :
  prefecture_name <> OKINAWA ->
  assemble
    [Some [[Some (u "title")];
           [Some BASIC_INFORMATION];
           [Some (u "h1"); Some (u "h2")];
           [Some (u "v1"); Some (u "v2")]]]
    prefecture_name
  = Ok (Some (mkDataFrame [u "h1"; u "h2"] [[Str (u "v1"); Str (u "v2")]]))
  /\ forall (first_table : RawTableGrid) (row1 : list (option str))
       (h0 : option str),
      first_table !! 1%nat = Some row1 ->
      row1 !! 0%nat = Some h0 ->
      (h0 <> Some BASIC_INFORMATION ->
       get_first_page first_table prefecture_name
       = Ok (map clean_header row1, drop 2 first_table))
      /\ (h0 = Some BASIC_INFORMATION ->
          forall row2 : list (option str),
            first_table !! 2%nat = Some row2 ->
            get_first_page first_table prefecture_name
            = Ok (map clean_header row2, drop 3 first_table)).
Proof.
  intros Hp. split.
  - unfold assemble.
    cbn [py_index lookup list_lookup]. rsimpl.
    rewrite bool_decide_eq_false_2 by (cbn [length]; lia).
    erewrite get_first_page_nested; [|exact Hp|reflexivity..].
    vm_compute. reflexivity.
  - intros first_table row1 h0 H1 H0. split.
    + intros Hb. eapply get_first_page_plain; eauto.
    + intros -> row2 H2. eapply get_first_page_nested; eauto.
Qed.

Lemma first_page_header_detection_witness :
  u "東京都" <> OKINAWA /\
  assemble
    [Some [[Some (u "title")];
           [Some BASIC_INFORMATION];
           [Some (u "h1"); Some (u "h2")];
           [Some (u "v1"); Some (u "v2")]]]
    (u "東京都")
  = Ok (Some (mkDataFrame [u "h1"; u "h2"] [[Str (u "v1"); Str (u "v2")]])).
Proof.
  split; [vm_compute; discriminate|].
  apply (first_page_header_detection (u "東京都")). vm_compute. discriminate.
Defined.

(** ** The driver loop *)

Section DriverFacts.
Variable w : world.
Variable index : gmap str (cell * cell).
Variable prefectures : gmap str str.

Lemma main_from_app (i : nat) (l1 l2 : list str) :
  main_from w index prefectures i (l1 ++ l2)
  = main_from w index prefectures i l1
    ++ main_from w index prefectures (i + length l1) l2.
Proof.
  revert i. induction l1 as [|p l1 IH]; intros i.
  - cbn [app main_from length]. rewrite Nat.add_0_r. reflexivity.
  - cbn [app main_from length]. rewrite IH, <- app_assoc.
    replace (S i + length l1)%nat with (i + S (length l1))%nat by lia.
    reflexivity.
Qed.

(** The events of one turn: the announcement, then one more event. *)
Lemma main_iteration_writes (i k : nat) (prefecture : str) (e : event) :
  e ∈ main_iteration w index prefectures i prefecture ->
  writes_csv k e = true -> k = i.
Proof.
  unfold main_iteration. intros He Hk.
  apply list_elem_of_In in He. destruct He as [<-|He]; [discriminate|].
  destruct (try_prefecture _ _ _ _) as [[df|]|err];
    destruct He as [<-|[]]; try discriminate.
  cbn [writes_csv] in Hk. apply bool_decide_eq_true_1 in Hk. exact Hk.
Qed.

(** A file for prefecture number [k] can only come from turn [k]. *)
Lemma main_from_writes (i k : nat) (l : list str) (e : event) :
  e ∈ main_from w index prefectures i l ->
  writes_csv k e = true -> (i <= k < i + length l)%nat.
Proof.
  revert i. induction l as [|p l IH]; intros i He Hk.
  - cbn [main_from] in He. inversion He.
  - cbn [main_from] in He. apply elem_of_app in He. destruct He as [He|He].
    + apply (main_iteration_writes i k p e He) in Hk. cbn [length]. lia.
    + specialize (IH (S i) He Hk). cbn [length]. lia.
Qed.

Lemma assemble_no_table (first_table : option RawTableGrid)
    (pages : list (option RawTableGrid)) (prefecture_name : str) :
  no_usable_table first_table ->
  assemble (first_table :: pages) prefecture_name = Ok None.
Proof.
  intros H. unfold assemble. cbn [py_index lookup list_lookup]. rsimpl.
  destruct first_table as [t|]; [|reflexivity].
  cbn [no_usable_table] in H. rewrite bool_decide_eq_true_2 by exact H.
  reflexivity.
Qed.

(** A run is the run before a prefecture, that prefecture's turn, and the
    run after it. *)
Lemma main_split_at (before after : list str) (prefecture : str) :
  main w index prefectures (before ++ prefecture :: after)
  = main w index prefectures before
    ++ main_iteration w index prefectures (S (length before)) prefecture
    ++ main_from w index prefectures (S (S (length before))) after.
Proof.
  unfold main. rewrite main_from_app. cbn [main_from].
  replace (1 + length before)%nat with (S (length before)) by reflexivity.
  reflexivity.
Qed.

(** If the turn of prefecture number [i] writes no file, the run writes no
    file numbered [i]. *)
Lemma main_no_write (before after : list str) (prefecture : str) :
  let i := S (length before) in
  Forall (fun e => writes_csv i e = false)
    (main_iteration w index prefectures i prefecture) ->
  Forall (fun e => writes_csv i e = false)
    (main w index prefectures (before ++ prefecture :: after)).
Proof.
  intros i Hturn. rewrite main_split_at. fold i.
  apply Forall_app. split; [|apply Forall_app; split; [exact Hturn|]].
  - apply Forall_forall. intros e He.
    destruct (writes_csv i e) eqn:Hw; [exfalso|reflexivity].
    apply (main_from_writes 1 i before e He) in Hw. subst i. lia.
  - apply Forall_forall. intros e He.
    destruct (writes_csv i e) eqn:Hw; [exfalso|reflexivity].
    apply (main_from_writes (S i) i after e He) in Hw. lia.
Qed.

(** A turn whose [try] body raises prints the error and nothing else. *)
Lemma main_iteration_Exc (i : nat) (prefecture : str) (e : exn) :
  try_prefecture w index i (get_prefecture_name prefectures prefecture)
  = Exc e ->
  main_iteration w index prefectures i prefecture
  = [Print (PrefectureNumber i (get_prefecture_name prefectures prefecture)
              prefecture);
     Print (Error e)].
Proof. unfold main_iteration. intros ->. reflexivity. Qed.

(** Every prefecture of the list is announced, whatever happens to the
    others. *)
Lemma main_from_announces (i k : nat) (l : list str) (prefecture : str) :
  l !! k = Some prefecture ->
  Print (PrefectureNumber (i + k)
           (get_prefecture_name prefectures prefecture) prefecture)
  ∈ main_from w index prefectures i l.
Proof.
  revert i k. induction l as [|p l IH]; intros i k; [discriminate|].
  cbn [main_from]. destruct k as [|k]; cbn [lookup list_lookup].
  - intros [= ->]. rewrite Nat.add_0_r. apply elem_of_app. left.
    unfold main_iteration. apply list_elem_of_here.
  - intros Hk. apply elem_of_app. right.
    replace (i + S k)%nat with (S i + k)%nat by lia. apply IH, Hk.
Qed.

(** C9.  When the first page of a prefecture's document yields no table or a
    table of fewer than two rows, that turn of the loop only prints the
    announcement and the no-table message; the whole run writes no file for
    that prefecture, and is the run over the prefectures before it, those
    two lines, and the run over the prefectures after it. *)
Theorem no_table_skips_prefecture (before after : list str)
    (prefecture file : str) (files : list str)
    (first_table : option RawTableGrid) (pages : list (option RawTableGrid)) :
  let i := S (length before) in
  listdir w i = Ok (file :: files) ->
  pdf_open w i file = Ok (first_table :: pages) ->
  no_usable_table first_table ->
  main w index prefectures (before ++ prefecture :: after)
  = main w index prefectures before
    ++ [Print (PrefectureNumber i (get_prefecture_name prefectures prefecture)
                 prefecture);
        Print NoTableFound]
    ++ main_from w index prefectures (S i) after
  /\ Forall (fun e => writes_csv i e = false)
       (main w index prefectures (before ++ prefecture :: after)).
Proof.
  intros i Hl Hp Ht.
  assert (Hit : main_iteration w index prefectures i prefecture
                = [Print (PrefectureNumber i
                            (get_prefecture_name prefectures prefecture)
                            prefecture);
                   Print NoTableFound]).
  { unfold main_iteration, try_prefecture. rewrite Hl. rsimpl.
    cbn [py_index lookup list_lookup]. rsimpl.
    rewrite Hp. rsimpl.
    rewrite (assemble_no_table _ _ _ Ht). reflexivity. }
  split.
  - rewrite main_split_at. fold i. rewrite Hit. reflexivity.
  - apply main_no_write. fold i. rewrite Hit. repeat constructor.
Qed.
End DriverFacts.

(** ** The address pattern *)

Lemma shortest_span_app (cls s m rest : str) :
  shortest_span cls s = Some (m, rest) -> s = m ++ rest.
Proof.
  revert m rest. induction s as [|x s IH]; intros m rest; [discriminate|].
  cbn [shortest_span]. destruct (N.eqb x LF); [discriminate|].
  destruct s as [|d s'']; [discriminate|].
  destruct (bool_decide (d ∈ cls)).
  - intros [= <- <-]. reflexivity.
  - destruct (shortest_span cls (d :: s'')) as [[m' rest']|]; [|discriminate].
    intros [= <- <-]. cbn [app]. f_equal. apply IH. reflexivity.
Qed.

Lemma shortest_span_shape (s m rest : str) :
  shortest_span LOCALITY_SUFFIXES s = Some (m, rest) -> locality_shape m.
Proof.
  revert m rest. induction s as [|x s IH]; intros m rest; [discriminate|].
  cbn [shortest_span]. destruct (N.eqb_spec x LF) as [|Hx]; [discriminate|].
  destruct s as [|d s'']; [discriminate|].
  destruct (bool_decide (d ∈ LOCALITY_SUFFIXES)) eqn:Hd.
  - intros [= <- <-]. exists x, [], d. split; [reflexivity|].
    split; [apply bool_decide_eq_true in Hd; exact Hd|]. split; [constructor|].
    intros Hin. apply list_elem_of_singleton in Hin. congruence.
  - destruct (shortest_span LOCALITY_SUFFIXES (d :: s'')) as [[m' rest']|] eqn:Hs;
      [|discriminate].
    intros [= <- <-]. destruct (IH _ _ eq_refl) as (y & mid & e & -> & He & Hmid & Hlf).
    exists x, (y :: mid), e. split; [reflexivity|]. split; [exact He|].
    assert (y = d) as ->.
    { apply shortest_span_app in Hs. cbn in Hs. congruence. }
    split.
    + constructor; [apply bool_decide_eq_false in Hd; exact Hd | exact Hmid].
    + intros Hin. apply elem_of_cons in Hin. destruct Hin as [Hin|Hin]; [congruence|].
      exact (Hlf Hin).
Qed.

Lemma rmatch_Dot_cons (x : N) (s : str) (c : captures)
    (k : str -> captures -> option captures) :
  rmatch Dot (x :: s) c k = if N.eqb x LF then None else k s c.
Proof. reflexivity. Qed.

Lemma rmatch_Dot_nil (c : captures) (k : str -> captures -> option captures) :
  rmatch Dot [] c k = None.
Proof. reflexivity. Qed.

(** The two loops of the pattern, on [Dot]. *)
Lemma plus_lazy_dot_class (cls : str) (k : str -> captures -> option captures)
    (fuel : nat) (s : str) (c : captures) :
  (forall s' c', k s' c' <> None) ->
  (length s <= fuel)%nat ->
  plus_lazy_loop (rmatch Dot) (fun s1 c1 => rmatch (Class cls) s1 c1 k) fuel s c
  = match shortest_span cls s with
    | Some (_, rest) => k rest c
    | None => None
    end.
Proof.
  intros Hk. revert s. induction fuel as [|fuel IH]; intros s Hlen.
  - destruct s; [reflexivity | cbn in Hlen; lia].
  - cbn [plus_lazy_loop]. destruct s as [|x s']; [reflexivity|].
    rewrite rmatch_Dot_cons.
    cbn [shortest_span]. destruct (N.eqb x LF); [reflexivity|].
    cbn [length] in Hlen. rewrite IH by lia.
    destruct s' as [|d s'']; [reflexivity|].
    cbn [rmatch].
    destruct (bool_decide (d ∈ cls)).
    + specialize (Hk s'' c). destruct (k s'' c); [reflexivity | congruence].
    + cbn [or_else].
      destruct (shortest_span cls (d :: s'')) as [[m rest]|]; reflexivity.
Qed.

Lemma star_dot_captures (name : string) (s0 : str) (fuel : nat) (s : str)
    (c : captures) :
  exists v,
    star_loop (rmatch Dot)
      (fun s' c' => Some (<[name := take (length s0 - length s') s0]> c'))
      fuel s c
    = Some (<[name := v]> c).
Proof.
  revert s. induction fuel as [|fuel IH]; intros s; cbn [star_loop].
  - eauto.
  - destruct s as [|x s']; [rewrite rmatch_Dot_nil; cbn [or_else]; eauto|].
    rewrite rmatch_Dot_cons.
    destruct (N.eqb x LF); [cbn [or_else]; eauto|].
    destruct (IH s') as [v ->]. cbn [or_else]. eauto.
Qed.

Lemma locality_tail_spec (s : str) (c : captures) :
  match shortest_span LOCALITY_SUFFIXES s with
  | Some (m, _) =>
      exists v, locality_tail s c
                = Some (<["remainder" := v]> (<["locality" := m]> c))
  | None => locality_tail s c = None
  end.
Proof.
  unfold locality_tail.
  change (rmatch (Cat (Group "locality" (Cat (PlusLazy Dot) (Class LOCALITY_SUFFIXES)))
                    (Group "remainder" (Star Dot))) s c (fun _ c' => Some c'))
    with (plus_lazy_loop (rmatch Dot)
            (fun s1 c1 =>
               rmatch (Class LOCALITY_SUFFIXES) s1 c1
                 (fun s' c' =>
                    star_loop (rmatch Dot)
                      (fun s'' c'' =>
                         Some (<["remainder" := take (length s' - length s'') s']> c''))
                      (length s') s'
                      (<["locality" := take (length s - length s') s]> c')))
            (S (length s)) s c).
  rewrite plus_lazy_dot_class; [| |lia].
  - destruct (shortest_span LOCALITY_SUFFIXES s) as [[m rest]|] eqn:Hs;
      [|reflexivity].
    apply shortest_span_app in Hs. subst s.
    rewrite length_app, Nat.add_sub, take_app_length.
    apply star_dot_captures.
  - intros s' c'.
    destruct (star_dot_captures "remainder" s' (length s') s'
                (<["locality" := take (length s - length s') s]> c')) as [v ->].
    discriminate.
Qed.

Lemma address_pattern_unfold (s : str) :
  re_match address_pattern s
  = or_else
      (or_else
         match region_prefix2 s with
         | Some (region, t) => locality_tail t (<["region" := region]> ∅)
         | None => None
         end
         match region_prefix3 s with
         | Some (region, t) => locality_tail t (<["region" := region]> ∅)
         | None => None
         end)
      (locality_tail s ∅).
Proof.
  assert (E3 : forall (a b c : N) (l : str),
             take (length (a :: b :: c :: l) - length l) (a :: b :: c :: l)
             = [a; b; c]).
  { intros a b c l.
    replace (length (a :: b :: c :: l) - length l)%nat with 3%nat
      by (cbn [length]; lia).
    reflexivity. }
  assert (E4 : forall (a b c d : N) (l : str),
             take (length (a :: b :: c :: d :: l) - length l)
               (a :: b :: c :: d :: l)
             = [a; b; c; d]).
  { intros a b c d l.
    replace (length (a :: b :: c :: d :: l) - length l)%nat with 4%nat
      by (cbn [length]; lia).
    reflexivity. }
  unfold re_match, address_pattern. cbn [rmatch]. fold (locality_tail s ∅).
  f_equal.
  destruct s as [|x1 [|x2 [|x3 s3]]]; try reflexivity;
    cbn [region_prefix2 region_prefix3].
  - destruct (N.eqb x1 LF); reflexivity.
  - destruct (N.eqb x1 LF), (N.eqb x2 LF); reflexivity.
  - rewrite E3.
    destruct (N.eqb x1 LF); [destruct s3; reflexivity|].
    destruct (N.eqb x2 LF); [destruct s3; reflexivity|].
    cbn [negb andb].
    destruct (bool_decide (x3 ∈ PREFECTURE_SUFFIXES)), (N.eqb x3 LF),
      s3 as [|x4 s4]; cbn [negb andb]; rewrite ?E4; try reflexivity;
      destruct (bool_decide (x4 ∈ PREFECTURE_SUFFIXES)); reflexivity.
Qed.

Lemma locality_tail_groups (t : str) (c : captures) :
  match shortest_span LOCALITY_SUFFIXES t with
  | Some (m, _) =>
      exists d, locality_tail t c = Some d /\
                d !! "locality"%string = Some m /\
                d !! "region"%string = c !! "region"%string
  | None => locality_tail t c = None
  end.
Proof.
  pose proof (locality_tail_spec t c) as H.
  destruct (shortest_span LOCALITY_SUFFIXES t) as [[m rest]|]; [|exact H].
  destruct H as [v ->]. eexists. split; [reflexivity|].
  split.
  - rewrite lookup_insert_ne by discriminate. apply lookup_insert_eq.
  - rewrite !lookup_insert_ne by discriminate. reflexivity.
Qed.

(** The match of [address_pattern], read through [groupdict], is the parse
    [parse_address]. *)
Lemma re_match_address_pattern (s : str) :
  match parse_address s with
  | Some (region, locality) =>
      exists d, re_match address_pattern s = Some d /\
                group_or_empty "region" d = region /\
                group_or_empty "locality" d = locality
  | None => re_match address_pattern s = None
  end.
Proof.
  rewrite address_pattern_unfold. unfold parse_address, locality_after.
  destruct (region_prefix2 s) as [[r2 t2]|].
  - pose proof (locality_tail_groups t2 (<["region"%string := r2]> ∅)) as H2.
    destruct (shortest_span LOCALITY_SUFFIXES t2) as [[m2 rest2]|].
    + destruct H2 as (d & -> & Hl & Hr). cbn [or_else]. exists d.
      split; [reflexivity|]. unfold group_or_empty.
      rewrite Hl, Hr, lookup_insert_eq. split; reflexivity.
    + rewrite H2. cbn [or_else].
      destruct (region_prefix3 s) as [[r3 t3]|].
      * pose proof (locality_tail_groups t3 (<["region"%string := r3]> ∅)) as H3.
        destruct (shortest_span LOCALITY_SUFFIXES t3) as [[m3 rest3]|].
        -- destruct H3 as (d & -> & Hl & Hr). cbn [or_else]. exists d.
           split; [reflexivity|]. unfold group_or_empty.
           rewrite Hl, Hr, lookup_insert_eq. split; reflexivity.
        -- rewrite H3. cbn [or_else].
           pose proof (locality_tail_groups s ∅) as H0.
           destruct (shortest_span LOCALITY_SUFFIXES s) as [[m0 rest0]|];
             [|exact H0].
           destruct H0 as (d & -> & Hl & Hr). exists d.
           split; [reflexivity|]. unfold group_or_empty.
           rewrite Hl, Hr, lookup_empty. split; reflexivity.
      * cbn [or_else].
        pose proof (locality_tail_groups s ∅) as H0.
        destruct (shortest_span LOCALITY_SUFFIXES s) as [[m0 rest0]|];
          [|exact H0].
        destruct H0 as (d & -> & Hl & Hr). exists d.
        split; [reflexivity|]. unfold group_or_empty.
        rewrite Hl, Hr, lookup_empty. split; reflexivity.
  - cbn [or_else].
    destruct (region_prefix3 s) as [[r3 t3]|].
    + pose proof (locality_tail_groups t3 (<["region"%string := r3]> ∅)) as H3.
      destruct (shortest_span LOCALITY_SUFFIXES t3) as [[m3 rest3]|].
      * destruct H3 as (d & -> & Hl & Hr). cbn [or_else]. exists d.
        split; [reflexivity|]. unfold group_or_empty.
        rewrite Hl, Hr, lookup_insert_eq. split; reflexivity.
      * rewrite H3. cbn [or_else].
        pose proof (locality_tail_groups s ∅) as H0.
        destruct (shortest_span LOCALITY_SUFFIXES s) as [[m0 rest0]|];
          [|exact H0].
        destruct H0 as (d & -> & Hl & Hr). exists d.
        split; [reflexivity|]. unfold group_or_empty.
        rewrite Hl, Hr, lookup_empty. split; reflexivity.
    + cbn [or_else].
      pose proof (locality_tail_groups s ∅) as H0.
      destruct (shortest_span LOCALITY_SUFFIXES s) as [[m0 rest0]|];
        [|exact H0].
      destruct H0 as (d & -> & Hl & Hr). exists d.
      split; [reflexivity|]. unfold group_or_empty.
      rewrite Hl, Hr, lookup_empty. split; reflexivity.
Qed.

Lemma split_japanese_address_refines (s : str) :
  split_japanese_address (Str s)
  = Ok match parse_address s with
       | Some (region, locality) => [region; locality]
       | None => [[]; []]
       end.
Proof.
  destruct s as [|x s]; [reflexivity|].
  unfold split_japanese_address.
  change (py_not (Str (x :: s))) with false. cbv iota.
  pose proof (re_match_address_pattern (x :: s)) as H.
  destruct (parse_address (x :: s)) as [[region locality]|].
  - destruct H as (d & -> & <- & <-). reflexivity.
  - rewrite H. reflexivity.
Qed.

Lemma region_prefix2_shape (s region t : str) :
  region_prefix2 s = Some (region, t) -> s = region ++ t /\ region_shape region.
Proof.
  destruct s as [|x1 [|x2 [|d t']]]; try discriminate. cbn [region_prefix2].
  destruct (N.eqb_spec x1 LF) as [|H1]; [discriminate|].
  destruct (N.eqb_spec x2 LF) as [|H2]; [discriminate|]. cbn [negb andb].
  destruct (bool_decide (d ∈ PREFECTURE_SUFFIXES)) eqn:Hd; [|discriminate].
  intros [= <- <-]. split; [reflexivity|]. right. exists [x1; x2], d.
  split; [reflexivity|]. split; [apply bool_decide_eq_true in Hd; exact Hd|].
  split; [left; reflexivity|].
  intros Hin. apply list_elem_of_In in Hin. destruct Hin as [|[|[]]]; congruence.
Qed.

Lemma region_prefix3_shape (s region t : str) :
  region_prefix3 s = Some (region, t) -> s = region ++ t /\ region_shape region.
Proof.
  destruct s as [|x1 [|x2 [|x3 [|d t']]]]; try discriminate.
  cbn [region_prefix3].
  destruct (N.eqb_spec x1 LF) as [|H1]; [discriminate|].
  destruct (N.eqb_spec x2 LF) as [|H2]; [discriminate|].
  destruct (N.eqb_spec x3 LF) as [|H3]; [discriminate|]. cbn [negb andb].
  destruct (bool_decide (d ∈ PREFECTURE_SUFFIXES)) eqn:Hd; [|discriminate].
  intros [= <- <-]. split; [reflexivity|]. right. exists [x1; x2; x3], d.
  split; [reflexivity|]. split; [apply bool_decide_eq_true in Hd; exact Hd|].
  split; [right; reflexivity|].
  intros Hin. apply list_elem_of_In in Hin.
  destruct Hin as [|[|[|[]]]]; congruence.
Qed.

Lemma locality_after_shape (s region t region' locality : str) :
  s = region ++ t -> region_shape region ->
  locality_after (Some (region, t)) = Some (region', locality) ->
  region' = region /\
  exists rest, s = region ++ locality ++ rest /\ locality_shape locality.
Proof.
  intros -> Hr. cbn [locality_after].
  destruct (shortest_span LOCALITY_SUFFIXES t) as [[m rest]|] eqn:Hs;
    [|discriminate].
  intros [= <- <-]. split; [reflexivity|]. exists rest. split.
  - apply shortest_span_app in Hs. rewrite Hs. reflexivity.
  - eapply shortest_span_shape, Hs.
Qed.

Lemma parse_address_shape (s region locality : str) :
  parse_address s = Some (region, locality) ->
  exists rest, s = region ++ locality ++ rest /\
               region_shape region /\ locality_shape locality.
Proof.
  unfold parse_address.
  destruct (region_prefix2 s) as [[r2 t2]|] eqn:H2.
  - apply region_prefix2_shape in H2 as [E2 S2].
    destruct (locality_after (Some (r2, t2))) as [[r m]|] eqn:L2.
    + cbn [or_else]. intros [= <- <-].
      destruct (locality_after_shape _ _ _ _ _ E2 S2 L2) as (-> & rest & E & Hl).
      eauto.
    + cbn [or_else]. clear L2.
      destruct (region_prefix3 s) as [[r3 t3]|] eqn:H3.
      * apply region_prefix3_shape in H3 as [E3 S3].
        destruct (locality_after (Some (r3, t3))) as [[r m]|] eqn:L3.
        -- cbn [or_else]. intros [= <- <-].
           destruct (locality_after_shape _ _ _ _ _ E3 S3 L3)
             as (-> & rest & E & Hl).
           eauto.
        -- cbn [or_else]. intros L0.
           destruct (locality_after_shape s [] s _ _ eq_refl (or_introl eq_refl) L0)
             as (-> & rest & E & Hl).
           exists rest. split; [exact E|]. split; [left; reflexivity | exact Hl].
      * change (locality_after None) with (@None (str * str)). cbn [or_else]. intros L0.
        destruct (locality_after_shape s [] s _ _ eq_refl (or_introl eq_refl) L0)
          as (-> & rest & E & Hl).
        exists rest. split; [exact E|]. split; [left; reflexivity | exact Hl].
  - change (locality_after None) with (@None (str * str)). cbn [or_else].
    destruct (region_prefix3 s) as [[r3 t3]|] eqn:H3.
    + apply region_prefix3_shape in H3 as [E3 S3].
      destruct (locality_after (Some (r3, t3))) as [[r m]|] eqn:L3.
      * cbn [or_else]. intros [= <- <-].
        destruct (locality_after_shape _ _ _ _ _ E3 S3 L3)
          as (-> & rest & E & Hl).
        eauto.
      * cbn [or_else]. intros L0.
        destruct (locality_after_shape s [] s _ _ eq_refl (or_introl eq_refl) L0)
          as (-> & rest & E & Hl).
        exists rest. split; [exact E|]. split; [left; reflexivity | exact Hl].
    + change (locality_after None) with (@None (str * str)). cbn [or_else]. intros L0.
      destruct (locality_after_shape s [] s _ _ eq_refl (or_introl eq_refl) L0)
        as (-> & rest & E & Hl).
      exists rest. split; [exact E|]. split; [left; reflexivity | exact Hl].
Qed.

(** C7.  The address split.  The address of the scenario parses to an empty
    region and the locality of its first two characters; for every text the
    result is the parse [parse_address] -- an optional region of two or three
    characters and a prefecture-class suffix, then the shortest span that
    ends in a locality-class suffix, the remainder dropped -- and both fields
    are empty when the pattern does not match or there is no address. *)
Theorem split_japanese_address_parse :
  split_japanese_address (Str (u "港区芝公園4-2-8")) = Ok [[]; u "港区"]
  /\ (forall s : str,
        split_japanese_address (Str s)
        = Ok match parse_address s with
             | Some (region, locality) => [region; locality]
             | None => [[]; []]
             end)
  /\ (forall s region locality : str,
        parse_address s = Some (region, locality) ->
        exists rest, s = region ++ locality ++ rest /\
                     region_shape region /\ locality_shape locality)
  /\ (forall s : str,
        re_match address_pattern s = None ->
        split_japanese_address (Str s) = Ok [[]; []])
  /\ split_japanese_address NA = Ok [[]; []].
Proof.
  split; [vm_compute; reflexivity|].
  split; [exact split_japanese_address_refines|].
  split; [exact parse_address_shape|].
  split; [|reflexivity].
  intros s Hs. rewrite split_japanese_address_refines.
  pose proof (re_match_address_pattern s) as H.
  destruct (parse_address s) as [[region locality]|]; [|reflexivity].
  destruct H as (d & Hd & _). congruence.
Qed.

Lemma split_japanese_address_parse_witness :
  parse_address (u "東京都港区芝公園4-2-8") = Some (u "東京都", u "港区") /\
  exists rest,
    u "東京都港区芝公園4-2-8" = u "東京都" ++ u "港区" ++ rest /\
    region_shape (u "東京都") /\ locality_shape (u "港区").
Proof.
  split; [vm_compute; reflexivity|].
  apply (proj1 (proj2 (proj2 split_japanese_address_parse))).
  vm_compute. reflexivity.
Defined.

(** ** Frames: columns and cells *)

Lemma is_prefix_spec (pat s : str) :
  is_prefix pat s = true <-> exists b, s = pat ++ b.
Proof.
  revert s. induction pat as [|p pat IH]; intros s; cbn [is_prefix].
  - split; [eauto | reflexivity].
  - destruct s as [|c s]; [split; [discriminate | intros [b [=]]]|].
    rewrite andb_true_iff, N.eqb_eq, IH. split.
    + intros [-> [b ->]]. eauto.
    + intros [b [= -> ->]]. eauto.
Qed.

Lemma contains_spec (pat s : str) :
  contains pat s = true <-> substring pat s.
Proof.
  unfold substring. induction s as [|c s IH]; cbn [contains].
  - rewrite orb_false_r, is_prefix_spec. split.
    + intros [b Hb]. exists [], b. exact Hb.
    + intros (a & b & H). destruct a; [eauto|discriminate].
  - rewrite orb_true_iff, is_prefix_spec, IH. split.
    + intros [[b Hb]|(a & b & ->)]; [exists [], b; exact Hb|].
      exists (c :: a), b. reflexivity.
    + intros (a & b & H). destruct a as [|c' a]; [left; eauto|].
      right. injection H as -> ->. eauto.
Qed.

Lemma col_index_lookup (name : str) (cols : list str) (j : nat) :
  col_index name cols = Some j -> cols !! j = Some name.
Proof.
  revert j. induction cols as [|c cols IH]; intros j; [discriminate|].
  cbn [col_index]. case_bool_decide as Hc.
  - intros [= <-]. cbn. congruence.
  - destruct (col_index name cols) as [j'|]; [|discriminate].
    intros [= <-]. cbn. apply IH. reflexivity.
Qed.

Lemma col_index_lt (name : str) (cols : list str) (j : nat) :
  col_index name cols = Some j -> (j < length cols)%nat.
Proof. intros H. eapply lookup_lt_Some, col_index_lookup, H. Qed.

Lemma col_index_None (name : str) (cols : list str) :
  col_index name cols = None <-> name ∉ cols.
Proof.
  induction cols as [|c cols IH]; cbn [col_index].
  - split; [intros _ H; inversion H | reflexivity].
  - rewrite not_elem_of_cons. case_bool_decide as Hc.
    + split; [discriminate | intros [H _]; congruence].
    + destruct (col_index name cols) as [j|]; cbn.
      * split; [discriminate|]. intros [_ H]. apply IH in H. discriminate.
      * split; [|reflexivity]. intros _. split; [congruence | apply IH; reflexivity].
Qed.

Lemma col_index_app_l (name : str) (cols more : list str) (j : nat) :
  col_index name cols = Some j -> col_index name (cols ++ more) = Some j.
Proof.
  revert j. induction cols as [|c cols IH]; intros j; [discriminate|].
  cbn [col_index app]. case_bool_decide; [trivial|].
  destruct (col_index name cols) as [j'|]; [|discriminate].
  intros [= <-]. rewrite (IH j' eq_refl). reflexivity.
Qed.

Lemma col_index_app_new (name : str) (cols : list str) :
  col_index name cols = None ->
  col_index name (cols ++ [name]) = Some (length cols).
Proof.
  induction cols as [|c cols IH]; cbn [col_index app length].
  - rewrite bool_decide_eq_true_2 by reflexivity. reflexivity.
  - case_bool_decide; [discriminate|].
    destruct (col_index name cols) as [j'|]; [discriminate|].
    intros _. rewrite IH by reflexivity. reflexivity.
Qed.

Lemma col_index_app_other (name other : str) (cols : list str) :
  other <> name -> col_index other cols = None ->
  col_index other (cols ++ [name]) = None.
Proof.
  intros Hne H. apply col_index_None. apply col_index_None in H.
  rewrite elem_of_app, list_elem_of_singleton. tauto.
Qed.

Lemma has_col_index (name : str) (df : DataFrame) :
  has_col name df = true <-> exists j, col_index name (columns df) = Some j.
Proof.
  unfold has_col. rewrite bool_decide_eq_true.
  destruct (col_index name (columns df)) as [j|] eqn:H.
  - split; [eauto|]. intros _.
    eapply list_elem_of_lookup_2, col_index_lookup, H.
  - apply col_index_None in H. split; [tauto | intros [j [=]]].
Qed.

Lemma rectangular_set_col (name : str) (values : list cell) (df : DataFrame) :
  rectangular df -> rectangular (set_col name values df).
Proof.
  unfold rectangular, set_col. intros H.
  destruct (col_index name (columns df)) as [j|]; cbn [rows columns].
  - revert values. induction H as [|r l Hr _ IH]; intros [|v values];
      cbn [zip_with]; constructor; [|apply IH].
    rewrite length_insert. exact Hr.
  - revert values. induction H as [|r l Hr _ IH]; intros [|v values];
      cbn [zip_with]; constructor; [|apply IH].
    rewrite !length_app, Hr. reflexivity.
Qed.

Lemma set_col_rows_length (name : str) (values : list cell) (df : DataFrame) :
  length (rows df) = length values ->
  length (rows (set_col name values df)) = length (rows df).
Proof.
  intros H. unfold set_col.
  destruct (col_index name (columns df)); cbn [rows];
    rewrite length_zip_with; lia.
Qed.

(** Reading back the column that was just assigned. *)
Lemma cell_at_set_col_eq (name : str) (values : list cell) (df : DataFrame)
    (i : nat) (v : cell) :
  rectangular df -> (i < length (rows df))%nat -> values !! i = Some v ->
  cell_at (set_col name values df) i name = Some v.
Proof.
  intros Hrect Hi Hv. apply lookup_lt_is_Some_2 in Hi as [r Hr].
  assert (Hlen : length r = length (columns df)).
  { eapply Forall_forall in Hrect; [exact Hrect|].
    apply list_elem_of_In. eapply list_elem_of_In, list_elem_of_lookup_2, Hr. }
  unfold cell_at, set_col.
  destruct (col_index name (columns df)) as [j|] eqn:Hj; cbn [columns rows].
  - rewrite Hj. cbn. rewrite lookup_zip_with, Hr, Hv. cbn.
    apply list_lookup_insert_eq. apply col_index_lt in Hj. lia.
  - rewrite (col_index_app_new _ _ Hj). cbn.
    rewrite lookup_zip_with, Hr, Hv. cbn.
    rewrite lookup_app_r by lia. rewrite Hlen, Nat.sub_diag. reflexivity.
Qed.

(** The other columns keep their cells. *)
Lemma cell_at_set_col_ne (name other : str) (values : list cell)
    (df : DataFrame) (i : nat) :
  rectangular df -> other <> name -> length (rows df) = length values ->
  cell_at (set_col name values df) i other = cell_at df i other.
Proof.
  intros Hrect Hne Hlen. unfold cell_at, set_col.
  destruct (col_index name (columns df)) as [j|] eqn:Hj; cbn [columns rows].
  - destruct (col_index other (columns df)) as [j'|] eqn:Hj'; [|reflexivity].
    cbn. rewrite lookup_zip_with.
    destruct (rows df !! i) as [r|] eqn:Hr; [|reflexivity]. cbn.
    destruct (values !! i) as [v|] eqn:Hv.
    + cbn. apply list_lookup_insert_ne. intros ->.
      apply col_index_lookup in Hj, Hj'. congruence.
    + apply lookup_ge_None in Hv. apply lookup_lt_Some in Hr. lia.
  - destruct (col_index other (columns df)) as [j'|] eqn:Hj'.
    + rewrite (col_index_app_l _ _ _ _ Hj'). cbn. rewrite lookup_zip_with.
      destruct (rows df !! i) as [r|] eqn:Hr; [|reflexivity]. cbn.
      destruct (values !! i) as [v|] eqn:Hv.
      * cbn. apply lookup_app_l.
        assert (length r = length (columns df)) as ->.
        { eapply Forall_forall in Hrect; [exact Hrect|].
          apply list_elem_of_In. eapply list_elem_of_In, list_elem_of_lookup_2, Hr. }
        eapply col_index_lt, Hj'.
      * apply lookup_ge_None in Hv. apply lookup_lt_Some in Hr. lia.
    + rewrite (col_index_app_other _ _ _ Hne Hj'). reflexivity.
Qed.

(** A series read from the frame has the frame's cells. *)
Lemma get_col_length (name : str) (df : DataFrame) (col : list cell) :
  get_col name df = Ok col -> length col = length (rows df).
Proof.
  unfold get_col. destruct (col_index name (columns df)); [|discriminate].
  intros [= <-]. apply length_map.
Qed.

Lemma get_col_cell_at (name : str) (df : DataFrame) (col : list cell)
    (i : nat) (c : cell) :
  get_col name df = Ok col -> cell_at df i name = Some c -> col !! i = Some c.
Proof.
  unfold get_col, cell_at.
  destruct (col_index name (columns df)) as [j|]; [|discriminate].
  intros [= <-]. cbn. rewrite list_lookup_fmap.
  destruct (rows df !! i) as [r|]; [|discriminate]. cbn.
  intros ->. reflexivity.
Qed.

Lemma cell_at_row_lt (df : DataFrame) (i : nat) (name : str) (c : cell) :
  cell_at df i name = Some c -> (i < length (rows df))%nat.
Proof.
  unfold cell_at. destruct (col_index name (columns df)); [|discriminate].
  cbn. destruct (rows df !! i) eqn:Hr; [|discriminate].
  intros _. eapply lookup_lt_Some, Hr.
Qed.

Lemma cell_at_has_col (df : DataFrame) (i : nat) (name : str) (c : cell) :
  cell_at df i name = Some c -> exists j, col_index name (columns df) = Some j.
Proof.
  unfold cell_at. destruct (col_index name (columns df)); [eauto|discriminate].
Qed.

(** ** The address repair *)

Lemma existsb_id_false (l : list bool) (i : nat) (b : bool) :
  existsb id l = false -> l !! i = Some b -> b = false.
Proof.
  revert i. induction l as [|x l IH]; intros i; [discriminate|].
  cbn [existsb]. rewrite orb_false_iff. intros [Hx Hl].
  destruct i as [|i]; cbn.
  - intros [= <-]. exact Hx.
  - apply IH, Hl.
Qed.

(** C6.  Address repair.  After lines 203-207, a record whose address text
    does not contain the prefecture's display name holds that name followed
    by the original text, and a record whose address contains the name holds
    its original text. *)
Theorem address_repair (prefecture_name : str) (df df' : DataFrame) :
  regex_literal prefecture_name ->
  rectangular df ->
  resolver_columns_unique df ->
  main_prepend_prefecture prefecture_name df = Ok df' ->
  forall (i : nat) (s : str),
    cell_at df i ADDRESS = Some (Str s) ->
    (~ substring prefecture_name s ->
     cell_at df' i ADDRESS = Some (Str (prefecture_name ++ s)))
    /\ (substring prefecture_name s -> cell_at df' i ADDRESS = Some (Str s)).
Proof.
  intros _ Hrect _ Hrun i s Hcell.
  unfold main_prepend_prefecture in Hrun.
  destruct (get_col ADDRESS df) as [addresses|e] eqn:Hget; [|discriminate].
  rsimpl in Hrun.
  pose proof (get_col_cell_at _ _ _ _ _ Hget Hcell) as Haddr.
  pose proof (cell_at_row_lt _ _ _ _ Hcell) as Hi.
  assert (Hmask : map (lacks_prefecture prefecture_name) addresses !! i
                  = Some (negb (contains prefecture_name s))).
  { rewrite list_lookup_fmap, Haddr. reflexivity. }
  destruct (existsb id (map (lacks_prefecture prefecture_name) addresses))
    eqn:Hany.
  - injection Hrun as <-.
    assert (Hnew : cell_at
                     (set_col ADDRESS
                        (zip_with
                           (fun (selected : bool) x =>
                              if selected then prepend prefecture_name x else x)
                           (map (lacks_prefecture prefecture_name) addresses)
                           addresses) df) i ADDRESS
                   = Some (if negb (contains prefecture_name s)
                           then Str (prefecture_name ++ s) else Str s)).
    { apply cell_at_set_col_eq; [exact Hrect | exact Hi|].
      rewrite lookup_zip_with, Hmask. cbn. rewrite Haddr. cbn.
      destruct (contains prefecture_name s); reflexivity. }
    rewrite Hnew. split; intros Hs.
    + destruct (contains prefecture_name s) eqn:Hc; [|reflexivity].
      apply contains_spec in Hc. contradiction.
    + apply contains_spec in Hs. rewrite Hs. reflexivity.
  - injection Hrun as <-.
    apply (existsb_id_false _ _ _ Hany) in Hmask.
    apply negb_false_iff in Hmask. split; intros Hs.
    + apply contains_spec in Hmask. contradiction.
    + exact Hcell.
Qed.

Lemma address_repair_witness :
  main_prepend_prefecture (u "東京都")
    (mkDataFrame [u "施設名"; ADDRESS]
       [[Str (u "芝病院"); Str (u "東京都港区芝公園4-2-8")];
        [Str (u "八幡医院"); Str (u "市川市八幡1-1")]])
  = Ok (mkDataFrame [u "施設名"; ADDRESS]
          [[Str (u "芝病院"); Str (u "東京都港区芝公園4-2-8")];
           [Str (u "八幡医院"); Str (u "東京都市川市八幡1-1")]])
  /\ cell_at
       (mkDataFrame [u "施設名"; ADDRESS]
          [[Str (u "芝病院"); Str (u "東京都港区芝公園4-2-8")];
           [Str (u "八幡医院"); Str (u "東京都市川市八幡1-1")]])
       1 ADDRESS = Some (Str (u "東京都" ++ u "市川市八幡1-1")).
Proof.
  split; [vm_compute; reflexivity|].
  refine (proj1 (address_repair (u "東京都")
           (mkDataFrame [u "施設名"; ADDRESS]
              [[Str (u "芝病院"); Str (u "東京都港区芝公園4-2-8")];
               [Str (u "八幡医院"); Str (u "市川市八幡1-1")]])
           (mkDataFrame [u "施設名"; ADDRESS]
              [[Str (u "芝病院"); Str (u "東京都港区芝公園4-2-8")];
               [Str (u "八幡医院"); Str (u "東京都市川市八幡1-1")]])
           _ _ _ _ 1%nat (u "市川市八幡1-1") _) _).
  - apply (bool_decide_unpack (regex_literal (u "東京都"))). vm_compute. exact I.
  - repeat constructor.
  - unfold resolver_columns_unique. repeat constructor; vm_compute; lia.
  - vm_compute. reflexivity.
  - vm_compute. reflexivity.
  - intros Hs. apply contains_spec in Hs. vm_compute in Hs. discriminate.
Defined.

(** ** The postal index as loaded *)

Lemma read_csv_field_not_empty (field : str) : read_csv_field field <> Str [].
Proof.
  unfold read_csv_field. case_bool_decide as H; [discriminate|].
  intros [= ->]. apply H. unfold na_values. cbn [map].
  apply list_elem_of_here.
Qed.

Lemma read_csv_field_loaded (field : str) : loaded_field (read_csv_field field).
Proof.
  unfold read_csv_field, loaded_field. case_bool_decide as H; [left; reflexivity|].
  right. exists field. split; [reflexivity|]. intros ->. apply H.
  unfold na_values. cbn [map]. apply list_elem_of_here.
Qed.

(** Every cell of the table that is read is a field of the file or a filler. *)
Lemma read_csv_str_loaded (raw : list (list str)) :
  Forall (Forall loaded_field) (read_csv_str raw).
Proof.
  unfold read_csv_str. cbv zeta. apply Forall_forall. intros row Hrow.
  apply list_elem_of_fmap in Hrow as (line & -> & _).
  apply Forall_app. split.
  - apply Forall_forall. intros c Hc.
    apply list_elem_of_fmap in Hc as (field & -> & _).
    apply read_csv_field_loaded.
  - apply Forall_forall. intros c Hc.
    apply elem_of_replicate in Hc as [-> _]. left. reflexivity.
Qed.

(** Every row of the table that is read has the width of the first line,
    when no line is longer than the first. *)
Lemma read_csv_str_width (raw : list (list str)) (first : list str)
    (row : list cell) :
  head raw = Some first ->
  Forall (fun line => length line <= length first)%nat raw ->
  row ∈ read_csv_str raw -> length row = length first.
Proof.
  intros Hhead Hall Hrow. unfold read_csv_str in Hrow. cbv zeta in Hrow.
  rewrite Hhead in Hrow. cbn [default] in Hrow.
  apply list_elem_of_fmap in Hrow as (line & -> & Hline).
  eapply Forall_forall in Hall; [|exact Hline].
  rewrite length_app, length_map, length_replicate. unfold id.
  cbv beta in Hall. lia.
Qed.

Lemma postal_entry_cells (row : list cell) (k : str) (r l : cell) :
  postal_entry row = Ok (k, (r, l)) ->
  row !! 6%nat = Some r /\ row !! 7%nat = Some l /\
  exists s, row !! 2%nat = Some (Str s) /\ k = strip s.
Proof.
  unfold postal_entry, py_index.
  destruct (row !! 2%nat) as [code|]; [|discriminate]. rsimpl.
  destruct code as [|s|n| |neg]; try discriminate. rsimpl.
  destruct (row !! 6%nat) as [r'|]; [|discriminate]. rsimpl.
  destruct (row !! 7%nat) as [l'|]; [|discriminate]. rsimpl.
  intros [= <- <- <-]. eauto.
Qed.

(** Every entry of the dictionary comes from a row of the table. *)
Lemma postal_to_location_entries (address_df : list (list cell))
    (index : gmap str (cell * cell)) (k : str) (v : cell * cell) :
  postal_to_location address_df = Ok index ->
  index !! k = Some v ->
  exists row, row ∈ address_df /\ postal_entry row = Ok (k, v).
Proof.
  revert index. induction address_df as [|row address_df IH] using rev_ind;
    intros index.
  - intros [= <-]. rewrite lookup_empty. discriminate.
  - unfold postal_to_location. rewrite foldl_app. cbn [foldl].
    fold (postal_to_location address_df).
    destruct (postal_to_location address_df) as [d|e]; [|discriminate].
    rsimpl.
    destruct (postal_entry row) as [[k' v']|e] eqn:He; [|discriminate].
    rsimpl. intros [= <-]. cbn [fst snd].
    destruct (decide (k' = k)) as [->|Hne].
    + rewrite lookup_insert_eq. intros [= <-]. exists row.
      split; [apply elem_of_app; right; apply list_elem_of_here | exact He].
    + rewrite lookup_insert_ne by exact Hne. intros Hk.
      destruct (IH d eq_refl Hk) as (row' & Hin & Hrow').
      exists row'. split; [apply elem_of_app; left; exact Hin | exact Hrow'].
Qed.

Lemma loaded_field_not_empty (c : cell) : loaded_field c -> c <> Str [].
Proof. intros [->|(s & -> & Hs)]; [discriminate|]. intros [= ->]. apply Hs. reflexivity. Qed.

Lemma postal_to_location_full (raw : list (list str))
    (index : gmap str (cell * cell)) :
  postal_to_location (read_csv_str raw) = Ok index -> full_entries index.
Proof.
  intros Hload k r l Hk.
  destruct (postal_to_location_entries _ _ _ _ Hload Hk) as (row & Hin & He).
  apply postal_entry_cells in He as (H6 & H7 & _).
  pose proof (read_csv_str_loaded raw) as Hall.
  eapply Forall_forall in Hall; [|exact Hin].
  split; apply loaded_field_not_empty;
    (eapply Forall_forall; [exact Hall|]);
    eapply list_elem_of_lookup_2; eassumption.
Qed.

(** A load that succeeds has indexed the table that the reader built. *)
Lemma load_postal_to_location_Ok (raw : list (list str))
    (index : gmap str (cell * cell)) :
  load_postal_to_location raw = Ok index ->
  postal_to_location (read_csv_str raw) = Ok index.
Proof.
  unfold load_postal_to_location, read_csv.
  destruct raw as [|first rest]; [discriminate|].
  case_bool_decide; [|discriminate]. rsimpl. auto.
Qed.

Lemma postal2location_settled (index : gmap str (cell * cell))
    (postal_code : cell) (p : cell * cell) :
  full_entries index ->
  postal2location index postal_code = Ok p -> pair_settled p.
Proof.
  intros Hfull. unfold postal2location.
  destruct postal_code as [|s|n| |neg]; try discriminate.
  - intros [= <-]. left. split; reflexivity.
  - destruct (index !! replace_char HYPHEN [] s) as [[r l]|] eqn:Hk.
    + intros [= <-]. right. exact (Hfull _ _ _ Hk).
    + intros [= <-]. left. split; reflexivity.
  - intros [= <-]. left. split; reflexivity.
Qed.

(** ** [apply] and [unzip_pairs] *)

Lemma apply_lookup {A B} (f : A -> result B) (xs : list A) (ys : list B) :
  apply f xs = Ok ys ->
  length ys = length xs /\
  forall i x, xs !! i = Some x -> exists y, ys !! i = Some y /\ f x = Ok y.
Proof.
  revert ys. induction xs as [|x xs IH]; intros ys; cbn [apply].
  - intros [= <-]. split; [reflexivity|]. intros i x H. discriminate.
  - destruct (f x) as [y|e] eqn:Hy; [|discriminate]. rsimpl.
    destruct (apply f xs) as [ys'|e]; [|discriminate]. rsimpl.
    intros [= <-]. destruct (IH ys' eq_refl) as [Hlen Hall].
    split; [cbn [length]; congruence|].
    intros [|i] x'; cbn.
    + intros [= <-]. eauto.
    + apply Hall.
Qed.

Lemma apply_Exc {A B} (f : A -> result B) (xs : list A) (x : A) (e : exn) :
  x ∈ xs -> f x = Exc e -> exists e', apply f xs = Exc e'.
Proof.
  induction 1 as [x xs|x y xs _ IH]; intros He; cbn [apply].
  - rewrite He. eauto.
  - destruct (f y); [|eauto]. rsimpl.
    destruct (IH He) as [e' ->]. eauto.
Qed.

Lemma unzip_pairs_Ok {A} (pairs : list (A * A)) (cols : list A * list A) :
  unzip_pairs pairs = Ok cols -> cols = (map fst pairs, map snd pairs).
Proof. destruct pairs; [discriminate|]. intros [= <-]. reflexivity. Qed.

Lemma cell_at_defined (df : DataFrame) (i : nat) (name : str) :
  rectangular df -> has_col name df = true -> (i < length (rows df))%nat ->
  exists c, cell_at df i name = Some c.
Proof.
  intros Hrect Hcol Hi. apply has_col_index in Hcol as [j Hj].
  apply lookup_lt_is_Some_2 in Hi as [r Hr].
  assert (Hlen : length r = length (columns df)).
  { eapply Forall_forall in Hrect; [exact Hrect|].
    apply list_elem_of_In. eapply list_elem_of_In, list_elem_of_lookup_2, Hr. }
  unfold cell_at. rewrite Hj, Hr. cbn.
  apply lookup_lt_is_Some_2. apply col_index_lt in Hj. lia.
Qed.

Lemma has_col_set_col (name other : str) (values : list cell) (df : DataFrame) :
  has_col other (set_col name values df) = true
  <-> has_col other df = true \/ (other = name).
Proof.
  unfold has_col, set_col. rewrite !bool_decide_eq_true.
  destruct (col_index name (columns df)) as [j|] eqn:Hj; cbn [columns].
  - split; [tauto|]. intros [H| ->]; [exact H|].
    eapply list_elem_of_lookup_2, col_index_lookup, Hj.
  - rewrite elem_of_app, list_elem_of_singleton. tauto.
Qed.

(** ** The steps of the resolver *)

Lemma names_distinct :
  REGION <> LOCALITY /\ REGION <> ADDRESS /\ LOCALITY <> ADDRESS /\
  REGION <> LATITUDE /\ REGION <> LONGITUDE /\
  LOCALITY <> LATITUDE /\ LOCALITY <> LONGITUDE /\
  ADDRESS <> LATITUDE /\ ADDRESS <> LONGITUDE.
Proof. repeat split; vm_compute; discriminate. Qed.

Lemma get_col_has_col (name : str) (df : DataFrame) (col : list cell) :
  get_col name df = Ok col -> has_col name df = true.
Proof.
  unfold get_col. intros H. apply has_col_index.
  destruct (col_index name (columns df)); [eauto|discriminate].
Qed.

Lemma main_prepend_prefecture_has_address (prefecture_name : str)
    (df df2 : DataFrame) :
  main_prepend_prefecture prefecture_name df = Ok df2 ->
  has_col ADDRESS df = true.
Proof.
  unfold main_prepend_prefecture.
  destruct (get_col ADDRESS df) eqn:H; [|discriminate].
  intros _. eapply get_col_has_col, H.
Qed.

(** Step 1 writes the two columns from the settled pairs. *)
Lemma main_postal_lookup_cells (index : gmap str (cell * cell))
    (df df1 : DataFrame) :
  full_entries index -> rectangular df -> has_col POSTAL_CODE df = true ->
  main_postal_lookup index df = Ok df1 ->
  rectangular df1 /\ length (rows df1) = length (rows df) /\
  has_col REGION df1 = true /\ has_col LOCALITY df1 = true /\
  forall i r l,
    cell_at df1 i REGION = Some r -> cell_at df1 i LOCALITY = Some l ->
    pair_settled (r, l).
Proof.
  intros Hfull Hrect Hcol. unfold main_postal_lookup. rewrite Hcol.
  destruct (get_col POSTAL_CODE df) as [codes|e] eqn:Hget; [|discriminate].
  rsimpl.
  destruct (apply _ codes) as [pairs|e] eqn:Happ; [|discriminate]. rsimpl.
  destruct (unzip_pairs pairs) as [cols|e] eqn:Hz; [|discriminate]. rsimpl.
  apply unzip_pairs_Ok in Hz. subst cols. cbn [fst snd]. intros [= <-].
  apply apply_lookup in Happ as [Hlen Hall].
  apply get_col_length in Hget.
  assert (Hl1 : length (rows df) = length (map fst pairs))
    by (rewrite length_map; congruence).
  pose proof (rectangular_set_col REGION (map fst pairs) df Hrect) as Hrect1.
  pose proof (set_col_rows_length REGION _ df Hl1) as Hrows1.
  assert (Hl2 : length (rows (set_col REGION (map fst pairs) df))
                = length (map snd pairs))
    by (rewrite Hrows1, length_map; congruence).
  split; [apply rectangular_set_col, Hrect1|].
  split; [rewrite set_col_rows_length by exact Hl2; exact Hrows1|].
  split; [apply has_col_set_col; left; apply has_col_set_col; right; reflexivity|].
  split; [apply has_col_set_col; right; reflexivity|].
  intros i r l Hr Hl.
  pose proof (cell_at_row_lt _ _ _ _ Hl) as Hi.
  rewrite set_col_rows_length in Hi by exact Hl2. rewrite Hrows1 in Hi.
  destruct (lookup_lt_is_Some_2 pairs i) as [p Hp]; [lia|].
  rewrite cell_at_set_col_ne in Hr
    by (first [exact Hrect1 | exact Hl2 | apply names_distinct]).
  rewrite (cell_at_set_col_eq REGION _ df i p.1 Hrect) in Hr;
    [|lia|rewrite list_lookup_fmap, Hp; reflexivity].
  rewrite (cell_at_set_col_eq LOCALITY _ _ i p.2 Hrect1) in Hl;
    [|lia|rewrite list_lookup_fmap, Hp; reflexivity].
  injection Hr as <-. injection Hl as <-.
  destruct (lookup_lt_is_Some_2 codes i) as [x Hx]; [lia|].
  destruct (Hall i x Hx) as (y & Hy & Hf). rewrite Hp in Hy. injection Hy as <-.
  destruct (notna x).
  - destruct p. eapply postal2location_settled; eauto.
  - injection Hf as <-. left. split; reflexivity.
Qed.

Lemma lat_lon_distinct : LATITUDE <> LONGITUDE /\ POSTAL_CODE <> REGION
                         /\ POSTAL_CODE <> LOCALITY.
Proof. repeat split; vm_compute; discriminate. Qed.

(** Step 1 only writes the region and the municipality. *)
Lemma main_postal_lookup_frame (index : gmap str (cell * cell))
    (df df1 : DataFrame) :
  rectangular df -> main_postal_lookup index df = Ok df1 ->
  rectangular df1 /\ length (rows df1) = length (rows df) /\
  (forall i other, other <> REGION -> other <> LOCALITY ->
                   cell_at df1 i other = cell_at df i other) /\
  (forall other, other <> REGION -> other <> LOCALITY ->
                 has_col other df1 = has_col other df).
Proof.
  intros Hrect. unfold main_postal_lookup.
  destruct (has_col POSTAL_CODE df); [|intros [= <-]; auto].
  destruct (get_col POSTAL_CODE df) as [codes|e] eqn:Hget; [|discriminate].
  rsimpl.
  destruct (apply _ codes) as [pairs|e] eqn:Happ; [|discriminate]. rsimpl.
  destruct (unzip_pairs pairs) as [cols|e] eqn:Hz; [|discriminate]. rsimpl.
  apply unzip_pairs_Ok in Hz. subst cols. cbn [fst snd]. intros [= <-].
  apply apply_lookup in Happ as [Hlen _]. apply get_col_length in Hget.
  assert (Hl1 : length (rows df) = length (map fst pairs))
    by (rewrite length_map; congruence).
  pose proof (rectangular_set_col REGION (map fst pairs) df Hrect) as Hrect1.
  pose proof (set_col_rows_length REGION _ df Hl1) as Hrows1.
  assert (Hl2 : length (rows (set_col REGION (map fst pairs) df))
                = length (map snd pairs))
    by (rewrite Hrows1, length_map; congruence).
  split; [apply rectangular_set_col, Hrect1|].
  split; [rewrite set_col_rows_length by exact Hl2; exact Hrows1|].
  split.
  - intros i other H1 H2. rewrite cell_at_set_col_ne by assumption.
    apply cell_at_set_col_ne; assumption.
  - intros other H1 H2. apply eq_true_iff_eq. rewrite !has_col_set_col. tauto.
Qed.

(** Step 2 only writes the address column. *)
Lemma main_prepend_prefecture_frame (prefecture_name : str)
    (df df2 : DataFrame) :
  rectangular df -> main_prepend_prefecture prefecture_name df = Ok df2 ->
  rectangular df2 /\ length (rows df2) = length (rows df) /\
  forall i other, other <> ADDRESS -> cell_at df2 i other = cell_at df i other.
Proof.
  intros Hrect. unfold main_prepend_prefecture.
  destruct (get_col ADDRESS df) as [addresses|e] eqn:Hget; [|discriminate].
  rsimpl. apply get_col_length in Hget.
  destruct (existsb id _); intros [= <-]; [|auto].
  assert (Hlen : length (rows df)
                 = length (zip_with
                             (fun (selected : bool) x =>
                                if selected then prepend prefecture_name x else x)
                             (map (lacks_prefecture prefecture_name) addresses)
                             addresses))
    by (rewrite length_zip_with, length_map; lia).
  split; [apply rectangular_set_col, Hrect|].
  split; [apply set_col_rows_length, Hlen|].
  intros i other Hne. apply cell_at_set_col_ne; assumption.
Qed.

(** Step 3 only writes the two coordinate columns. *)
Lemma main_geocode_frame (geocode : cell -> geo_response) (df df3 : DataFrame) :
  rectangular df -> main_geocode geocode df = Ok df3 ->
  rectangular df3 /\ length (rows df3) = length (rows df) /\
  forall i other,
    other <> LATITUDE -> other <> LONGITUDE ->
    cell_at df3 i other = cell_at df i other.
Proof.
  intros Hrect. unfold main_geocode.
  destruct (get_col ADDRESS df) as [addresses|e] eqn:Hget; [|discriminate].
  rsimpl.
  destruct (apply _ addresses) as [pairs|e] eqn:Happ; [|discriminate]. rsimpl.
  destruct (unzip_pairs pairs) as [cols|e] eqn:Hz; [|discriminate]. rsimpl.
  apply unzip_pairs_Ok in Hz. subst cols. cbn [fst snd]. intros [= <-].
  apply apply_lookup in Happ as [Hlen _]. apply get_col_length in Hget.
  assert (Hl1 : length (rows df) = length (map fst pairs))
    by (rewrite length_map; congruence).
  pose proof (rectangular_set_col LATITUDE (map fst pairs) df Hrect) as Hrect1.
  pose proof (set_col_rows_length LATITUDE _ df Hl1) as Hrows1.
  assert (Hl2 : length (rows (set_col LATITUDE (map fst pairs) df))
                = length (map snd pairs))
    by (rewrite Hrows1, length_map; congruence).
  split; [apply rectangular_set_col, Hrect1|].
  split; [rewrite set_col_rows_length by exact Hl2; exact Hrows1|].
  intros i other H1 H2.
  rewrite cell_at_set_col_ne by assumption.
  apply cell_at_set_col_ne; assumption.
Qed.

(** [update] on one column: the rows that [other] has a value for take it,
    the other rows and the other columns stay. *)
Lemma update_col_frame (name : str) (other : list (option cell))
    (df df' : DataFrame) :
  rectangular df -> length other = length (rows df) ->
  update_col name other df = Ok df' ->
  rectangular df' /\ length (rows df') = length (rows df) /\
  (forall i o, o <> name -> cell_at df' i o = cell_at df i o) /\
  (forall i c that,
     cell_at df i name = Some c -> other !! i = Some that ->
     cell_at df' i name
     = Some match that with
            | Some v => if notna v then v else c
            | None => c
            end).
Proof.
  intros Hrect Hother. unfold update_col.
  destruct (get_col name df) as [this|e] eqn:Hget; [|discriminate].
  rsimpl. intros [= <-].
  pose proof (get_col_length _ _ _ Hget) as Hthis.
  match goal with |- context [set_col name ?v df] => set (values := v) end.
  assert (Hlen : length (rows df) = length values)
    by (subst values; rewrite length_zip_with; lia).
  split; [apply rectangular_set_col, Hrect|].
  split; [apply set_col_rows_length, Hlen|].
  split; [intros i o Hne; apply cell_at_set_col_ne; assumption|].
  intros i c that Hc Hthat.
  apply cell_at_set_col_eq; [exact Hrect | eapply cell_at_row_lt, Hc|].
  subst values. rewrite lookup_zip_with.
  rewrite (get_col_cell_at _ _ _ _ _ Hget Hc). cbn. rewrite Hthat. reflexivity.
Qed.

(** Step 4, row by row: every column but the region and the municipality
    stays; a row whose region and municipality are both non-empty stays; a
    row in which either is the empty text takes both from the parse of its
    address. *)
Lemma main_fill_from_address_frame (df df4 : DataFrame) :
  rectangular df -> main_fill_from_address df = Ok df4 ->
  (forall i other,
     other <> REGION -> other <> LOCALITY ->
     cell_at df4 i other = cell_at df i other) /\
  (forall i r l,
     cell_at df i REGION = Some r -> cell_at df i LOCALITY = Some l ->
     r <> Str [] -> l <> Str [] ->
     cell_at df4 i REGION = Some r /\ cell_at df4 i LOCALITY = Some l) /\
  (forall i r l x region locality,
     cell_at df i REGION = Some r -> cell_at df i LOCALITY = Some l ->
     cell_at df i ADDRESS = Some x ->
     r = Str [] \/ l = Str [] ->
     split_japanese_address x = Ok [region; locality] ->
     cell_at df4 i REGION = Some (Str region) /\
     cell_at df4 i LOCALITY = Some (Str locality)).
Proof.
  intros Hrect. unfold main_fill_from_address.
  destruct (get_col REGION df) as [regions|e] eqn:Hreg; [|discriminate].
  rsimpl.
  destruct (get_col LOCALITY df) as [localities|e] eqn:Hloc; [|discriminate].
  rsimpl.
  set (mask := zip_with (fun r l => cell_is [] r || cell_is [] l)
                 regions localities).
  assert (Hmask_at : forall i r l,
             cell_at df i REGION = Some r -> cell_at df i LOCALITY = Some l ->
             mask !! i = Some (cell_is [] r || cell_is [] l)).
  { intros i r l Hr Hl. subst mask. rewrite lookup_zip_with.
    rewrite (get_col_cell_at _ _ _ _ _ Hreg Hr). cbn.
    rewrite (get_col_cell_at _ _ _ _ _ Hloc Hl). reflexivity. }
  destruct (existsb id mask) eqn:Hany.
  2:{ intros [= <-]. split; [auto|]. split; [auto|].
      intros i r l x region locality Hr Hl _ Hempty _. exfalso.
      pose proof (existsb_id_false _ _ _ Hany (Hmask_at i r l Hr Hl)) as Hf.
      apply orb_false_iff in Hf as [Hf1 Hf2]. unfold cell_is in Hf1, Hf2.
      apply bool_decide_eq_false in Hf1, Hf2. tauto. }
  destruct (get_col ADDRESS df) as [addresses|e] eqn:Haddr; [|discriminate].
  rsimpl.
  destruct (apply _ (zip mask addresses)) as [region_locality|e] eqn:Happ;
    [|discriminate].
  rsimpl.
  match goal with
  | |- context [update_col REGION ?o df] => set (other1 := o)
  end.
  destruct (update_col REGION other1 df) as [df'|e] eqn:Hu1; [|discriminate].
  rsimpl.
  match goal with
  | |- context [update_col LOCALITY ?o df'] => set (other2 := o)
  end.
  intros Hu2.
  pose proof (get_col_length _ _ _ Haddr) as Hladdr.
  pose proof (get_col_length _ _ _ Hreg) as Hlreg.
  pose proof (get_col_length _ _ _ Hloc) as Hlloc.
  assert (Hmask : length mask = length (rows df))
    by (subst mask; rewrite length_zip_with; lia).
  apply apply_lookup in Happ as [Hlen Hall].
  rewrite length_zip in Hlen.
  assert (Ho1 : length other1 = length (rows df))
    by (subst other1; rewrite length_map; lia).
  destruct (update_col_frame _ _ _ _ Hrect Ho1 Hu1)
    as (Hrect' & Hrows' & Hne1 & Heq1).
  assert (Ho2 : length other2 = length (rows df'))
    by (subst other2; rewrite length_map; lia).
  destruct (update_col_frame _ _ _ _ Hrect' Ho2 Hu2)
    as (_ & _ & Hne2 & Heq2).
  split; [|split].
  - intros i other H1 H2. rewrite Hne2 by exact H2. apply Hne1, H1.
  - intros i r l Hr Hl Hr0 Hl0.
    pose proof (cell_at_row_lt _ _ _ _ Hr) as Hi.
    pose proof (Hmask_at i r l Hr Hl) as Hm.
    unfold cell_is in Hm. rewrite !bool_decide_eq_false_2 in Hm by assumption.
    destruct (lookup_lt_is_Some_2 addresses i) as [x Hx]; [lia|].
    destruct (Hall i (false, x)) as (y & Hy & Hf).
    { rewrite lookup_zip_with, Hm. cbn. rewrite Hx. reflexivity. }
    cbn [fst] in Hf. injection Hf as <-.
    assert (H1 : other1 !! i = Some None)
      by (subst other1; rewrite list_lookup_fmap, Hy; reflexivity).
    assert (H2 : other2 !! i = Some None)
      by (subst other2; rewrite list_lookup_fmap, Hy; reflexivity).
    split.
    + rewrite Hne2 by apply names_distinct.
      exact (Heq1 i r None Hr H1).
    + apply (Heq2 i l None); [|exact H2].
      rewrite Hne1 by (apply not_eq_sym, names_distinct). exact Hl.
  - intros i r l x region locality Hr Hl Hx Hempty Hsplit.
    pose proof (Hmask_at i r l Hr Hl) as Hm.
    assert (Hsel : cell_is [] r || cell_is [] l = true).
    { unfold cell_is. destruct Hempty as [-> | ->];
        rewrite (bool_decide_eq_true_2 (Str [] = Str [])) by reflexivity;
        [reflexivity | apply orb_true_r]. }
    rewrite Hsel in Hm.
    destruct (Hall i (true, x)) as (y & Hy & Hf).
    { rewrite lookup_zip_with, Hm. cbn.
      rewrite (get_col_cell_at _ _ _ _ _ Haddr Hx). reflexivity. }
    cbn [fst snd] in Hf. rewrite Hsplit in Hf. cbn in Hf. injection Hf as <-.
    assert (H1 : other1 !! i = Some (Some (Str region)))
      by (subst other1; rewrite list_lookup_fmap, Hy; reflexivity).
    assert (H2 : other2 !! i = Some (Some (Str locality)))
      by (subst other2; rewrite list_lookup_fmap, Hy; reflexivity).
    split.
    + rewrite Hne2 by apply names_distinct.
      exact (Heq1 i r (Some (Str region)) Hr H1).
    + apply (Heq2 i l (Some (Str locality))); [|exact H2].
      rewrite Hne1 by (apply not_eq_sym, names_distinct). exact Hl.
Qed.

(** With the postal table as [pd.read_csv] loads it, the region and the
    municipality of a record reach step 4 as step 1 left them: both the
    empty text, or neither. *)
Lemma postal_pairs_reach_step4 (geocode : cell -> geo_response)
    (prefecture_name : str) (raw : list (list str))
    (index : gmap str (cell * cell)) (df df1 df2 df3 : DataFrame) :
  postal_to_location (read_csv_str raw) = Ok index ->
  rectangular df ->
  has_col POSTAL_CODE df = true ->
  main_postal_lookup index df = Ok df1 ->
  main_prepend_prefecture prefecture_name df1 = Ok df2 ->
  main_geocode geocode df2 = Ok df3 ->
  rectangular df3
  /\ (forall i name, name = REGION \/ name = LOCALITY ->
                     cell_at df3 i name = cell_at df1 i name)
  /\ (forall i r l,
        cell_at df3 i REGION = Some r -> cell_at df3 i LOCALITY = Some l ->
        pair_settled (r, l))
  /\ (forall i c name, name = REGION \/ name = LOCALITY ->
        cell_at df3 i name = Some c ->
        exists r l, cell_at df3 i REGION = Some r /\
                    cell_at df3 i LOCALITY = Some l).
Proof.
  intros Hload Hrect Hcol H1 H2 H3.
  apply postal_to_location_full in Hload.
  destruct (main_postal_lookup_cells _ _ _ Hload Hrect Hcol H1)
    as (Hrect1 & Hrows1 & HcolR & HcolL & Hpairs).
  destruct (main_prepend_prefecture_frame _ _ _ Hrect1 H2)
    as (Hrect2 & Hrows2 & Hsame2).
  destruct (main_geocode_frame _ _ _ Hrect2 H3) as (Hrect3 & Hrows3 & Hsame3).
  assert (Hsame : forall i name, name = REGION \/ name = LOCALITY ->
                    cell_at df3 i name = cell_at df1 i name).
  { intros i name [-> | ->]; rewrite Hsame3, Hsame2 by apply names_distinct;
      reflexivity. }
  split; [exact Hrect3|]. split; [exact Hsame|]. split.
  - intros i r l Hr Hl. rewrite Hsame in Hr, Hl by auto.
    exact (Hpairs i r l Hr Hl).
  - intros i c name Hname Hc. rewrite Hsame in Hc by exact Hname.
    pose proof (cell_at_row_lt _ _ _ _ Hc) as Hi.
    destruct (cell_at_defined df1 i REGION Hrect1 HcolR Hi) as [r Hr].
    destruct (cell_at_defined df1 i LOCALITY Hrect1 HcolL Hi) as [l Hl].
    exists r, l. rewrite !Hsame by auto. auto.
Qed.

(** C1.  The partial update of step 4, in a run of the resolver on a table
    that has a postal-code column, with the postal table as [pd.read_csv]
    loads it.  A region that is not the empty text after step 1 is the
    region of that record before and after step 4.  Step 4 changes a region
    or a municipality only where it is the empty text, and it changes no
    other column: it never rewrites a whole row. *)
Theorem gap_fill_row_update (geocode : cell -> geo_response)
    (prefecture_name : str) (raw : list (list str))
    (index : gmap str (cell * cell)) (df df1 df2 df3 df4 : DataFrame) :
  load_postal_to_location raw = Ok index ->
  regex_literal prefecture_name ->
  rectangular df -> resolver_columns_unique df ->
  has_col POSTAL_CODE df = true ->
  main_postal_lookup index df = Ok df1 ->
  main_prepend_prefecture prefecture_name df1 = Ok df2 ->
  main_geocode geocode df2 = Ok df3 ->
  main_fill_from_address df3 = Ok df4 ->
  (forall (i : nat) (r : cell),
     cell_at df1 i REGION = Some r -> r <> Str [] ->
     cell_at df3 i REGION = Some r /\ cell_at df4 i REGION = Some r)
  /\ (forall (i : nat) (name : str) (c : cell),
        name = REGION \/ name = LOCALITY ->
        cell_at df3 i name = Some c -> c <> Str [] ->
        cell_at df4 i name = Some c)
  /\ (forall (i : nat) (other : str),
        other <> REGION -> other <> LOCALITY ->
        cell_at df4 i other = cell_at df3 i other)
  /\ resolve geocode index prefecture_name df = Ok df4.
Proof.
  intros Hload _ Hrect _ Hcol H1 H2 H3 H4.
  apply load_postal_to_location_Ok in Hload.
  assert (Hres : resolve geocode index prefecture_name df = Ok df4).
  { unfold resolve. rewrite H1. rsimpl.
    rewrite (main_prepend_prefecture_has_address _ _ _ H2), H2. rsimpl.
    rewrite H3. rsimpl. exact H4. }
  destruct (postal_pairs_reach_step4 geocode prefecture_name raw index
              df df1 df2 df3 Hload Hrect Hcol H1 H2 H3)
    as (Hrect3 & Hsame & Hpairs & Hboth).
  destruct (main_fill_from_address_frame _ _ Hrect3 H4) as (Hother & Hkeep & _).
  assert (Hfill : forall i name c,
            name = REGION \/ name = LOCALITY ->
            cell_at df3 i name = Some c -> c <> Str [] ->
            cell_at df4 i name = Some c).
  { intros i name c Hname Hc Hc0.
    destruct (Hboth i c name Hname Hc) as (r & l & Hr & Hl).
    assert (Hset : r <> Str [] /\ l <> Str []).
    { destruct (Hpairs i r l Hr Hl) as [[Er El]|[Er El]]; [|auto].
      cbn [fst snd] in Er, El. exfalso. apply Hc0.
      destruct Hname as [-> | ->]; congruence. }
    destruct (Hkeep i r l Hr Hl (proj1 Hset) (proj2 Hset)) as [HR HL].
    destruct Hname as [-> | ->]; congruence. }
  split; [|split; [exact Hfill | split; [exact Hother | exact Hres]]].
  intros i r Hr Hr0. rewrite <- (Hsame i REGION) in Hr by auto.
  split; [exact Hr|]. apply (Hfill i REGION r); auto.
Qed.

(** *** A run of the resolver on two records *)

Example demo_df4_rows :
  demo_df4
  = mkDataFrame
      [u "施設名"; POSTAL_CODE; ADDRESS; REGION; LOCALITY; LATITUDE; LONGITUDE]
      [[Str (u "千代田病院"); Str (u "100-0001");
        Str (u "東京都千代田区千代田1-1"); Str (u "東京都"); Str (u "千代田区");
        Num 35658000; Num 139745000];
       [Str (u "芝病院"); Str (u "999-9999"); Str (u "東京都港区芝公園4-2-8");
        Str (u "東京都"); Str (u "港区"); Num 35658000; Num 139745000]].
Proof. vm_compute. reflexivity. Qed.

Lemma gap_fill_row_update_witness :
  cell_at demo_df1 0 REGION = Some (Str (u "東京都"))
  /\ cell_at demo_df3 0 REGION = Some (Str (u "東京都"))
  /\ cell_at demo_df4 0 REGION = Some (Str (u "東京都")).
Proof.
  split; [vm_compute; reflexivity|].
  refine (proj1 (gap_fill_row_update demo_geocode (u "東京都")
                   demo_postal_csv demo_index
                   demo_df demo_df1 demo_df2 demo_df3 demo_df4
                   _ _ _ _ _ _ _ _ _)
            0%nat (Str (u "東京都")) _ _).
  - vm_compute. reflexivity.
  - apply (bool_decide_unpack (regex_literal (u "東京都"))). vm_compute. exact I.
  - repeat constructor.
  - unfold resolver_columns_unique. repeat constructor; vm_compute; lia.
  - vm_compute. reflexivity.
  - vm_compute. reflexivity.
  - vm_compute. reflexivity.
  - vm_compute. reflexivity.
  - vm_compute. reflexivity.
  - vm_compute. reflexivity.
  - vm_compute. discriminate.
Defined.

(** Where step 1 does not run -- a document without a postal-code column that
    brings its own region and municipality columns -- step 4 sees what the
    document has, and its filter is by row: a record whose region is filled
    and whose municipality is empty gets both fields from the parse of its
    address. *)
Example gap_fill_without_postal_lookup :
  has_col POSTAL_CODE region_only_df = false
  /\ cell_at region_only_df 0 REGION = Some (Str (u "東京都"))
  /\ main_fill_from_address region_only_df
     = Ok (mkDataFrame [u "施設名"; ADDRESS; REGION; LOCALITY]
             [[Str (u "千代田医院"); Str (u "東京都千代田1-1"); Str []; Str []]]).
Proof. repeat split; vm_compute; reflexivity. Qed.

(** ** Sample runs of the driver *)

Lemma no_table_skips_prefecture_witness :
  Forall (fun e => writes_csv 2 e = false)
    (main (sample_world short_page demo_geocode) no_index
       sample_prefectures.1 ([u "tokyo"] ++ u "kanagawa" :: [u "niigata"])).
Proof.
  refine (proj2 (no_table_skips_prefecture
                   (sample_world short_page demo_geocode) no_index
                   sample_prefectures.1 [u "tokyo"] [u "niigata"] (u "kanagawa")
                   (u "list.pdf") [] (Some [[Some (u "only")]]) [] _ _ _)).
  - reflexivity.
  - reflexivity.
  - cbn. lia.
Defined.

(** ** Geocoding failures *)

(** What step 2 leaves in the address of one record. *)
Lemma main_prepend_prefecture_cell (prefecture_name : str)
    (df df2 : DataFrame) (i : nat) (x : cell) :
  rectangular df -> main_prepend_prefecture prefecture_name df = Ok df2 ->
  cell_at df i ADDRESS = Some x ->
  cell_at df2 i ADDRESS = Some (repaired prefecture_name x).
Proof.
  intros Hrect Hrun Hcell. unfold main_prepend_prefecture in Hrun.
  destruct (get_col ADDRESS df) as [addresses|e] eqn:Hget; [|discriminate].
  rsimpl in Hrun.
  pose proof (get_col_cell_at _ _ _ _ _ Hget Hcell) as Haddr.
  pose proof (cell_at_row_lt _ _ _ _ Hcell) as Hi.
  assert (Hmask : map (lacks_prefecture prefecture_name) addresses !! i
                  = Some (lacks_prefecture prefecture_name x)).
  { rewrite list_lookup_fmap, Haddr. reflexivity. }
  unfold repaired.
  destruct (existsb id (map (lacks_prefecture prefecture_name) addresses))
    eqn:Hany; injection Hrun as <-.
  - apply cell_at_set_col_eq; [exact Hrect | exact Hi|].
    rewrite lookup_zip_with, Hmask. cbn. rewrite Haddr. reflexivity.
  - apply (existsb_id_false _ _ _ Hany) in Hmask. rewrite Hmask. exact Hcell.
Qed.

(** What step 3 writes for one record. *)
Lemma main_geocode_cells (geocode : cell -> geo_response)
    (df df3 : DataFrame) (i : nat) (x : cell) :
  rectangular df -> main_geocode geocode df = Ok df3 ->
  cell_at df i ADDRESS = Some x ->
  exists p,
    (if notna x then address_to_coordinates geocode x
     else Ok (Str (u "0"), Str (u "0"))) = Ok p /\
    cell_at df3 i LATITUDE = Some p.1 /\ cell_at df3 i LONGITUDE = Some p.2.
Proof.
  intros Hrect Hrun Hx. unfold main_geocode in Hrun.
  destruct (get_col ADDRESS df) as [addresses|e] eqn:Hget; [|discriminate].
  rsimpl in Hrun.
  destruct (apply _ addresses) as [pairs|e] eqn:Happ; [|discriminate].
  rsimpl in Hrun.
  destruct (unzip_pairs pairs) as [cols|e] eqn:Hz; [|discriminate].
  rsimpl in Hrun. apply unzip_pairs_Ok in Hz. subst cols.
  cbn [fst snd] in Hrun. injection Hrun as <-.
  apply apply_lookup in Happ as [Hlen Hall].
  pose proof (get_col_cell_at _ _ _ _ _ Hget Hx) as Hi.
  apply get_col_length in Hget.
  destruct (Hall i x Hi) as (p & Hp & Hf). exists p. split; [exact Hf|].
  pose proof (cell_at_row_lt _ _ _ _ Hx) as Hlt.
  assert (Hl1 : length (rows df) = length (map fst pairs))
    by (rewrite length_map; congruence).
  pose proof (rectangular_set_col LATITUDE (map fst pairs) df Hrect) as Hrect1.
  pose proof (set_col_rows_length LATITUDE _ df Hl1) as Hrows1.
  assert (Hl2 : length (rows (set_col LATITUDE (map fst pairs) df))
                = length (map snd pairs))
    by (rewrite Hrows1, length_map; congruence).
  split.
  - rewrite cell_at_set_col_ne
      by (first [exact Hrect1 | exact Hl2 | apply lat_lon_distinct]).
    apply cell_at_set_col_eq; [exact Hrect | exact Hlt|].
    rewrite list_lookup_fmap, Hp. reflexivity.
  - apply cell_at_set_col_eq; [exact Hrect1 | lia|].
    rewrite list_lookup_fmap, Hp. reflexivity.
Qed.

(** Step 2 leaves a text where there was one, and a missing address
    missing. *)
Lemma repaired_text (prefecture_name s : str) :
  repaired prefecture_name (Str s)
  = Str (if contains prefecture_name s then s else prefecture_name ++ s).
Proof.
  unfold repaired. cbn [lacks_prefecture prepend].
  destruct (contains prefecture_name s); reflexivity.
Qed.

Lemma repaired_missing (prefecture_name : str) (x : cell) :
  notna x = false -> repaired prefecture_name x = x.
Proof. destruct x; try discriminate; reflexivity. Qed.

(** An exception of the per-record call leaves the resolver. *)
Lemma resolve_geocode_raises (geocode : cell -> geo_response)
    (index : gmap str (cell * cell)) (prefecture_name : str)
    (df df1 df2 : DataFrame) (addresses : list cell) (x : cell) (e : exn) :
  main_postal_lookup index df = Ok df1 ->
  main_prepend_prefecture prefecture_name df1 = Ok df2 ->
  get_col ADDRESS df2 = Ok addresses ->
  x ∈ addresses -> notna x = true ->
  address_to_coordinates geocode x = Exc e ->
  exists e', resolve geocode index prefecture_name df = Exc e'.
Proof.
  intros H1 H2 Hget Hx Hna He. unfold resolve. rewrite H1. rsimpl.
  rewrite (main_prepend_prefecture_has_address _ _ _ H2), H2. rsimpl.
  unfold main_geocode. rewrite Hget. rsimpl.
  destruct (apply_Exc
              (fun x => if notna x then address_to_coordinates geocode x
                        else Ok (Str (u "0"), Str (u "0")))
              addresses x e Hx) as [e' ->]; [rewrite Hna; exact He|].
  eauto.
Qed.

(** The same, from the record as step 1 left it. *)
Lemma resolve_record_raises (geocode : cell -> geo_response)
    (index : gmap str (cell * cell)) (prefecture_name : str)
    (df df1 : DataFrame) (i : nat) (s : str) (e : exn) :
  rectangular df1 ->
  main_postal_lookup index df = Ok df1 ->
  cell_at df1 i ADDRESS = Some (Str s) ->
  address_to_coordinates geocode (repaired prefecture_name (Str s)) = Exc e ->
  exists e', resolve geocode index prefecture_name df = Exc e'.
Proof.
  intros Hrect H1 Hcell He.
  assert (Hcol : has_col ADDRESS df1 = true).
  { apply cell_at_has_col in Hcell. apply has_col_index. exact Hcell. }
  destruct (main_prepend_prefecture prefecture_name df1) as [df2|e2] eqn:H2.
  2:{ exists e2. unfold resolve. rewrite H1. rsimpl. rewrite Hcol, H2.
      reflexivity. }
  pose proof (main_prepend_prefecture_cell _ _ _ _ _ Hrect H2 Hcell) as Hcell2.
  destruct (get_col ADDRESS df2) as [addresses|eg] eqn:Hget.
  - eapply (resolve_geocode_raises geocode index prefecture_name df df1 df2
              addresses (repaired prefecture_name (Str s)) e); try eassumption.
    + eapply list_elem_of_lookup_2, get_col_cell_at; eassumption.
    + rewrite repaired_text. reflexivity.
  - exists eg. unfold resolve. rewrite H1. rsimpl. rewrite Hcol, H2. rsimpl.
    unfold main_geocode. rewrite Hget. reflexivity.
Qed.

(** A request without answer, and a 200 answer that cannot be read, make the
    per-record call raise. *)
Lemma address_to_coordinates_parse_failure (geocode : cell -> geo_response)
    (address : cell) (body : xml_body) :
  py_not address = false ->
  geocode address = Response 200 body ->
  parse_fails body ->
  exists e, address_to_coordinates geocode address = Exc e.
Proof.
  intros Ha Hg Hb. unfold address_to_coordinates.
  rewrite Ha, Hg, bool_decide_eq_true_2 by reflexivity.
  destruct body as [|lon lat]; [eauto|]. cbn [parse_fails] in Hb.
  destruct Hb as [[-> | ->]|[-> | ->]]; cbn [read_node]; rsimpl; eauto;
    destruct (read_node lon); rsimpl; eauto.
Qed.

(** C3, as the program has it, record by record.  In a document whose
    records are all geocoded without an exception: a record whose address is
    missing gets the two texts 0, whatever the service is; a record whose
    request is answered with a status other than 200 gets (0, 0); and every
    record with an address text gets what [address_to_coordinates] returns
    for its own address as step 2 left it -- the empty text has by then
    become the prefecture's name and is geocoded like any other text.  A
    request without answer, and a 200 answer that cannot be read, raise: the
    exception leaves the resolver, that prefecture's turn ends with the
    error printed and no file, and the run goes on with the prefectures
    after it. *)
Theorem geocoding_failures (w : world) (index : gmap str (cell * cell))
    (prefectures : gmap str str) :
  (forall (prefecture_name : str) (df1 df2 df3 : DataFrame),
     regex_literal prefecture_name ->
     rectangular df1 -> resolver_columns_unique df1 ->
     main_prepend_prefecture prefecture_name df1 = Ok df2 ->
     main_geocode (geocoder w) df2 = Ok df3 ->
     (forall (i : nat) (x : cell),
        cell_at df1 i ADDRESS = Some x -> notna x = false ->
        cell_at df3 i LATITUDE = Some (Str (u "0")) /\
        cell_at df3 i LONGITUDE = Some (Str (u "0")))
     /\ (forall (i : nat) (s : str) (status_code : Z) (body : xml_body),
           cell_at df1 i ADDRESS = Some (Str s) ->
           geocoder w (repaired prefecture_name (Str s))
           = Response status_code body ->
           status_code <> 200%Z ->
           cell_at df3 i LATITUDE = Some (Num 0) /\
           cell_at df3 i LONGITUDE = Some (Num 0))
     /\ (forall (i : nat) (s : str),
           cell_at df1 i ADDRESS = Some (Str s) ->
           exists latitude longitude,
             address_to_coordinates (geocoder w)
               (repaired prefecture_name (Str s))
             = Ok (latitude, longitude) /\
             cell_at df3 i LATITUDE = Some latitude /\
             cell_at df3 i LONGITUDE = Some longitude)
     /\ (forall (i : nat) (x : cell),
           cell_at df1 i ADDRESS = Some x ->
           cell_at df2 i ADDRESS = Some (repaired prefecture_name x))
     /\ (prefecture_name <> [] ->
         repaired prefecture_name (Str []) = Str prefecture_name))
  /\ (forall (before after : list str) (prefecture file : str)
             (files : list str) (pages : list (option RawTableGrid))
             (df df1 : DataFrame) (k : nat) (s : str),
        let i := S (length before) in
        let prefecture_name := get_prefecture_name prefectures prefecture in
        listdir w i = Ok (file :: files) ->
        pdf_open w i file = Ok pages ->
        assemble pages prefecture_name = Ok (Some df) ->
        regex_literal prefecture_name ->
        rectangular df -> resolver_columns_unique df ->
        main_postal_lookup index df = Ok df1 ->
        cell_at df1 k ADDRESS = Some (Str s) ->
        repaired prefecture_name (Str s) <> Str [] ->
        geocoder w (repaired prefecture_name (Str s)) = NoResponse \/
        (exists body,
           geocoder w (repaired prefecture_name (Str s)) = Response 200 body /\
           parse_fails body) ->
        exists e,
          main w index prefectures (before ++ prefecture :: after)
          = main w index prefectures before
            ++ [Print (PrefectureNumber i prefecture_name prefecture);
                Print (Error e)]
            ++ main_from w index prefectures (S i) after
          /\ Forall (fun ev => writes_csv i ev = false)
               (main w index prefectures (before ++ prefecture :: after))).
Proof.
  split.
  - intros prefecture_name df1 df2 df3 _ Hrect _ H2 H3.
    destruct (main_prepend_prefecture_frame _ _ _ Hrect H2) as (Hrect2 & _ & _).
    assert (Hrec : forall i x,
              cell_at df1 i ADDRESS = Some x ->
              exists p,
                (if notna (repaired prefecture_name x)
                 then address_to_coordinates (geocoder w)
                        (repaired prefecture_name x)
                 else Ok (Str (u "0"), Str (u "0"))) = Ok p /\
                cell_at df3 i LATITUDE = Some p.1 /\
                cell_at df3 i LONGITUDE = Some p.2).
    { intros i x Hx. eapply main_geocode_cells; [exact Hrect2 | exact H3|].
      exact (main_prepend_prefecture_cell _ _ _ _ _ Hrect H2 Hx). }
    split; [|split; [|split; [|split]]].
    + intros i x Hx Hna. destruct (Hrec i x Hx) as (p & Hp & Hlat & Hlon).
      rewrite (repaired_missing _ _ Hna), Hna in Hp. injection Hp as <-. auto.
    + intros i s status_code body Hx Hg Hs.
      destruct (Hrec i _ Hx) as (p & Hp & Hlat & Hlon).
      rewrite repaired_text in Hp, Hg. cbn [notna] in Hp.
      unfold address_to_coordinates in Hp.
      destruct (py_not _) in Hp.
      * injection Hp as <-. auto.
      * rewrite Hg, bool_decide_eq_false_2 in Hp by exact Hs.
        injection Hp as <-. auto.
    + intros i s Hx. destruct (Hrec i _ Hx) as ([lat lon] & Hp & Hlat & Hlon).
      rewrite repaired_text in Hp. cbn [notna] in Hp.
      rewrite repaired_text. eauto.
    + intros i x Hx. exact (main_prepend_prefecture_cell _ _ _ _ _ Hrect H2 Hx).
    + intros Hname. rewrite repaired_text.
      destruct prefecture_name as [|c name]; [contradiction|].
      cbn [contains is_prefix orb]. rewrite app_nil_r. reflexivity.
  - intros before after prefecture file files pages df df1 k s i prefecture_name
      Hl Hp Ha _ Hrect _ H1 Hx Hne Hfail.
    assert (Hnot : py_not (repaired prefecture_name (Str s)) = false).
    { rewrite repaired_text in Hne |- *. cbn [py_not].
      apply bool_decide_eq_false_2. congruence. }
    assert (Hcall : exists e,
              address_to_coordinates (geocoder w)
                (repaired prefecture_name (Str s)) = Exc e).
    { destruct Hfail as [Hg|(body & Hg & Hb)].
      - exists ConnectionError. unfold address_to_coordinates.
        rewrite Hnot, Hg. reflexivity.
      - eapply address_to_coordinates_parse_failure; eassumption. }
    destruct Hcall as [e0 He0].
    assert (Hrect1 : rectangular df1)
      by apply (main_postal_lookup_frame index df df1 Hrect H1).
    destruct (resolve_record_raises _ index prefecture_name df df1 k s e0
                Hrect1 H1 Hx He0) as [e He].
    assert (Hit : main_iteration w index prefectures i prefecture
                  = [Print (PrefectureNumber i prefecture_name prefecture);
                     Print (Error e)]).
    { apply main_iteration_Exc. fold prefecture_name.
      unfold try_prefecture. rewrite Hl. rsimpl.
      cbn [py_index lookup list_lookup]. rsimpl. rewrite Hp. rsimpl.
      rewrite Ha. rsimpl. rewrite He. reflexivity. }
    exists e. split.
    + rewrite main_split_at. fold i. rewrite Hit. reflexivity.
    + apply main_no_write. fold i. rewrite Hit. repeat constructor.
Qed.

Lemma geocoding_failures_witness :
  (cell_at gaps_df3 1 LATITUDE = Some (Str (u "0"))
   /\ cell_at gaps_df3 1 LONGITUDE = Some (Str (u "0")))
  /\ (cell_at gaps_df3 0 LATITUDE = Some (Num 0)
      /\ cell_at gaps_df3 0 LONGITUDE = Some (Num 0))
  /\ exists e,
       main (sample_world postal_page no_candidate_geocode) no_index
         sample_prefectures.1 ([] ++ u "tokyo" :: [u "kanagawa"])
       = main (sample_world postal_page no_candidate_geocode) no_index
           sample_prefectures.1 []
         ++ [Print (PrefectureNumber 1 (u "東京都") (u "tokyo"));
             Print (Error e)]
         ++ main_from (sample_world postal_page no_candidate_geocode) no_index
              sample_prefectures.1 2 [u "kanagawa"]
       /\ Forall (fun ev => writes_csv 1 ev = false)
            (main (sample_world postal_page no_candidate_geocode) no_index
               sample_prefectures.1 ([] ++ u "tokyo" :: [u "kanagawa"])).
Proof.
  pose proof (proj1 (geocoding_failures
                       (sample_world postal_page unavailable_geocode) no_index
                       sample_prefectures.1)
                (u "東京都") gaps_df gaps_df2 gaps_df3) as Hrec.
  destruct Hrec as (Hmissing & Hstatus & _ & _ & _).
  - apply (bool_decide_unpack (regex_literal (u "東京都"))). vm_compute. exact I.
  - repeat constructor.
  - unfold resolver_columns_unique. repeat constructor; vm_compute; lia.
  - vm_compute. reflexivity.
  - vm_compute. reflexivity.
  - split; [apply (Hmissing 1%nat NA); reflexivity|].
    split.
    + apply (Hstatus 0%nat (u "港区芝公園4-2-8") 503%Z Malformed).
      * reflexivity.
      * reflexivity.
      * discriminate.
    + refine (proj2 (geocoding_failures
                       (sample_world postal_page no_candidate_geocode) no_index
                       sample_prefectures.1)
                [] [u "kanagawa"] (u "tokyo") (u "list.pdf") [] (postal_page 1)
                (mkDataFrame [u "施設名"; POSTAL_CODE; ADDRESS]
                   [[Str (u "芝病院"); Str (u "105-0011");
                     Str (u "港区芝公園4-2-8")]])
                (mkDataFrame
                   [u "施設名"; POSTAL_CODE; ADDRESS; REGION; LOCALITY]
                   [[Str (u "芝病院"); Str (u "105-0011");
                     Str (u "港区芝公園4-2-8"); Str []; Str []]])
                0%nat (u "港区芝公園4-2-8") _ _ _ _ _ _ _ _ _ _).
      * reflexivity.
      * reflexivity.
      * vm_compute. reflexivity.
      * apply (bool_decide_unpack (regex_literal (u "東京都"))).
        vm_compute. exact I.
      * repeat constructor.
      * unfold resolver_columns_unique. repeat constructor; vm_compute; lia.
      * vm_compute. reflexivity.
      * vm_compute. reflexivity.
      * vm_compute. discriminate.
      * right. exists (Candidate Missing Missing).
        split; [reflexivity|]. left. left. reflexivity.
Defined.

(** C3, as stated, fails.  With a 200 answer that has no candidate node the
    per-record call raises instead of returning (0, 0), and the prefecture's
    document ends with the error message and no file -- the same document
    is written when the service answers with coordinates.  And a record
    whose address is the empty text is not given (0, 0): its address has
    become the prefecture's name, and it gets the coordinates that the
    service has for that name. *)
Lemma geocode_parse_failure_aborts_document :
  address_to_coordinates no_candidate_geocode (Str (u "東京都港区芝公園4-2-8"))
  = Exc TypeError
  /\ address_to_coordinates no_candidate_geocode
       (Str (u "東京都港区芝公園4-2-8"))
     <> Ok (Num 0, Num 0)
  /\ main (sample_world postal_page no_candidate_geocode) no_index
       sample_prefectures.1 [u "tokyo"]
     = [Print (PrefectureNumber 1 (u "東京都") (u "tokyo"));
        Print (Error TypeError)]
  /\ existsb (writes_csv 1)
       (main (sample_world postal_page demo_geocode) no_index
          sample_prefectures.1 [u "tokyo"])
     = true
  /\ main (sample_world empty_address_page demo_geocode) no_index
       sample_prefectures.1 [u "tokyo"]
     = [Print (PrefectureNumber 1 (u "東京都") (u "tokyo"));
        ToCsv 1 (u "tokyo")
          (mkDataFrame
             [u "施設名"; ADDRESS; REGION; LOCALITY; LATITUDE; LONGITUDE]
             [[Str (u "千代田医院"); Str (u "東京都"); Str (u "東京都");
               Str (u "千代田区"); Num 35658000; Num 139745000]])].
Proof.
  split; [vm_compute; reflexivity|].
  split; [vm_compute; discriminate|].
  repeat split; vm_compute; reflexivity.
Qed.

(** ** Documents without a postal-code column *)

Lemma main_postal_lookup_skipped (index : gmap str (cell * cell))
    (df : DataFrame) :
  has_col POSTAL_CODE df = false -> main_postal_lookup index df = Ok df.
Proof. intros H. unfold main_postal_lookup. rewrite H. reflexivity. Qed.

Lemma main_prepend_prefecture_columns (prefecture_name : str)
    (df df2 : DataFrame) (other : str) :
  main_prepend_prefecture prefecture_name df = Ok df2 ->
  has_col other df2 = has_col other df.
Proof.
  intros H. pose proof (main_prepend_prefecture_has_address _ _ _ H) as Ha.
  unfold main_prepend_prefecture in H.
  destruct (get_col ADDRESS df); [|discriminate]. rsimpl in H.
  destruct (existsb id _); injection H as <-; [|reflexivity].
  apply eq_true_iff_eq. rewrite has_col_set_col.
  split; [intros [H| ->]; [exact H | exact Ha] | auto].
Qed.

Lemma main_geocode_columns (geocode : cell -> geo_response)
    (df df3 : DataFrame) (other : str) :
  other <> LATITUDE -> other <> LONGITUDE ->
  main_geocode geocode df = Ok df3 ->
  has_col other df3 = has_col other df.
Proof.
  intros H1 H2. unfold main_geocode.
  destruct (get_col ADDRESS df); [|discriminate]. rsimpl.
  destruct (apply _ _); [|discriminate]. rsimpl.
  destruct (unzip_pairs _); [|discriminate]. rsimpl. intros [= <-].
  apply eq_true_iff_eq. rewrite !has_col_set_col. tauto.
Qed.

Lemma get_col_missing (name : str) (df : DataFrame) :
  has_col name df = false -> get_col name df = Exc (KeyError name).
Proof.
  intros H. unfold get_col.
  destruct (col_index name (columns df)) as [j|] eqn:Hj; [|reflexivity].
  assert (has_col name df = true) by (apply has_col_index; eauto). congruence.
Qed.

Lemma main_fill_from_address_missing (df0 df : DataFrame) :
  has_col REGION df = has_col REGION df0 ->
  has_col LOCALITY df = has_col LOCALITY df0 ->
  has_col REGION df0 = false \/ has_col LOCALITY df0 = false ->
  main_fill_from_address df = Exc (KeyError (missing_column df0)).
Proof.
  intros HR HL Hmiss. unfold main_fill_from_address, missing_column.
  destruct (has_col REGION df0) eqn:H0.
  - destruct Hmiss as [|Hmiss]; [discriminate|].
    destruct (get_col REGION df) as [regions|e] eqn:Hget.
    + rsimpl. rewrite (get_col_missing LOCALITY df) by congruence. reflexivity.
    + assert (has_col REGION df = false); [|congruence].
      unfold get_col in Hget. unfold has_col.
      destruct (col_index REGION (columns df)) eqn:Hj; [discriminate|].
      apply bool_decide_eq_false_2, col_index_None, Hj.
  - rewrite (get_col_missing REGION df) by congruence. reflexivity.
Qed.

(** C10, as the program has it.  For a table with an address column, no
    postal-code column, and no region or no municipality column of its own,
    step 1 creates nothing and the resolver raises: the [KeyError] of the
    step-4 filter on the missing column whenever steps 2 and 3 return, an
    earlier exception otherwise.  The driver prints the error, writes no
    file for that prefecture, and goes on with the next one. *)
Theorem address_only_document (w : world) (index : gmap str (cell * cell))
    (prefectures : gmap str str) (before after : list str)
    (prefecture file : str) (files : list str)
    (pages : list (option RawTableGrid)) (df : DataFrame) :
  let i := S (length before) in
  let prefecture_name := get_prefecture_name prefectures prefecture in
  listdir w i = Ok (file :: files) ->
  pdf_open w i file = Ok pages ->
  assemble pages prefecture_name = Ok (Some df) ->
  regex_literal prefecture_name ->
  resolver_columns_unique df ->
  has_col ADDRESS df = true ->
  has_col POSTAL_CODE df = false ->
  has_col REGION df = false \/ has_col LOCALITY df = false ->
  main_postal_lookup index df = Ok df
  /\ exists e : exn,
      resolve (geocoder w) index prefecture_name df = Exc e
      /\ (forall df2 df3 : DataFrame,
            main_prepend_prefecture prefecture_name df = Ok df2 ->
            main_geocode (geocoder w) df2 = Ok df3 ->
            e = KeyError (missing_column df))
      /\ main w index prefectures (before ++ prefecture :: after)
         = main w index prefectures before
           ++ [Print (PrefectureNumber i prefecture_name prefecture);
               Print (Error e)]
           ++ main_from w index prefectures (S i) after
      /\ Forall (fun ev => writes_csv i ev = false)
           (main w index prefectures (before ++ prefecture :: after)).
Proof.
  intros i prefecture_name Hl Hp Hasm _ _ Haddr Hpost Hmiss.
  pose proof (main_postal_lookup_skipped index df Hpost) as H1.
  split; [exact H1|].
  assert (Hres : exists e,
             resolve (geocoder w) index prefecture_name df = Exc e /\
             forall df2 df3,
               main_prepend_prefecture prefecture_name df = Ok df2 ->
               main_geocode (geocoder w) df2 = Ok df3 ->
               e = KeyError (missing_column df)).
  { unfold resolve. rewrite H1. rsimpl. rewrite Haddr.
    destruct (main_prepend_prefecture prefecture_name df) as [df2|e2] eqn:H2;
      rsimpl; [|exists e2; split; [reflexivity | discriminate]].
    destruct (main_geocode (geocoder w) df2) as [df3|e3] eqn:H3;
      rsimpl; [|exists e3; split; [reflexivity|]; intros ? ? [= <-] H; congruence].
    exists (KeyError (missing_column df)). split; [|reflexivity].
    apply main_fill_from_address_missing; [| |exact Hmiss].
    - rewrite (main_geocode_columns _ _ _ REGION) by
        (first [exact H3 | apply names_distinct]).
      eapply main_prepend_prefecture_columns, H2.
    - rewrite (main_geocode_columns _ _ _ LOCALITY) by
        (first [exact H3 | apply names_distinct]).
      eapply main_prepend_prefecture_columns, H2. }
  destruct Hres as (e & Hres & Hkey). exists e.
  split; [exact Hres|]. split; [exact Hkey|].
  assert (Hit : main_iteration w index prefectures i prefecture
                = [Print (PrefectureNumber i prefecture_name prefecture);
                   Print (Error e)]).
  { apply main_iteration_Exc. fold prefecture_name.
    unfold try_prefecture. rewrite Hl. rsimpl.
    cbn [py_index lookup list_lookup]. rsimpl. rewrite Hp. rsimpl.
    rewrite Hasm. rsimpl. rewrite Hres. reflexivity. }
  split.
  - rewrite main_split_at. fold i. rewrite Hit. reflexivity.
  - apply main_no_write. fold i. rewrite Hit. repeat constructor.
Qed.

Lemma address_only_document_witness :
  main (sample_world address_page demo_geocode) no_index sample_prefectures.1
    ([] ++ u "tokyo" :: [u "kanagawa"])
  = main (sample_world address_page demo_geocode) no_index
      sample_prefectures.1 []
    ++ [Print (PrefectureNumber 1 (u "東京都") (u "tokyo"));
        Print (Error (KeyError REGION))]
    ++ main_from (sample_world address_page demo_geocode) no_index
         sample_prefectures.1 2 [u "kanagawa"].
Proof.
  destruct (address_only_document
              (sample_world address_page demo_geocode) no_index
              sample_prefectures.1 [] [u "kanagawa"] (u "tokyo")
              (u "list.pdf") [] (address_page 1)
              (mkDataFrame [u "施設名"; ADDRESS]
                 [[Str (u "芝病院"); Str (u "港区芝公園4-2-8")]]))
    as (_ & e & _ & Hkey & Hrun & _).
  - reflexivity.
  - reflexivity.
  - vm_compute. reflexivity.
  - apply (bool_decide_unpack (regex_literal _)). vm_compute. exact I.
  - unfold resolver_columns_unique. repeat constructor; vm_compute; lia.
  - vm_compute. reflexivity.
  - vm_compute. reflexivity.
  - left. vm_compute. reflexivity.
  - rewrite (Hkey
               (mkDataFrame [u "施設名"; ADDRESS]
                  [[Str (u "芝病院"); Str (u "東京都港区芝公園4-2-8")]])
               (mkDataFrame [u "施設名"; ADDRESS; LATITUDE; LONGITUDE]
                  [[Str (u "芝病院"); Str (u "東京都港区芝公園4-2-8");
                    Num 35658000; Num 139745000]])) in Hrun.
    + exact Hrun.
    + vm_compute. reflexivity.
    + vm_compute. reflexivity.
Defined.

(** C10, as stated, fails: an address-only document that brings its own
    region and municipality columns is resolved and written. *)
Lemma address_only_document_with_own_region_is_written :
  has_col ADDRESS
    (mkDataFrame [u "施設名"; ADDRESS; REGION; LOCALITY]
       [[Str (u "芝病院"); Str (u "港区芝公園4-2-8"); Str (u "東京都"); Str []]])
  = true
  /\ has_col POSTAL_CODE
       (mkDataFrame [u "施設名"; ADDRESS; REGION; LOCALITY]
          [[Str (u "芝病院"); Str (u "港区芝公園4-2-8"); Str (u "東京都");
            Str []]])
     = false
  /\ assemble (own_region_page 1) (u "東京都")
     = Ok (Some (mkDataFrame [u "施設名"; ADDRESS; REGION; LOCALITY]
                   [[Str (u "芝病院"); Str (u "港区芝公園4-2-8");
                     Str (u "東京都"); Str []]]))
  /\ main (sample_world own_region_page demo_geocode) no_index
       sample_prefectures.1 [u "tokyo"]
     = [Print (PrefectureNumber 1 (u "東京都") (u "tokyo"));
        ToCsv 1 (u "tokyo")
          (mkDataFrame
             [u "施設名"; ADDRESS; REGION; LOCALITY; LATITUDE; LONGITUDE]
             [[Str (u "芝病院"); Str (u "東京都港区芝公園4-2-8");
               Str (u "東京都"); Str (u "港区");
               Num 35658000; Num 139745000]])].
Proof. repeat split; vm_compute; reflexivity. Qed.

(** * Further properties of the program *)

(** ** The lookup tables *)

Lemma load_prefectures_snoc (rows : list (Z * str * str)) (row : Z * str * str) :
  (load_prefectures (rows ++ [row])).1
  = <[row_key row := row_name row]> (load_prefectures rows).1.
Proof. unfold load_prefectures. cbn [fst]. rewrite foldl_app. reflexivity. Qed.

Lemma load_prefectures_lookup_None (rows : list (Z * str * str)) (key : str) :
  key ∉ map snd rows -> (load_prefectures rows).1 !! key = None.
Proof.
  induction rows as [|row rows IH] using rev_ind; intros Hk.
  - apply lookup_empty.
  - rewrite load_prefectures_snoc. rewrite map_app, not_elem_of_app in Hk.
    destruct Hk as [Hk Hrow]. rewrite lookup_insert_ne.
    + apply IH, Hk.
    + intros E. apply Hrow. cbn. rewrite <- E. apply list_elem_of_here.
Qed.

(** X1.  [load_prefectures] and [get_prefecture_name]: when the English keys
    of the table are pairwise distinct, every line's key is mapped to that
    line's display name; a key that is not in the table is mapped to the
    empty text; and the list of keys is the key column in file order. *)
Theorem load_prefectures_round_trip (rows : list (Z * str * str)) :
  NoDup (map snd rows) ->
  (forall row, row ∈ rows ->
     get_prefecture_name (load_prefectures rows).1 (row_key row) = row_name row)
  /\ (forall key, key ∉ map snd rows ->
        get_prefecture_name (load_prefectures rows).1 key = [])
  /\ (load_prefectures rows).2 = map snd rows.
Proof.
  intros Hnd. split; [|split; [|reflexivity]].
  - induction rows as [|last rows IH] using rev_ind; intros row Hrow.
    + inversion Hrow.
    + rewrite map_app in Hnd. apply NoDup_app in Hnd as (Hnd & Hdisj & _).
      unfold get_prefecture_name. rewrite load_prefectures_snoc.
      apply elem_of_app in Hrow as [Hrow|Hrow].
      * rewrite lookup_insert_ne.
        -- apply (IH Hnd row Hrow).
        -- intros E. apply (Hdisj (row_key row)).
           ++ apply list_elem_of_fmap. exists row. split; [reflexivity|exact Hrow].
           ++ cbn. rewrite <- E. apply list_elem_of_here.
      * apply list_elem_of_singleton in Hrow as ->.
        rewrite lookup_insert_eq. reflexivity.
  - intros key Hk. unfold get_prefecture_name.
    rewrite load_prefectures_lookup_None by exact Hk. reflexivity.
Qed.

Lemma load_prefectures_round_trip_witness :
  get_prefecture_name (load_prefectures sample_prefecture_rows).1 (u "kanagawa")
  = u "神奈川県".
Proof.
  refine (proj1 (load_prefectures_round_trip sample_prefecture_rows _)
            (14%Z, u "神奈川県", u "kanagawa") _).
  - apply (bool_decide_unpack (NoDup (map snd sample_prefecture_rows))).
    vm_compute. exact I.
  - apply list_elem_of_further, list_elem_of_here.
Defined.

Lemma postal_to_location_snoc (address_df : list (list cell)) (row : list cell) :
  postal_to_location (address_df ++ [row])
  = d ← postal_to_location address_df;
    e ← postal_entry row;
    Ok (<[e.1 := e.2]> d).
Proof. unfold postal_to_location. rewrite foldl_app. reflexivity. Qed.

Lemma postal_to_location_prefix_Ok (before after : list (list cell))
    (index : gmap str (cell * cell)) :
  postal_to_location (before ++ after) = Ok index ->
  exists d, postal_to_location before = Ok d.
Proof.
  revert index. induction after as [|row after IH] using rev_ind; intros index.
  - rewrite app_nil_r. eauto.
  - rewrite app_assoc, postal_to_location_snoc.
    destruct (postal_to_location (before ++ after)) as [d|e] eqn:H;
      [|discriminate].
    intros _. eapply IH. reflexivity.
Qed.

(** X2.  The postal dictionary keeps, for each code, the entry of the last
    line that has it: a line's entry is what its key looks up to whenever no
    later line produces the same key. *)
Theorem postal_to_location_last_wins (before after : list (list cell))
    (row : list cell) (index : gmap str (cell * cell)) (k : str)
    (v : cell * cell) :
  postal_to_location (before ++ row :: after) = Ok index ->
  postal_entry row = Ok (k, v) ->
  (forall later k' v', later ∈ after -> postal_entry later = Ok (k', v') ->
                       k' <> k) ->
  index !! k = Some v.
Proof.
  revert index. induction after as [|last after IH] using rev_ind;
    intros index Hload Hrow Hlater.
  - change (before ++ [row]) with (before ++ [row]) in Hload.
    rewrite postal_to_location_snoc in Hload.
    destruct (postal_to_location before) as [d|e]; [|discriminate].
    rsimpl in Hload. rewrite Hrow in Hload. rsimpl in Hload.
    injection Hload as <-. apply lookup_insert_eq.
  - replace (before ++ row :: after ++ [last])
      with ((before ++ row :: after) ++ [last]) in Hload
      by (rewrite <- app_assoc; reflexivity).
    rewrite postal_to_location_snoc in Hload.
    destruct (postal_to_location (before ++ row :: after)) as [d|e] eqn:Hd;
      [|discriminate].
    rsimpl in Hload.
    destruct (postal_entry last) as [[k' v']|e] eqn:Hlast; [|discriminate].
    rsimpl in Hload. injection Hload as <-. cbn [fst snd].
    rewrite lookup_insert_ne.
    + apply (IH d eq_refl Hrow). intros later k2 v2 Hin.
      apply Hlater, elem_of_app. left. exact Hin.
    + apply (Hlater last k' v'); [|exact Hlast].
      apply elem_of_app. right. apply list_elem_of_here.
Qed.

Lemma postal_to_location_last_wins_witness :
  demo_index !! u "1000001" = Some (Str (u "東京都"), Str (u "千代田区")).
Proof.
  refine (postal_to_location_last_wins [] []
            (map read_csv_field
               (map u ["13101"; "100  "; "1000001"; "TOKYO TO"; "CHIYODA KU";
                       "CHIYODA"; "東京都"; "千代田区"; "千代田"]%string))
            demo_index (u "1000001")
            (Str (u "東京都"), Str (u "千代田区")) _ _ _).
  - vm_compute. reflexivity.
  - vm_compute. reflexivity.
  - intros later k' v' Hin. inversion Hin.
Defined.

Lemma postal_entry_Ok_iff (row : list cell) :
  (exists e, postal_entry row = Ok e)
  <-> (8 <= length row)%nat /\ exists s, row !! 2%nat = Some (Str s).
Proof.
  unfold postal_entry, py_index. split.
  - intros [e He].
    destruct (row !! 2%nat) as [code|]; [|discriminate]. rsimpl in He.
    destruct code as [|s|n| |neg]; try discriminate. rsimpl in He.
    destruct (row !! 6%nat) as [r|]; [|discriminate]. rsimpl in He.
    destruct (row !! 7%nat) as [l|] eqn:H7; [|discriminate].
    apply lookup_lt_Some in H7. split; [lia|eauto].
  - intros [Hlen [s ->]]. rsimpl.
    destruct (lookup_lt_is_Some_2 row 6%nat) as [r ->]; [lia|]. rsimpl.
    destruct (lookup_lt_is_Some_2 row 7%nat) as [l ->]; [lia|]. rsimpl.
    eauto.
Qed.

Lemma postal_to_location_Ok_iff (address_df : list (list cell)) :
  (exists index, postal_to_location address_df = Ok index)
  <-> Forall (fun row => exists e, postal_entry row = Ok e) address_df.
Proof.
  induction address_df as [|row address_df IH] using rev_ind.
  - split; [constructor|]. intros _. exists ∅. reflexivity.
  - rewrite postal_to_location_snoc, Forall_app, Forall_singleton, <- IH.
    split.
    + intros [index H].
      destruct (postal_to_location address_df) as [d|e]; [|discriminate].
      rsimpl in H. destruct (postal_entry row) as [e|e]; [|discriminate].
      eauto.
    + intros [[d ->] [e ->]]. rsimpl. eauto.
Qed.

(** The code of a filled line is the code of the line. *)
Lemma read_csv_row_code (line : list str) (width : nat) (s : str) :
  (map read_csv_field line ++ replicate (width - length line) NaN) !! 2%nat
  = Some (Str s)
  <-> line !! 2%nat = Some s /\ s ∉ na_values.
Proof.
  destruct (line !! 2%nat) as [field|] eqn:Hf.
  - rewrite lookup_app_l
      by (rewrite length_map; eapply lookup_lt_Some, Hf).
    rewrite list_lookup_fmap, Hf. cbn. unfold read_csv_field.
    case_bool_decide as Hna.
    + split; [discriminate|]. intros [[= ->] H]. contradiction.
    + split; [intros [= ->]; auto | intros [[= ->] _]; reflexivity].
  - split; [|intros [H _]; discriminate H].
    apply lookup_ge_None in Hf.
    rewrite lookup_app_r by (rewrite length_map; lia). intros H.
    apply list_elem_of_lookup_2, elem_of_replicate in H as [H _].
    discriminate H.
Qed.

(** X3.  What makes the load of the postal table fail.  The table is loaded
    exactly when the file has a first line of eight fields or more, no line
    longer than the first, and a code on every line.  A file without lines
    is refused with [EmptyDataError], a line longer than the first with
    [ParserError].  A short line is no error by itself: the reader fills it
    up with [NaN], so that a line of six fields or fewer that has its code
    gives the entry ([NaN], [NaN]). *)
Theorem postal_to_location_bad_row (raw : list (list str)) :
  ((exists index, load_postal_to_location raw = Ok index) <-> loadable raw)
  /\ (raw = [] -> load_postal_to_location raw = Exc EmptyDataError)
  /\ (forall first rest,
        raw = first :: rest ->
        Exists (fun line => (length first < length line)%nat) rest ->
        load_postal_to_location raw = Exc ParserError)
  /\ (forall (first line : list str) (s : str),
        head raw = Some first -> (8 <= length first)%nat ->
        line ∈ raw ->
        line !! 2%nat = Some s -> s ∉ na_values ->
        (length line <= 6)%nat ->
        let row := map read_csv_field line
                   ++ replicate (length first - length line) NaN in
        row ∈ read_csv_str raw
        /\ postal_entry row = Ok (strip s, (NaN, NaN))).
Proof.
  split; [|split; [|split]].
  - unfold load_postal_to_location, read_csv, loadable.
    destruct raw as [|first rest]; [split; [intros [? [=]] | intros (? & [=] & _)]|].
    cbn [head]. case_bool_decide as Hlen; rsimpl.
    + rewrite postal_to_location_Ok_iff. unfold read_csv_str. cbv zeta.
      cbn [head default from_option]. unfold id.
      rewrite Forall_fmap. split.
      * intros Hall. exists first. split; [reflexivity|].
        assert (Hfirst : (8 <= length first)%nat).
        { inversion Hall as [|? ? H1 _]; subst. cbn in H1.
          apply postal_entry_Ok_iff in H1 as [H1 _].
          rewrite length_app, length_map, length_replicate in H1. lia. }
        split; [exact Hfirst|].
        apply Forall_forall. intros line Hline.
        eapply Forall_forall in Hall; [|exact Hline].
        eapply Forall_forall in Hlen; [|exact Hline].
        split; [exact Hlen|]. cbn in Hall.
        apply postal_entry_Ok_iff in Hall as [_ [s Hs]].
        apply read_csv_row_code in Hs. exists s. exact Hs.
      * intros (first' & [= <-] & Hfirst & Hall).
        apply Forall_forall. intros line Hline.
        eapply Forall_forall in Hall; [|exact Hline].
        destruct Hall as [Hl (s & Hs & Hna)]. cbn.
        apply postal_entry_Ok_iff. split.
        -- rewrite length_app, length_map, length_replicate. lia.
        -- exists s. apply read_csv_row_code. auto.
    + split; [intros [? [=]]|]. intros (first' & [= <-] & _ & Hall).
      exfalso. apply Hlen. eapply Forall_impl; [exact Hall|].
      intros line [H _]. exact H.
  - intros ->. reflexivity.
  - intros first rest -> Hlong. unfold load_postal_to_location, read_csv.
    rewrite bool_decide_eq_false_2; [reflexivity|].
    intros Hall. apply Forall_cons in Hall as [_ Hall].
    apply Exists_exists in Hlong as (line & Hin & Hlt).
    eapply Forall_forall in Hall; [|exact Hin]. cbn in Hall. lia.
  - intros first line s Hhead Hwidth Hin Hs Hna Hshort row. split.
    + unfold read_csv_str. cbv zeta. rewrite Hhead.
      cbn [default from_option]. unfold id.
      apply list_elem_of_fmap. exists line. split; [reflexivity | exact Hin].
    + subst row. unfold postal_entry, py_index.
      rewrite (proj2 (read_csv_row_code line (length first) s) (conj Hs Hna)).
      rsimpl.
      rewrite !lookup_app_r by (rewrite length_map; lia). rewrite length_map.
      rewrite !lookup_replicate_2 by lia. reflexivity.
Qed.

Lemma postal_to_location_bad_row_witness :
  (exists index, load_postal_to_location short_line_csv = Ok index)
  /\ postal_entry (map read_csv_field (map u ["13102"; "103  "; "1030000"]%string)
                   ++ replicate (9 - 3) NaN)
     = Ok (u "1030000", (NaN, NaN)).
Proof.
  pose proof (postal_to_location_bad_row short_line_csv) as (Hiff & _ & _ & Hshort).
  split.
  - apply Hiff. exists (map u ["13101"; "100  "; "1000001"; "TOKYO TO";
                               "CHIYODA KU"; "CHIYODA"; "東京都"; "千代田区";
                               "千代田"]%string).
    split; [reflexivity|]. split; [cbn; lia|].
    repeat constructor; try (cbn; lia).
    + exists (u "1000001"). split; [reflexivity|].
      apply (bool_decide_unpack (u "1000001" ∉ na_values)). vm_compute. exact I.
    + exists (u "1030000"). split; [reflexivity|].
      apply (bool_decide_unpack (u "1030000" ∉ na_values)). vm_compute. exact I.
  - refine (proj2 (Hshort (map u ["13101"; "100  "; "1000001"; "TOKYO TO";
                                   "CHIYODA KU"; "CHIYODA"; "東京都"; "千代田区";
                                   "千代田"]%string)
                     (map u ["13102"; "103  "; "1030000"]%string) (u "1030000")
                     _ _ _ _ _ _)).
    + reflexivity.
    + cbn. lia.
    + apply list_elem_of_further, list_elem_of_here.
    + reflexivity.
    + apply (bool_decide_unpack (u "1030000" ∉ na_values)). vm_compute. exact I.
    + cbn. lia.
Defined.

(** X4.  No entry of the postal dictionary, as loaded from the file, holds an
    empty text or a number: the region and the municipality of every entry
    are each a non-empty text or missing. *)
Theorem postal_to_location_loaded_fields (raw : list (list str))
    (index : gmap str (cell * cell)) (k : str) (r l : cell) :
  postal_to_location (read_csv_str raw) = Ok index ->
  index !! k = Some (r, l) ->
  loaded_field r /\ loaded_field l.
Proof.
  intros Hload Hk.
  destruct (postal_to_location_entries _ _ _ _ Hload Hk) as (row & Hin & He).
  apply postal_entry_cells in He as (H6 & H7 & _).
  pose proof (read_csv_str_loaded raw) as Hall.
  eapply Forall_forall in Hall; [|exact Hin].
  split; (eapply Forall_forall; [exact Hall|]);
    eapply list_elem_of_lookup_2; eassumption.
Qed.

Lemma postal_to_location_loaded_fields_witness :
  loaded_field (Str (u "東京都")) /\ loaded_field (Str (u "千代田区")).
Proof.
  apply (postal_to_location_loaded_fields demo_postal_csv demo_index
           (u "1000001")).
  - vm_compute. reflexivity.
  - vm_compute. reflexivity.
Defined.

Lemma replace_char_removes (old : N) (s : str) : old ∉ replace_char old [] s.
Proof.
  unfold replace_char. induction s as [|c s IH]; cbn [flat_map].
  - intros H. inversion H.
  - destruct (N.eqb_spec c old) as [->|Hne]; [exact IH|].
    cbn [app]. intros H. apply elem_of_cons in H as [H|H]; [congruence|].
    exact (IH H).
Qed.

(** X5.  [postal2location] never raises on a missing or text code; what it
    returns for a text code is the pair of empty texts or the entry of a key
    without hyphen, so an entry stored under a key with a hyphen is never
    found; and two codes that differ only in their hyphens get the same
    answer.  Both missing values, [None] and [NaN], give the pair of empty
    texts. *)
Theorem postal2location_lookup (index : gmap str (cell * cell)) :
  (forall postal_code : cell,
     text_cell postal_code ->
     exists p, postal2location index postal_code = Ok p)
  /\ (forall (s : str) (p : cell * cell),
        postal2location index (Str s) = Ok p ->
        p = (Str [], Str []) \/
        (exists k, (HYPHEN ∉ k) /\ index !! k = Some p))
  /\ (forall s t : str,
        replace_char HYPHEN [] s = replace_char HYPHEN [] t ->
        postal2location index (Str s) = postal2location index (Str t))
  /\ (forall n : Z, postal2location index (Num n) = Exc AttributeError)
  /\ (forall postal_code : cell,
        notna postal_code = false ->
        postal2location index postal_code = Ok (Str [], Str [])).
Proof.
  split; [|split; [|split; [|split]]];
    [| | | |intros [| | | |]; try discriminate; reflexivity].
  - intros postal_code [->|[s ->]]; cbn [postal2location]; [eauto|].
    destruct (index !! replace_char HYPHEN [] s); eauto.
  - intros s p. cbn [postal2location].
    destruct (index !! replace_char HYPHEN [] s) as [location|] eqn:Hk.
    + intros [= <-]. right. exists (replace_char HYPHEN [] s).
      split; [apply replace_char_removes | exact Hk].
    + intros [= <-]. left. reflexivity.
  - intros s t E. cbn [postal2location]. rewrite E. reflexivity.
  - reflexivity.
Qed.

Lemma postal2location_lookup_witness :
  postal2location demo_index (Str (u "100-0001"))
  = postal2location demo_index (Str (u "1-0-0-0-0-0-1")).
Proof.
  apply (proj1 (proj2 (proj2 (postal2location_lookup demo_index)))).
  vm_compute. reflexivity.
Defined.

(** ** The address split *)

Lemma shortest_span_needs_suffix (cls s : str) :
  Forall (fun c => c ∉ cls) s -> shortest_span cls s = None.
Proof.
  induction 1 as [|x s Hx Hs IH]; [reflexivity|].
  cbn [shortest_span]. destruct (N.eqb x LF); [reflexivity|].
  destruct s as [|d s'']; [reflexivity|].
  inversion Hs as [|? ? Hd _]; subst.
  rewrite bool_decide_eq_false_2 by exact Hd. rewrite IH. reflexivity.
Qed.

Lemma parse_address_needs_suffix (s : str) :
  Forall (fun c => c ∉ LOCALITY_SUFFIXES) s -> parse_address s = None.
Proof.
  intros Hs. unfold parse_address, locality_after.
  rewrite (shortest_span_needs_suffix _ s Hs).
  destruct (region_prefix2 s) as [[r2 t2]|] eqn:H2.
  - apply region_prefix2_shape in H2 as [E2 _].
    rewrite shortest_span_needs_suffix
      by (rewrite E2 in Hs; apply Forall_app in Hs; tauto).
    destruct (region_prefix3 s) as [[r3 t3]|] eqn:H3; [|reflexivity].
    apply region_prefix3_shape in H3 as [E3 _].
    rewrite shortest_span_needs_suffix
      by (rewrite E3 in Hs; apply Forall_app in Hs; tauto).
    reflexivity.
  - destruct (region_prefix3 s) as [[r3 t3]|] eqn:H3; [|reflexivity].
    apply region_prefix3_shape in H3 as [E3 _].
    rewrite shortest_span_needs_suffix
      by (rewrite E3 in Hs; apply Forall_app in Hs; tauto).
    reflexivity.
Qed.

(** X7.  [split_japanese_address] on [None] or on a text never raises and
    returns two fields, and never a region without a locality; for a text in
    which no locality-class suffix character occurs both fields are empty,
    whatever prefecture it starts with.  On a float that is not zero -- the
    missing value [NaN] among them, which Python takes for true -- it raises
    [TypeError]. *)
Theorem split_japanese_address_fields :
  (forall address : cell,
     text_cell address ->
     exists region locality,
       split_japanese_address address = Ok [region; locality] /\
       (locality = [] -> region = []))
  /\ (forall s : str,
        Forall (fun c => c ∉ LOCALITY_SUFFIXES) s ->
        split_japanese_address (Str s) = Ok [[]; []])
  /\ (forall address : cell,
        (forall s, address <> Str s) -> py_not address = false ->
        split_japanese_address address = Exc TypeError)
  /\ split_japanese_address NaN = Exc TypeError.
Proof.
  split; [|split; [|split; [|reflexivity]]];
    [| |intros address Hs Hn; unfold split_japanese_address; rewrite Hn;
        destruct address; try reflexivity; exfalso; eapply Hs; reflexivity].
  - intros address [->|[s ->]]; [exists [], []; split; [reflexivity|auto]|].
    rewrite split_japanese_address_refines.
    destruct (parse_address s) as [[region locality]|] eqn:Hp.
    + exists region, locality. split; [reflexivity|]. intros ->.
      apply parse_address_shape in Hp as (rest & _ & _ & x & mid & d & E & _).
      discriminate.
    + exists [], []. split; [reflexivity|auto].
  - intros s Hs. rewrite split_japanese_address_refines.
    rewrite (parse_address_needs_suffix s Hs). reflexivity.
Qed.

Lemma split_japanese_address_fields_witness :
  split_japanese_address (Str (u "東京都千代田1-1")) = Ok [[]; []].
Proof.
  apply (proj1 (proj2 split_japanese_address_fields)).
  apply (bool_decide_unpack
           (Forall (fun c => c ∉ LOCALITY_SUFFIXES) (u "東京都千代田1-1"))).
  vm_compute. exact I.
Defined.

(** ** The first page *)

Ltac rstep := cbv beta iota zeta; rsimpl.

Lemma py_index_Ok {A} (xs : list A) (i : nat) (x : A) :
  py_index xs i = Ok x -> xs !! i = Some x.
Proof. unfold py_index. destruct (xs !! i); [congruence|discriminate]. Qed.

Lemma py_index_Exc {A} (xs : list A) (i : nat) (e : exn) :
  py_index xs i = Exc e -> e = IndexError /\ xs !! i = None.
Proof. unfold py_index. destruct (xs !! i); [discriminate|]. intros [= <-]. auto. Qed.

Lemma py_index_None {A} (xs : list A) (i : nat) :
  xs !! i = None -> py_index xs i = Exc IndexError.
Proof. unfold py_index. intros ->. reflexivity. Qed.

Lemma replace_char_keeps_absent (x old : N) (s : str) :
  x ∉ s -> x ∉ replace_char old [] s.
Proof.
  unfold replace_char. induction s as [|c s IH]; cbn [flat_map]; [auto|].
  intros H. apply not_elem_of_cons in H as [Hx Hs].
  destruct (N.eqb c old); [exact (IH Hs)|].
  cbn [app]. apply not_elem_of_cons. split; [exact Hx | exact (IH Hs)].
Qed.

Lemma clean_header_no_line_break (header : option str) :
  (LF ∉ clean_header header) /\ (CR ∉ clean_header header).
Proof.
  unfold clean_header. destruct header as [[|c s]|].
  - split; apply not_elem_of_nil.
  - split; [|apply replace_char_removes].
    apply replace_char_keeps_absent, replace_char_removes.
  - split; apply not_elem_of_nil.
Qed.

(** What a successful [get_first_page] has read: the header row is row 1 or
    row 2 of the grid, the data are the rows after it, and the headers are
    the cleaned cells of that row, the first one replaced for the
    special-cased prefecture. *)
Lemma get_first_page_Ok (first_table : RawTableGrid) (prefecture_name : str)
    (headers : list str) (data : RawTableGrid) :
  get_first_page first_table prefecture_name = Ok (headers, data) ->
  exists (k : nat) (raw : list (option str)),
    (k = 1 \/ k = 2)%nat /\ first_table !! k = Some raw /\
    data = drop (S k) first_table /\
    ((prefecture_name <> OKINAWA /\ headers = map clean_header raw) \/
     (prefecture_name = OKINAWA /\
      exists h t, map clean_header raw = h :: t /\
                  headers = CONSENT_TO_DISCLOSURE :: t)).
Proof.
  unfold get_first_page; cbv zeta.
  destruct (py_index first_table 1%nat) as [row1|e] eqn:H1; rstep;
    [|discriminate].
  destruct (py_index row1 0%nat) as [h0|e]; rstep; [|discriminate].
  assert (Hend : forall (k : nat) (raw : list (option str)),
             (k = 1 \/ k = 2)%nat -> py_index first_table k = Ok raw ->
             (headers0 ← (if bool_decide (prefecture_name = OKINAWA)
                          then match map clean_header raw with
                               | [] => Exc IndexError
                               | _ :: t => Ok (CONSENT_TO_DISCLOSURE :: t)
                               end
                          else Ok (map clean_header raw));
              Ok (headers0, drop (k + 1) first_table)) = Ok (headers, data) ->
             exists (k : nat) (raw : list (option str)),
               (k = 1 \/ k = 2)%nat /\ first_table !! k = Some raw /\
               data = drop (S k) first_table /\
               ((prefecture_name <> OKINAWA /\ headers = map clean_header raw) \/
                (prefecture_name = OKINAWA /\
                 exists h t, map clean_header raw = h :: t /\
                             headers = CONSENT_TO_DISCLOSURE :: t))).
  { intros k raw Hk Hraw. apply py_index_Ok in Hraw. case_bool_decide as Hp.
    - destruct (map clean_header raw) as [|h t] eqn:Hm; [discriminate|].
      rstep. intros [= <- <-]. exists k, raw.
      rewrite Nat.add_1_r. repeat split; try assumption. right. eauto.
    - rstep. intros [= <- <-]. exists k, raw.
      rewrite Nat.add_1_r. repeat split; try assumption. left. auto. }
  destruct (bool_decide (h0 = Some BASIC_INFORMATION)).
  - replace (1 + 1)%nat with 2%nat by reflexivity.
    destruct (py_index first_table 2%nat) as [row2|e] eqn:H2; rstep;
      [|discriminate].
    rewrite H2. rstep. apply (Hend 2%nat row2); auto.
  - rstep. rewrite H1. rstep. apply (Hend 1%nat row1); auto.
Qed.

(** X8.  The headers that [get_first_page] returns contain no line feed and
    no carriage return; they are as many as the cells of the header row,
    which is row 1 or row 2 of the grid, and the data are all the rows after
    that row. *)
Theorem get_first_page_headers (first_table : RawTableGrid)
    (prefecture_name : str) (headers : list str) (data : RawTableGrid) :
  get_first_page first_table prefecture_name = Ok (headers, data) ->
  Forall (fun h => (LF ∉ h) /\ (CR ∉ h)) headers
  /\ exists (k : nat) (raw : list (option str)),
       (k = 1 \/ k = 2)%nat /\ first_table !! k = Some raw /\
       length headers = length raw /\ data = drop (S k) first_table.
Proof.
  intros H. apply get_first_page_Ok in H
    as (k & raw & Hk & Hraw & Hdata & [[_ Hh]|[_ (h & t & Hm & Hh)]]).
  - split.
    + subst headers. apply Forall_forall. intros h Hin.
      apply list_elem_of_fmap in Hin as (x & -> & _).
      apply clean_header_no_line_break.
    + exists k, raw. rewrite Hh, length_map. auto.
  - split.
    + subst headers. constructor.
      * split; apply (bool_decide_unpack _); vm_compute; exact I.
      * apply Forall_forall. intros x Hin.
        assert (Hx : x ∈ map clean_header raw)
          by (rewrite Hm; apply list_elem_of_further, Hin).
        apply list_elem_of_fmap in Hx as (y & -> & _).
        apply clean_header_no_line_break.
    + exists k, raw. repeat split; try assumption.
      rewrite Hh. cbn [length]. rewrite <- (length_map clean_header raw), Hm.
      reflexivity.
Qed.

Lemma get_first_page_headers_witness :
  Forall (fun h => (LF ∉ h) /\ (CR ∉ h)) [[97; 98]; u "h2"].
Proof.
  apply (get_first_page_headers
           [[Some (u "title")]; [Some [97; LF; 98]; Some (u "h2")];
            [Some (u "v1"); Some (u "v2")]]
           (u "東京都") [[97; 98]; u "h2"]
           [[Some (u "v1"); Some (u "v2")]]).
  vm_compute. reflexivity.
Defined.

(** X9.  The special-cased prefecture changes the first header and nothing
    else: on the same grid, its headers are the forced label followed by the
    other prefectures' headers without their first, and its data rows are
    the same. *)
Theorem get_first_page_special_case (first_table : RawTableGrid)
    (prefecture_name : str) (headers special_headers : list str)
    (data special_data : RawTableGrid) :
  prefecture_name <> OKINAWA ->
  get_first_page first_table prefecture_name = Ok (headers, data) ->
  get_first_page first_table OKINAWA = Ok (special_headers, special_data) ->
  special_headers = CONSENT_TO_DISCLOSURE :: drop 1 headers
  /\ special_data = data.
Proof.
  intros Hp. unfold get_first_page; cbv zeta.
  destruct (py_index first_table 1%nat) as [row1|e] eqn:H1; rstep;
    [|discriminate].
  destruct (py_index row1 0%nat) as [h0|e]; rstep; [|discriminate].
  rewrite (bool_decide_eq_false_2 _ Hp).
  rewrite (bool_decide_eq_true_2 (OKINAWA = OKINAWA)) by reflexivity.
  destruct (bool_decide (h0 = Some BASIC_INFORMATION)).
  - replace (1 + 1)%nat with 2%nat by reflexivity.
    destruct (py_index first_table 2%nat) as [row2|e] eqn:H2; rstep;
      [|discriminate].
    rewrite H2. rstep. intros [= <- <-].
    destruct (map clean_header row2) as [|h t]; [discriminate|]. rsimpl.
    intros [= <- <-]. auto.
  - rstep. rewrite H1. rstep. intros [= <- <-].
    destruct (map clean_header row1) as [|h t]; [discriminate|]. rsimpl.
    intros [= <- <-]. auto.
Qed.

Lemma get_first_page_special_case_witness :
  [CONSENT_TO_DISCLOSURE; u "h2"] = CONSENT_TO_DISCLOSURE :: drop 1 [u "h1"; u "h2"]
  /\ [[Some (u "v1"); Some (u "v2")]] = [[Some (u "v1"); Some (u "v2")]].
Proof.
  apply (get_first_page_special_case
           [[Some (u "title")]; [Some (u "h1"); Some (u "h2")];
            [Some (u "v1"); Some (u "v2")]]
           (u "東京都")).
  - vm_compute. discriminate.
  - vm_compute. reflexivity.
  - vm_compute. reflexivity.
Defined.

(** X10.  [get_first_page] raises nothing but [IndexError], and raises it
    when the grid has no row 1, when row 1 has no cell, and when row 1 starts
    with the placeholder and there is no row 2 -- so a two-row first page
    whose second row is the section label is an error, not a table. *)
Theorem get_first_page_errors (first_table : RawTableGrid)
    (prefecture_name : str) :
  (forall e, get_first_page first_table prefecture_name = Exc e ->
             e = IndexError)
  /\ (first_table !! 1%nat = None ->
      get_first_page first_table prefecture_name = Exc IndexError)
  /\ (first_table !! 1%nat = Some [] ->
      get_first_page first_table prefecture_name = Exc IndexError)
  /\ (forall row0 rest,
        first_table = [row0; Some BASIC_INFORMATION :: rest] ->
        get_first_page first_table prefecture_name = Exc IndexError).
Proof.
  split; [|split; [|split]].
  - unfold get_first_page; cbv zeta. intros e.
    destruct (py_index first_table 1%nat) as [row1|e1] eqn:H1; rstep;
      [|apply py_index_Exc in H1 as [-> _]; intros [= <-]; reflexivity].
    destruct (py_index row1 0%nat) as [h0|e0] eqn:H0; rstep;
      [|apply py_index_Exc in H0 as [-> _]; intros [= <-]; reflexivity].
    destruct (bool_decide (h0 = Some BASIC_INFORMATION)).
    + replace (1 + 1)%nat with 2%nat by reflexivity.
      destruct (py_index first_table 2%nat) as [row2|e2] eqn:H2; rstep;
        [|apply py_index_Exc in H2 as [-> _]; intros [= <-]; reflexivity].
      rewrite H2. rstep.
      case_bool_decide; [|discriminate].
      destruct (map clean_header row2); [intros [= <-]; auto|discriminate].
    + rstep. rewrite H1. rstep.
      case_bool_decide; [|discriminate].
      destruct (map clean_header row1); [intros [= <-]; auto|discriminate].
  - intros H. unfold get_first_page; cbv zeta.
    rewrite (py_index_None _ _ H). reflexivity.
  - intros H. unfold get_first_page; cbv zeta.
    rewrite (py_index_Some _ _ _ H). rstep. reflexivity.
  - intros row0 rest ->. unfold get_first_page; cbv zeta.
    cbn [py_index lookup list_lookup]. rstep.
    cbn [py_index lookup list_lookup]. rstep.
    rewrite (bool_decide_eq_true_2 (Some BASIC_INFORMATION = Some BASIC_INFORMATION))
      by reflexivity.
    reflexivity.
Qed.

Lemma get_first_page_errors_witness :
  get_first_page [[Some (u "title")]; [Some BASIC_INFORMATION; None]] (u "東京都")
  = Exc IndexError.
Proof.
  apply (proj2 (proj2 (proj2 (get_first_page_errors
                                [[Some (u "title")];
                                 [Some BASIC_INFORMATION; None]]
                                (u "東京都"))))
           [Some (u "title")] [None]).
  reflexivity.
Defined.

(** ** The row cleaner, once more *)

Lemma clean_char_output (c d : N) :
  d ∈ clean_char c -> d <> DQUOTE /\ d <> TILDE /\ d <> WAVE_DASH.
Proof.
  intros H. apply clean_char_stable in H. unfold clean_char in H.
  destruct (N.eqb_spec d DQUOTE); [discriminate|].
  destruct (N.eqb_spec d TILDE);
    [subst d; vm_compute in H; discriminate|].
  destruct (N.eqb_spec d WAVE_DASH);
    [subst d; vm_compute in H; discriminate|].
  auto.
Qed.

Lemma count_notna_le (r : list cell) : (count_notna r <= length r)%nat.
Proof. unfold count_notna. apply length_filter. Qed.

Lemma clear_change_line_rectangular (df : DataFrame) :
  rectangular df -> rectangular (clear_change_line df).
Proof.
  unfold rectangular. rewrite clear_change_line_eq. cbn [rows columns].
  intros H. apply Forall_forall. intros r Hr.
  apply list_elem_of_filter in Hr as [_ Hr].
  apply list_elem_of_fmap in Hr as (r0 & -> & Hr0).
  rewrite length_map. eapply Forall_forall in H; [exact H|exact Hr0].
Qed.

Lemma clear_change_line_two_values (df : DataFrame) :
  Forall (fun r => 2 <= count_notna r)%nat (rows (clear_change_line df)).
Proof.
  rewrite clear_change_line_eq. cbn [rows]. apply Forall_forall. intros r Hr.
  apply list_elem_of_filter in Hr as [Hr _]. exact Hr.
Qed.

(** Cleaning twice is cleaning once. *)
Lemma clear_change_line_twice (df : DataFrame) :
  clear_change_line (clear_change_line df) = clear_change_line df.
Proof.
  rewrite !clear_change_line_eq. cbn [columns rows]. f_equal.
  induction (rows df) as [|r l IH]; [reflexivity|].
  cbn [map]. rewrite filter_cons.
  destruct (decide (2 <= count_notna (map clean_cell r))%nat) as [Hr|Hr];
    [|exact IH].
  cbn [map]. rewrite filter_cons.
  rewrite map_map, (map_ext _ clean_cell) by apply clean_cell_idem.
  rewrite decide_True by exact Hr. f_equal. exact IH.
Qed.

(** X11.  After [clear_change_line] no cell of the table contains a double
    quote, a tilde or a wave dash, whatever the table was. *)
Theorem clear_change_line_no_quote_no_tilde (df : DataFrame)
    (r : list cell) (s : str) :
  r ∈ rows (clear_change_line df) -> Str s ∈ r ->
  (DQUOTE ∉ s) /\ (TILDE ∉ s) /\ (WAVE_DASH ∉ s).
Proof.
  rewrite clear_change_line_eq. cbn [rows]. intros Hr Hs.
  apply list_elem_of_filter in Hr as [_ Hr].
  apply list_elem_of_fmap in Hr as (r0 & -> & _).
  apply list_elem_of_fmap in Hs as (c & Hc & _).
  destruct c as [|s0|n| |neg]; try discriminate. injection Hc as ->.
  assert (H : forall d, d ∈ flat_map clean_char s0 ->
                        d <> DQUOTE /\ d <> TILDE /\ d <> WAVE_DASH).
  { intros d Hd. apply list_elem_of_In, in_flat_map in Hd as (c & _ & Hd).
    apply (clean_char_output c), list_elem_of_In, Hd. }
  repeat split; intros Hin; apply H in Hin; tauto.
Qed.

Lemma clear_change_line_no_quote_no_tilde_witness :
  (DQUOTE ∉ [97; HYPHEN; 98]) /\ (TILDE ∉ [97; HYPHEN; 98])
  /\ (WAVE_DASH ∉ [97; HYPHEN; 98]).
Proof.
  apply (clear_change_line_no_quote_no_tilde
           (mkDataFrame [u "h1"; u "h2"]
              [[Str [DQUOTE; 97; TILDE; 98; DQUOTE]; Str (u "c")]])
           [Str [97; HYPHEN; 98]; Str (u "c")]).
  - vm_compute. apply list_elem_of_here.
  - apply list_elem_of_here.
Defined.

(** X12.  [clear_change_line] keeps the rows that have two values or more, in
    their order, and never adds one; it keeps the table rectangular; and it
    empties every rectangular table of fewer than two columns. *)
Theorem clear_change_line_rows (df : DataFrame) :
  Forall (fun r => 2 <= count_notna r)%nat (rows (clear_change_line df))
  /\ rows (clear_change_line df) `sublist_of` map (map clean_cell) (rows df)
  /\ (forall r, r ∈ rows df -> (2 <= count_notna r)%nat ->
                map clean_cell r ∈ rows (clear_change_line df))
  /\ (rectangular df -> rectangular (clear_change_line df))
  /\ (rectangular df -> (length (columns df) < 2)%nat ->
      rows (clear_change_line df) = []).
Proof.
  rewrite clear_change_line_eq. cbn [rows].
  split; [|split; [|split; [|split]]].
  - apply Forall_forall. intros r Hr.
    apply list_elem_of_filter in Hr as [Hr _]. exact Hr.
  - apply sublist_filter.
  - intros r Hr H2. apply list_elem_of_filter. split.
    + rewrite count_notna_clean. exact H2.
    + apply list_elem_of_fmap. eauto.
  - intros H. pose proof (clear_change_line_rectangular df H) as H'.
    rewrite clear_change_line_eq in H'. exact H'.
  - intros Hrect Hcols.
    destruct (filter _ _) as [|r l] eqn:Hf; [reflexivity|]. exfalso.
    assert (Hr : r ∈ filter (fun r => 2 <= count_notna r)%nat
                       (map (map clean_cell) (rows df)))
      by (rewrite Hf; apply list_elem_of_here).
    apply list_elem_of_filter in Hr as [H2 Hr].
    apply list_elem_of_fmap in Hr as (r0 & -> & Hr0).
    eapply Forall_forall in Hrect; [|exact Hr0].
    pose proof (count_notna_le (map clean_cell r0)) as Hle.
    rewrite length_map in Hle. lia.
Qed.

Lemma clear_change_line_rows_witness :
  rows (clear_change_line
          (mkDataFrame [u "only"] [[Str (u "a")]; [Str (u "b")]])) = [].
Proof.
  apply (proj2 (proj2 (proj2 (proj2
           (clear_change_line_rows
              (mkDataFrame [u "only"] [[Str (u "a")]; [Str (u "b")]])))))).
  - repeat constructor.
  - cbn. lia.
Defined.

(** ** Table construction *)

Lemma max_length_bound {A} (data : list (list A)) (r : list A) :
  r ∈ data -> (length r <= foldr Nat.max 0 (map length data))%nat.
Proof.
  induction 1 as [r data|r r' data _ IH]; cbn [map foldr]; lia.
Qed.

Lemma max_length_attained {A} (data : list (list A)) :
  data <> [] ->
  exists r, r ∈ data /\ length r = foldr Nat.max 0%nat (map length data).
Proof.
  induction data as [|r data IH]; [congruence|]. intros _.
  destruct data as [|r' data'].
  - exists r. split; [apply list_elem_of_here|]. cbn. lia.
  - destruct IH as (m & Hm & Hlen); [discriminate|].
    cbn [map foldr] in *.
    destruct (Nat.max_spec (length r)
                (Nat.max (length r') (foldr Nat.max 0%nat (map length data'))))
      as [[_ E]|[_ E]]; rewrite E.
    + exists m. split; [apply list_elem_of_further, Hm | exact Hlen].
    + exists r. split; [apply list_elem_of_here | reflexivity].
Qed.

Lemma new_DataFrame_Ok (data : RawTableGrid) (headers : list str)
    (df : DataFrame) :
  new_DataFrame data headers = Ok df ->
  columns df = headers /\ rectangular df /\
  rows df = map (fun r => map cell_of r
                          ++ replicate (length headers - length r) NA) data /\
  Forall (Forall text_cell) (rows df).
Proof.
  unfold new_DataFrame. destruct data as [|r0 data'] eqn:Hdata.
  - intros [= <-]. repeat split; constructor.
  - rewrite <- Hdata. case_bool_decide as Hw; [|discriminate].
    intros [= <-]. cbn [columns rows].
    assert (Hrows : map (fun r => pad_row (foldr Nat.max 0%nat (map length data))
                                    (map cell_of r)) data
                    = map (fun r => map cell_of r
                                    ++ replicate (length headers - length r) NA)
                        data).
    { apply map_ext. intros r. unfold pad_row.
      rewrite Hw, length_map. reflexivity. }
    rewrite Hrows. split; [reflexivity|]. split; [|split; [reflexivity|]].
    + unfold rectangular. cbn [rows columns]. apply Forall_forall.
      intros r Hr. apply list_elem_of_fmap in Hr as (r1 & -> & Hr1).
      rewrite length_app, length_map, length_replicate.
      pose proof (max_length_bound data r1 Hr1). lia.
    + apply Forall_forall. intros r Hr.
      apply list_elem_of_fmap in Hr as (r1 & -> & _).
      apply Forall_app. split.
      * apply Forall_forall. intros c Hc.
        apply list_elem_of_fmap in Hc as ([s|] & -> & _);
          [right; eauto | left; reflexivity].
      * apply Forall_forall. intros c Hc.
        apply elem_of_replicate in Hc as [-> _]. left. reflexivity.
Qed.

(** X13.  [pd.DataFrame(data, columns=headers)] as the program uses it.  A
    table that is built is rectangular, has the given header, one row per
    data row, each the row's cells followed by missing values up to the
    header's length, and only missing or text cells.  A row longer than the
    header, or a non-empty data whose rows are all shorter than the header,
    raises [ValueError]; nothing else is ever raised. *)
Theorem new_DataFrame_frame (data : RawTableGrid) (headers : list str) :
  (forall df, new_DataFrame data headers = Ok df ->
     columns df = headers /\ rectangular df /\
     rows df = map (fun r => map cell_of r
                             ++ replicate (length headers - length r) NA) data /\
     Forall (Forall text_cell) (rows df))
  /\ (forall e, new_DataFrame data headers = Exc e -> e = ValueError)
  /\ (forall r, r ∈ data -> (length headers < length r)%nat ->
        new_DataFrame data headers = Exc ValueError)
  /\ (data <> [] -> Forall (fun r => length r < length headers)%nat data ->
      new_DataFrame data headers = Exc ValueError).
Proof.
  split; [|split; [|split]].
  - intros df. apply new_DataFrame_Ok.
  - unfold new_DataFrame. intros e. destruct data; [discriminate|].
    case_bool_decide; [discriminate|]. intros [= <-]. reflexivity.
  - unfold new_DataFrame.
    intros r Hr Hlen. destruct data as [|r0 data'] eqn:Hdata; [inversion Hr|].
    rewrite <- Hdata in *. rewrite bool_decide_eq_false_2; [reflexivity|].
    pose proof (max_length_bound data r Hr). lia.
  - unfold new_DataFrame.
    intros Hne Hall. destruct data as [|r0 data'] eqn:Hdata; [congruence|].
    rewrite <- Hdata in *. rewrite bool_decide_eq_false_2; [reflexivity|].
    destruct (max_length_attained data Hne) as (m & Hm & <-).
    eapply Forall_forall in Hall; [|exact Hm]. lia.
Qed.

Lemma new_DataFrame_frame_witness :
  new_DataFrame [[Some (u "v1"); Some (u "v2"); Some (u "v3")]] [u "h1"; u "h2"]
  = Exc ValueError.
Proof.
  apply (proj1 (proj2 (proj2 (new_DataFrame_frame
                                [[Some (u "v1"); Some (u "v2"); Some (u "v3")]]
                                [u "h1"; u "h2"])))
           [Some (u "v1"); Some (u "v2"); Some (u "v3")]).
  - apply list_elem_of_here.
  - cbn. lia.
Defined.

(** ** Page repair and assembly *)

Lemma iloc_no_rows (df : DataFrame) (j : nat) :
  rows df = [] -> iloc df 0 j = Exc IndexError.
Proof. unfold iloc, py_index. intros ->. reflexivity. Qed.

Lemma iloc_Exc (df : DataFrame) (i j : nat) (e : exn) :
  iloc df i j = Exc e -> e = IndexError.
Proof.
  unfold iloc. destruct (py_index (rows df) i) as [r|e1] eqn:H1; rsimpl.
  - intros H. apply py_index_Exc in H as [-> _]. reflexivity.
  - apply py_index_Exc in H1 as [-> _]. intros [= <-]. reflexivity.
Qed.

Lemma delete_title_cases (df df' : DataFrame) :
  delete_title df = Ok df' ->
  df' = drop_rows 1 df \/ df' = clear_change_line df.
Proof.
  unfold delete_title. destruct (iloc df 0 0) as [c|e]; [|discriminate].
  rsimpl. destruct (cell_is STRAY_TITLE c); intros [= <-]; auto.
Qed.

Lemma is_header_echo_Exc (df : DataFrame) (target : str) (e : exn) :
  is_header_echo df target = Exc e -> e = IndexError.
Proof.
  unfold is_header_echo. destruct (iloc df 0 0) as [c0|e0] eqn:H0; rsimpl.
  - destruct (cell_is target c0); [discriminate|].
    case_bool_decide; [|discriminate].
    destruct (iloc df 0 1) as [c1|e1] eqn:H1; rsimpl; [discriminate|].
    intros [= <-]. eapply iloc_Exc, H1.
  - intros [= <-]. eapply iloc_Exc, H0.
Qed.

Lemma delete_headers_cases (df df' : DataFrame) (line_number : nat) :
  delete_headers df line_number = Ok df' ->
  df' = df \/ df' = drop_rows line_number df.
Proof.
  unfold delete_headers.
  generalize [BASIC_INFORMATION; FACILITY_NAME] as targets.
  induction targets as [|target targets IH]; cbn [delete_headers_loop].
  - intros [= <-]. auto.
  - destruct (is_header_echo df target) as [[|]|e]; rsimpl;
      [intros [= <-]; auto | exact IH | discriminate].
Qed.

Lemma delete_headers_Exc (df : DataFrame) (line_number : nat) (e : exn) :
  delete_headers df line_number = Exc e -> e = IndexError.
Proof.
  unfold delete_headers.
  generalize [BASIC_INFORMATION; FACILITY_NAME] as targets.
  induction targets as [|target targets IH]; cbn [delete_headers_loop];
    [discriminate|].
  destruct (is_header_echo df target) as [[|]|e'] eqn:H; rsimpl;
    [discriminate | exact IH |].
  intros [= <-]. eapply is_header_echo_Exc, H.
Qed.

(** X14.  A page on which the row cleaner leaves no row makes
    [fix_format_page_df] raise [IndexError] -- it reads the first cell of the
    cleaned page -- and [IndexError] is all it ever raises. *)
Theorem fix_format_page_df_errors (df : DataFrame) (line_number : nat) :
  (rows (clear_change_line df) = [] ->
   fix_format_page_df df line_number = Exc IndexError)
  /\ (forall e, fix_format_page_df df line_number = Exc e -> e = IndexError).
Proof.
  unfold fix_format_page_df. cbv zeta. split.
  - intros H. unfold delete_title. rewrite (iloc_no_rows _ 0 H). reflexivity.
  - intros e. destruct (delete_title (clear_change_line df)) as [df1|e1] eqn:H1;
      rsimpl.
    + apply delete_headers_Exc.
    + intros [= <-]. unfold delete_title in H1.
      destruct (iloc (clear_change_line df) 0 0) as [c|e0] eqn:H0; rsimpl in H1.
      * destruct (cell_is STRAY_TITLE c); discriminate.
      * injection H1 as <-. eapply iloc_Exc, H0.
Qed.

Lemma fix_format_page_df_errors_witness :
  fix_format_page_df
    (mkDataFrame [u "h1"; u "h2"] [[Str (u "page 2"); NA]; [NA; NA]]) 1
  = Exc IndexError.
Proof.
  apply (proj1 (fix_format_page_df_errors
                  (mkDataFrame [u "h1"; u "h2"]
                     [[Str (u "page 2"); NA]; [NA; NA]]) 1)).
  vm_compute. reflexivity.
Defined.

Lemma fix_format_page_df_Ok (df df' : DataFrame) (line_number : nat) :
  fix_format_page_df df line_number = Ok df' ->
  columns df' = columns df
  /\ exists k, (k <= 1 + line_number)%nat /\
               rows df' = drop k (rows (clear_change_line df)).
Proof.
  unfold fix_format_page_df. cbv zeta.
  destruct (delete_title (clear_change_line df)) as [df1|e1] eqn:H1;
    [|discriminate].
  rsimpl. intros H2.
  apply delete_title_cases in H1. apply delete_headers_cases in H2.
  rewrite clear_change_line_twice in H1.
  destruct H1 as [-> | ->], H2 as [-> | ->]; cbn [drop_rows columns rows];
    rewrite ?clear_change_line_columns; (split; [reflexivity|]).
  - exists 1%nat. split; [lia | reflexivity].
  - exists (1 + line_number)%nat. split; [lia|]. rewrite drop_drop. reflexivity.
  - exists 0%nat. split; [lia | reflexivity].
  - exists line_number. split; [lia | reflexivity].
Qed.

(** X15.  What [fix_format_page_df] returns is the cleaned page without some
    of its leading rows, at most one (a stray title) plus [line_number] (a
    header echo), under the same header. *)
Theorem fix_format_page_df_rows (df df' : DataFrame) (line_number : nat) :
  fix_format_page_df df line_number = Ok df' ->
  columns df' = columns df
  /\ exists k, (k <= 1 + line_number)%nat /\
               rows df' = drop k (rows (clear_change_line df)).
Proof. apply fix_format_page_df_Ok. Qed.

Lemma fix_format_page_df_rows_witness :
  columns (mkDataFrame [u "h1"; u "h2"] [[Str (u "v1"); Str (u "v2")]])
  = columns (mkDataFrame [u "h1"; u "h2"]
               [[Str FACILITY_NAME; Str (u "住所")];
                [Str (u "v1"); Str (u "v2")]])
  /\ exists k, (k <= 1 + 1)%nat /\
       rows (mkDataFrame [u "h1"; u "h2"] [[Str (u "v1"); Str (u "v2")]])
       = drop k (rows (clear_change_line
                         (mkDataFrame [u "h1"; u "h2"]
                            [[Str FACILITY_NAME; Str (u "住所")];
                             [Str (u "v1"); Str (u "v2")]]))).
Proof.
  apply (fix_format_page_df_rows
           (mkDataFrame [u "h1"; u "h2"]
              [[Str FACILITY_NAME; Str (u "住所")];
               [Str (u "v1"); Str (u "v2")]])
           (mkDataFrame [u "h1"; u "h2"] [[Str (u "v1"); Str (u "v2")]]) 1).
  vm_compute. reflexivity.
Defined.

Lemma clean_cell_text (c : cell) : text_cell c -> text_cell (clean_cell c).
Proof. intros [->|[s ->]]; [left; reflexivity | right; cbn; eauto]. Qed.

Lemma clear_change_line_assembled (headers : list str) (df : DataFrame) :
  columns df = headers -> rectangular df ->
  Forall (Forall text_cell) (rows df) ->
  assembled headers (clear_change_line df).
Proof.
  intros Hc Hr Ht. unfold assembled.
  split; [rewrite clear_change_line_columns; exact Hc|].
  split; [apply clear_change_line_rectangular, Hr|].
  split; [apply clear_change_line_two_values|].
  rewrite clear_change_line_eq. cbn [rows]. apply Forall_forall.
  intros r Hin. apply list_elem_of_filter in Hin as [_ Hin].
  apply list_elem_of_fmap in Hin as (r0 & -> & Hr0).
  eapply Forall_forall in Ht; [|exact Hr0].
  apply Forall_forall. intros c Hcin.
  apply list_elem_of_fmap in Hcin as (c0 & -> & Hc0).
  apply clean_cell_text. eapply Forall_forall in Ht; [exact Ht | exact Hc0].
Qed.

Lemma assemble_page_assembled (headers : list str) (table : RawTableGrid)
    (page_df page_df' : DataFrame) :
  new_DataFrame table headers = Ok page_df ->
  fix_format_page_df page_df 1 = Ok page_df' ->
  assembled headers (clear_change_line page_df').
Proof.
  intros Hnew Hfix.
  apply new_DataFrame_Ok in Hnew as (Hc & Hr & _ & Ht).
  pose proof (clear_change_line_assembled headers page_df Hc Hr Ht)
    as (Hc1 & Hr1 & _ & Ht1).
  apply fix_format_page_df_Ok in Hfix as (Hc' & k & _ & Hrows).
  apply clear_change_line_assembled.
  - congruence.
  - unfold rectangular in *. rewrite Hrows, Hc', <- (clear_change_line_columns page_df).
    apply Forall_drop, Hr1.
  - rewrite Hrows. apply Forall_drop, Ht1.
Qed.

Lemma concat_assembled (headers : list str) (df1 df2 : DataFrame) :
  assembled headers df1 -> assembled headers df2 ->
  assembled headers (concat df1 df2).
Proof.
  intros (Hc1 & Hr1 & Hn1 & Ht1) (Hc2 & Hr2 & Hn2 & Ht2).
  unfold assembled, rectangular, concat in *. cbn [columns rows].
  split; [exact Hc1|]. rewrite !Forall_app.
  rewrite Hc2, <- Hc1 in Hr2. auto.
Qed.

Lemma assemble_pages_assembled (headers : list str)
    (pages : list (option RawTableGrid)) (df df' : DataFrame) :
  assemble_pages headers df pages = Ok df' ->
  assembled headers df ->
  assembled headers df' /\ exists later, rows df' = rows df ++ later.
Proof.
  revert df. induction pages as [|table pages IH]; intros df;
    cbn [assemble_pages].
  - intros [= <-] H. split; [exact H|]. exists []. rewrite app_nil_r. reflexivity.
  - destruct table as [[|r t]|]; rsimpl; try apply IH.
    destruct (new_DataFrame (r :: t) headers) as [page_df|e] eqn:Hnew;
      [|discriminate].
    rsimpl.
    destruct (fix_format_page_df page_df 1) as [page_df'|e] eqn:Hfix;
      [|discriminate].
    rsimpl. intros Hrest Hdf.
    destruct (IH _ Hrest) as (H' & later & Hrows).
    + apply concat_assembled; [exact Hdf|].
      eapply assemble_page_assembled; eauto.
    + split; [exact H'|]. cbn [concat rows] in Hrows.
      exists (rows (clear_change_line page_df') ++ later).
      rewrite Hrows, app_assoc. reflexivity.
Qed.

(** X16.  The table that [assemble] returns carries the headers of the first
    page, is rectangular, has two values or more in every row, holds only
    missing or text cells, and starts with the cleaned rows of the first
    page, in their order; the later pages only add rows after them. *)
Theorem assemble_table (pages : list (option RawTableGrid))
    (prefecture_name : str) (df : DataFrame) :
  assemble pages prefecture_name = Ok (Some df) ->
  exists (first_table : RawTableGrid) (headers : list str)
         (data : RawTableGrid) (first_df : DataFrame),
    pages !! 0%nat = Some (Some first_table) /\
    get_first_page first_table prefecture_name = Ok (headers, data) /\
    new_DataFrame data headers = Ok first_df /\
    assembled headers df /\
    exists later, rows df = rows (clear_change_line first_df) ++ later.
Proof.
  unfold assemble.
  destruct (py_index pages 0%nat) as [first|e] eqn:H0; rsimpl; [|discriminate].
  apply py_index_Ok in H0.
  destruct first as [first_table|]; [|discriminate].
  case_bool_decide; [discriminate|].
  destruct (get_first_page first_table prefecture_name) as [[headers data]|e]
    eqn:Hpage; rsimpl; [|discriminate].
  cbn [fst snd].
  destruct (new_DataFrame data headers) as [first_df|e] eqn:Hnew; rsimpl;
    [|discriminate].
  destruct (assemble_pages headers (clear_change_line first_df) (drop 1 pages))
    as [df'|e] eqn:Hrest; rsimpl; [|discriminate].
  intros [= <-].
  exists first_table, headers, data, first_df.
  split; [exact H0|]. split; [exact Hpage|]. split; [exact Hnew|].
  apply (assemble_pages_assembled _ _ _ _ Hrest).
  apply new_DataFrame_Ok in Hnew as (Hc & Hr & _ & Ht).
  apply clear_change_line_assembled; assumption.
Qed.

Lemma assemble_table_witness :
  exists (first_table : RawTableGrid) (headers : list str)
         (data : RawTableGrid) (first_df : DataFrame),
    postal_page 1 !! 0%nat = Some (Some first_table) /\
    get_first_page first_table (u "東京都") = Ok (headers, data) /\
    new_DataFrame data headers = Ok first_df /\
    assembled headers
      (mkDataFrame [u "施設名"; POSTAL_CODE; ADDRESS]
         [[Str (u "芝病院"); Str (u "105-0011"); Str (u "港区芝公園4-2-8")]]) /\
    exists later,
      rows (mkDataFrame [u "施設名"; POSTAL_CODE; ADDRESS]
              [[Str (u "芝病院"); Str (u "105-0011");
                Str (u "港区芝公園4-2-8")]])
      = rows (clear_change_line first_df) ++ later.
Proof.
  apply (assemble_table (postal_page 1) (u "東京都")).
  vm_compute. reflexivity.
Defined.

(** ** The resolver, step by step *)

(** What step 1 writes for one record. *)
Lemma main_postal_lookup_pair (index : gmap str (cell * cell))
    (df df1 : DataFrame) (i : nat) (code : cell) :
  rectangular df -> main_postal_lookup index df = Ok df1 ->
  has_col POSTAL_CODE df = true ->
  cell_at df i POSTAL_CODE = Some code ->
  exists p,
    (if notna code then postal2location index code
     else Ok (Str [], Str [])) = Ok p /\
    cell_at df1 i REGION = Some p.1 /\ cell_at df1 i LOCALITY = Some p.2.
Proof.
  intros Hrect Hrun Hcol Hcode. unfold main_postal_lookup in Hrun.
  rewrite Hcol in Hrun.
  destruct (get_col POSTAL_CODE df) as [codes|e] eqn:Hget; [|discriminate].
  rsimpl in Hrun.
  destruct (apply _ codes) as [pairs|e] eqn:Happ; [|discriminate].
  rsimpl in Hrun.
  destruct (unzip_pairs pairs) as [cols|e] eqn:Hz; [|discriminate].
  rsimpl in Hrun. apply unzip_pairs_Ok in Hz. subst cols. cbn [fst snd] in Hrun.
  injection Hrun as <-.
  apply apply_lookup in Happ as [Hlen Hall].
  pose proof (get_col_cell_at _ _ _ _ _ Hget Hcode) as Hi.
  apply get_col_length in Hget.
  destruct (Hall i code Hi) as (p & Hp & Hf).
  exists p. split; [exact Hf|].
  pose proof (cell_at_row_lt _ _ _ _ Hcode) as Hlt.
  assert (Hl1 : length (rows df) = length (map fst pairs))
    by (rewrite length_map; congruence).
  pose proof (rectangular_set_col REGION (map fst pairs) df Hrect) as Hrect1.
  pose proof (set_col_rows_length REGION _ df Hl1) as Hrows1.
  assert (Hl2 : length (rows (set_col REGION (map fst pairs) df))
                = length (map snd pairs))
    by (rewrite Hrows1, length_map; congruence).
  split.
  - rewrite cell_at_set_col_ne
      by (first [exact Hrect1 | exact Hl2 | apply names_distinct]).
    apply cell_at_set_col_eq; [exact Hrect | exact Hlt|].
    rewrite list_lookup_fmap, Hp. reflexivity.
  - apply cell_at_set_col_eq; [exact Hrect1 | lia|].
    rewrite list_lookup_fmap, Hp. reflexivity.
Qed.

(** X17.  Step 1, record by record: a code that the dictionary has, hyphens
    apart, puts that entry's region and municipality in the record; a code
    that it does not have, and a missing code, put two empty texts; and no
    column but those two is changed. *)
Theorem main_postal_lookup_record (index : gmap str (cell * cell))
    (df df1 : DataFrame) :
  rectangular df ->
  resolver_columns_unique df ->
  has_col POSTAL_CODE df = true ->
  main_postal_lookup index df = Ok df1 ->
  (forall i s v,
     cell_at df i POSTAL_CODE = Some (Str s) ->
     index !! replace_char HYPHEN [] s = Some v ->
     cell_at df1 i REGION = Some v.1 /\ cell_at df1 i LOCALITY = Some v.2)
  /\ (forall i s,
        cell_at df i POSTAL_CODE = Some (Str s) ->
        index !! replace_char HYPHEN [] s = None ->
        cell_at df1 i REGION = Some (Str []) /\
        cell_at df1 i LOCALITY = Some (Str []))
  /\ (forall i x,
        cell_at df i POSTAL_CODE = Some x -> notna x = false ->
        cell_at df1 i REGION = Some (Str []) /\
        cell_at df1 i LOCALITY = Some (Str []))
  /\ (forall i other,
        other <> REGION -> other <> LOCALITY ->
        cell_at df1 i other = cell_at df i other).
Proof.
  intros Hrect _ Hcol Hrun. split; [|split; [|split]].
  - intros i s v Hc Hk.
    destruct (main_postal_lookup_pair _ _ _ _ _ Hrect Hrun Hcol Hc)
      as (p & Hp & HR & HL).
    cbn [notna postal2location] in Hp. rewrite Hk in Hp.
    injection Hp as <-. auto.
  - intros i s Hc Hk.
    destruct (main_postal_lookup_pair _ _ _ _ _ Hrect Hrun Hcol Hc)
      as (p & Hp & HR & HL).
    cbn [notna postal2location] in Hp. rewrite Hk in Hp.
    injection Hp as <-. auto.
  - intros i x Hc Hna.
    destruct (main_postal_lookup_pair _ _ _ _ _ Hrect Hrun Hcol Hc)
      as (p & Hp & HR & HL).
    rewrite Hna in Hp. injection Hp as <-. auto.
  - apply (main_postal_lookup_frame index df df1 Hrect Hrun).
Qed.

Lemma main_postal_lookup_record_witness :
  cell_at demo_df1 0 REGION = Some (Str (u "東京都"))
  /\ cell_at demo_df1 0 LOCALITY = Some (Str (u "千代田区")).
Proof.
  refine (proj1 (main_postal_lookup_record demo_index demo_df demo_df1 _ _ _ _)
            0%nat (u "100-0001") (Str (u "東京都"), Str (u "千代田区")) _ _).
  - repeat constructor.
  - unfold resolver_columns_unique. repeat constructor; vm_compute; lia.
  - vm_compute. reflexivity.
  - vm_compute. reflexivity.
  - vm_compute. reflexivity.
  - vm_compute. reflexivity.
Defined.

Lemma get_col_set_col_eq (name : str) (values : list cell) (df : DataFrame) :
  rectangular df -> has_col name df = true ->
  length (rows df) = length values ->
  get_col name (set_col name values df) = Ok values.
Proof.
  intros Hrect Hcol Hlen. apply has_col_index in Hcol as [j Hj].
  unfold get_col, set_col. rewrite Hj. cbn [columns rows]. rewrite Hj.
  f_equal. apply list_eq. intros i. rewrite list_lookup_fmap, lookup_zip_with.
  destruct (rows df !! i) as [r|] eqn:Hr; cbn.
  - destruct (values !! i) as [v|] eqn:Hv; cbn.
    + rewrite list_lookup_insert_eq; [reflexivity|].
      eapply Forall_forall in Hrect;
        [|eapply list_elem_of_lookup_2, Hr].
      apply col_index_lt in Hj. lia.
    + apply lookup_ge_None in Hv. apply lookup_lt_Some in Hr. lia.
  - symmetry. apply lookup_ge_None. apply lookup_ge_None in Hr. lia.
Qed.

Lemma contains_prepended (pat s : str) : contains pat (pat ++ s) = true.
Proof.
  assert (H : is_prefix pat (pat ++ s) = true)
    by (apply is_prefix_spec; eauto).
  destruct (pat ++ s); cbn [contains]; rewrite H; reflexivity.
Qed.

Lemma existsb_id_map_false {A} (f : A -> bool) (l : list A) :
  Forall (fun x => f x = false) l -> existsb id (map f l) = false.
Proof.
  induction 1 as [|x l Hx _ IH]; [reflexivity|].
  cbn [map existsb]. unfold id at 1. rewrite Hx, IH. reflexivity.
Qed.

(** X18.  The address repair is idempotent: repairing a repaired table
    changes nothing, since every address text then contains the prefecture
    name. *)
Theorem main_prepend_prefecture_idempotent (prefecture_name : str)
    (df df2 : DataFrame) :
  regex_literal prefecture_name ->
  rectangular df ->
  resolver_columns_unique df ->
  main_prepend_prefecture prefecture_name df = Ok df2 ->
  main_prepend_prefecture prefecture_name df2 = Ok df2.
Proof.
  intros _ Hrect _ Hrun. pose proof Hrun as Hrun0.
  unfold main_prepend_prefecture in Hrun.
  destruct (get_col ADDRESS df) as [addresses|e] eqn:Hget; [|discriminate].
  rsimpl in Hrun.
  destruct (existsb id (map (lacks_prefecture prefecture_name) addresses))
    eqn:Hany; injection Hrun as <-; [|exact Hrun0].
  unfold main_prepend_prefecture.
  rewrite get_col_set_col_eq;
    [|exact Hrect | eapply get_col_has_col, Hget|].
  2:{ rewrite length_zip_with, length_map.
      apply get_col_length in Hget. lia. }
  rsimpl. rewrite existsb_id_map_false; [reflexivity|].
  apply Forall_forall. intros x Hx.
  apply list_elem_of_lookup in Hx as [i Hi].
  rewrite lookup_zip_with, list_lookup_fmap in Hi.
  destruct (addresses !! i) as [a|]; [|discriminate]. cbn in Hi.
  injection Hi as <-.
  destruct a as [|s|n| |neg]; cbn [lacks_prefecture prepend negb]; try reflexivity.
  destruct (contains prefecture_name s) eqn:Hc; cbn [negb prepend lacks_prefecture].
  - rewrite Hc. reflexivity.
  - rewrite contains_prepended. reflexivity.
Qed.

Lemma main_prepend_prefecture_idempotent_witness :
  main_prepend_prefecture (u "東京都") demo_df2 = Ok demo_df2.
Proof.
  apply (main_prepend_prefecture_idempotent (u "東京都") demo_df1 demo_df2).
  - apply (bool_decide_unpack (regex_literal (u "東京都"))). vm_compute. exact I.
  - repeat constructor.
  - unfold resolver_columns_unique. repeat constructor; vm_compute; lia.
  - vm_compute. reflexivity.
Defined.

(** X19.  Step 3, record by record: a record with an address cell gets what
    [address_to_coordinates] returns for it -- the numbers (0, 0) when the
    text is empty -- and a record whose address is missing gets the two
    texts "0", without a call; no column but the two coordinate columns is
    changed. *)
Theorem main_geocode_record (geocode : cell -> geo_response)
    (df df3 : DataFrame) :
  rectangular df ->
  resolver_columns_unique df ->
  main_geocode geocode df = Ok df3 ->
  (forall i x,
     cell_at df i ADDRESS = Some x -> notna x = true ->
     exists latitude longitude,
       address_to_coordinates geocode x = Ok (latitude, longitude) /\
       cell_at df3 i LATITUDE = Some latitude /\
       cell_at df3 i LONGITUDE = Some longitude)
  /\ (forall i,
        cell_at df i ADDRESS = Some (Str []) ->
        cell_at df3 i LATITUDE = Some (Num 0) /\
        cell_at df3 i LONGITUDE = Some (Num 0))
  /\ (forall i x,
        cell_at df i ADDRESS = Some x -> notna x = false ->
        cell_at df3 i LATITUDE = Some (Str (u "0")) /\
        cell_at df3 i LONGITUDE = Some (Str (u "0")))
  /\ (forall i other,
        other <> LATITUDE -> other <> LONGITUDE ->
        cell_at df3 i other = cell_at df i other).
Proof.
  intros Hrect _ Hrun.
  assert (Hrec : forall i x,
             cell_at df i ADDRESS = Some x ->
             exists p,
               (if notna x then address_to_coordinates geocode x
                else Ok (Str (u "0"), Str (u "0"))) = Ok p /\
               cell_at df3 i LATITUDE = Some p.1 /\
               cell_at df3 i LONGITUDE = Some p.2).
  { intros i x Hx. unfold main_geocode in Hrun.
    destruct (get_col ADDRESS df) as [addresses|e] eqn:Hget; [|discriminate].
    rsimpl in Hrun.
    destruct (apply _ addresses) as [pairs|e] eqn:Happ; [|discriminate].
    rsimpl in Hrun.
    destruct (unzip_pairs pairs) as [cols|e] eqn:Hz; [|discriminate].
    rsimpl in Hrun. apply unzip_pairs_Ok in Hz. subst cols.
    cbn [fst snd] in Hrun. injection Hrun as <-.
    apply apply_lookup in Happ as [Hlen Hall].
    pose proof (get_col_cell_at _ _ _ _ _ Hget Hx) as Hi.
    apply get_col_length in Hget.
    destruct (Hall i x Hi) as (p & Hp & Hf). exists p. split; [exact Hf|].
    pose proof (cell_at_row_lt _ _ _ _ Hx) as Hlt.
    assert (Hl1 : length (rows df) = length (map fst pairs))
      by (rewrite length_map; congruence).
    pose proof (rectangular_set_col LATITUDE (map fst pairs) df Hrect) as Hrect1.
    pose proof (set_col_rows_length LATITUDE _ df Hl1) as Hrows1.
    assert (Hl2 : length (rows (set_col LATITUDE (map fst pairs) df))
                  = length (map snd pairs))
      by (rewrite Hrows1, length_map; congruence).
    split.
    - rewrite cell_at_set_col_ne
        by (first [exact Hrect1 | exact Hl2 | apply lat_lon_distinct]).
      apply cell_at_set_col_eq; [exact Hrect | exact Hlt|].
      rewrite list_lookup_fmap, Hp. reflexivity.
    - apply cell_at_set_col_eq; [exact Hrect1 | lia|].
      rewrite list_lookup_fmap, Hp. reflexivity. }
  split; [|split; [|split]].
  - intros i x Hx Hna. destruct (Hrec i x Hx) as ([lat lon] & Hp & H1 & H2).
    rewrite Hna in Hp. eauto.
  - intros i Hx. destruct (Hrec i _ Hx) as (p & Hp & H1 & H2).
    cbn in Hp. injection Hp as <-. auto.
  - intros i x Hx Hna. destruct (Hrec i _ Hx) as (p & Hp & H1 & H2).
    rewrite Hna in Hp. injection Hp as <-. auto.
  - apply (main_geocode_frame geocode df df3 Hrect Hrun).
Qed.

Lemma main_geocode_record_witness :
  cell_at demo_df3 1 LATITUDE = Some (Num 35658000)
  /\ cell_at demo_df3 1 ADDRESS = Some (Str (u "東京都港区芝公園4-2-8")).
Proof.
  pose proof (main_geocode_record demo_geocode demo_df2 demo_df3) as H.
  destruct H as (Hrec & _ & _ & Hother).
  - repeat constructor.
  - unfold resolver_columns_unique. repeat constructor; vm_compute; lia.
  - vm_compute. reflexivity.
  - split.
    + destruct (Hrec 1%nat (Str (u "東京都港区芝公園4-2-8")))
        as (lat & lon & Ha & Hlat & _); [reflexivity | reflexivity|].
      rewrite Hlat. vm_compute in Ha. congruence.
    + rewrite Hother by (vm_compute; discriminate). reflexivity.
Defined.

Lemma get_col_no_rows (name : str) (df : DataFrame) :
  rows df = [] -> has_col name df = true -> get_col name df = Ok [].
Proof.
  intros Hrows Hcol. apply has_col_index in Hcol as [j Hj].
  unfold get_col. rewrite Hj, Hrows. reflexivity.
Qed.

(** X20.  A table without rows that has a postal-code or an address column
    makes the resolver raise [ValueError]: the assignment of the two new
    columns has nothing to unpack. *)
Theorem resolve_no_rows (geocode : cell -> geo_response)
    (index : gmap str (cell * cell)) (prefecture_name : str) (df : DataFrame) :
  rows df = [] ->
  has_col POSTAL_CODE df = true \/ has_col ADDRESS df = true ->
  resolve geocode index prefecture_name df = Exc ValueError.
Proof.
  intros Hrows Hcols. unfold resolve, main_postal_lookup.
  destruct (has_col POSTAL_CODE df) eqn:Hp.
  - rewrite (get_col_no_rows _ _ Hrows Hp). reflexivity.
  - destruct Hcols as [|Ha]; [discriminate|]. rsimpl. rewrite Ha.
    unfold main_prepend_prefecture.
    rewrite (get_col_no_rows _ _ Hrows Ha). rsimpl. cbn [map existsb].
    rsimpl. unfold main_geocode.
    rewrite (get_col_no_rows _ _ Hrows Ha). reflexivity.
Qed.

Lemma resolve_no_rows_witness :
  resolve demo_geocode demo_index (u "東京都")
    (mkDataFrame [u "施設名"; POSTAL_CODE; ADDRESS] [])
  = Exc ValueError.
Proof.
  apply resolve_no_rows.
  - reflexivity.
  - left. vm_compute. reflexivity.
Defined.

(** X21.  Without an address column the resolver is the postal lookup alone:
    no request is made, whatever the service is, and no coordinate column is
    created; without a postal-code column either, the table is returned as
    it is. *)
Theorem resolve_without_address (geocode : cell -> geo_response)
    (index : gmap str (cell * cell)) (prefecture_name : str) (df : DataFrame) :
  rectangular df ->
  has_col ADDRESS df = false ->
  resolve geocode index prefecture_name df = main_postal_lookup index df
  /\ (forall df', resolve geocode index prefecture_name df = Ok df' ->
        has_col LATITUDE df' = has_col LATITUDE df /\
        has_col LONGITUDE df' = has_col LONGITUDE df)
  /\ (has_col POSTAL_CODE df = false ->
      resolve geocode index prefecture_name df = Ok df).
Proof.
  intros Hrect Ha.
  assert (E : resolve geocode index prefecture_name df
              = main_postal_lookup index df).
  { unfold resolve.
    destruct (main_postal_lookup index df) as [df1|e] eqn:H1; [|reflexivity].
    rsimpl.
    destruct (main_postal_lookup_frame _ _ _ Hrect H1) as (_ & _ & _ & Hcols).
    rewrite Hcols by (apply not_eq_sym, names_distinct). rewrite Ha.
    reflexivity. }
  split; [exact E|]. split.
  - intros df' H. rewrite E in H.
    destruct (main_postal_lookup_frame _ _ _ Hrect H) as (_ & _ & _ & Hcols).
    split; apply Hcols; apply not_eq_sym, names_distinct.
  - intros Hp. rewrite E. apply main_postal_lookup_skipped, Hp.
Qed.

Lemma resolve_without_address_witness :
  resolve no_candidate_geocode demo_index (u "東京都")
    (mkDataFrame [u "施設名"; POSTAL_CODE]
       [[Str (u "千代田病院"); Str (u "100-0001")]])
  = main_postal_lookup demo_index
      (mkDataFrame [u "施設名"; POSTAL_CODE]
         [[Str (u "千代田病院"); Str (u "100-0001")]]).
Proof.
  apply resolve_without_address.
  - repeat constructor.
  - vm_compute. reflexivity.
Defined.

(** ** The driver, once more *)

Lemma main_from_length (w : world) (index : gmap str (cell * cell))
    (prefectures : gmap str str) (i : nat) (l : list str) :
  length (main_from w index prefectures i l) = (2 * length l)%nat.
Proof.
  revert i. induction l as [|p l IH]; intros i; [reflexivity|].
  cbn [main_from]. rewrite length_app, IH. unfold main_iteration.
  destruct (try_prefecture w index i _) as [[df|]|e]; cbn [length]; lia.
Qed.

Lemma main_from_files (w : world) (index : gmap str (cell * cell))
    (prefectures : gmap str str) (j : nat) (l : list str)
    (i : nat) (prefecture : str) (df : DataFrame) :
  ToCsv i prefecture df ∈ main_from w index prefectures j l ->
  (j <= i)%nat /\ l !! (i - j)%nat = Some prefecture /\
  try_prefecture w index i (get_prefecture_name prefectures prefecture)
  = Ok (Some df).
Proof.
  revert j. induction l as [|p l IH]; intros j; cbn [main_from].
  - intros H. inversion H.
  - intros H. apply elem_of_app in H as [H|H].
    + unfold main_iteration in H. apply elem_of_cons in H as [H|H];
        [discriminate|].
      destruct (try_prefecture w index j (get_prefecture_name prefectures p))
        as [[d|]|e] eqn:Ht;
        apply list_elem_of_singleton in H; try discriminate.
      injection H as -> -> ->. rewrite Nat.sub_diag. auto.
    + apply IH in H as (Hle & Hl & Ht).
      split; [lia|]. split; [|exact Ht].
      replace (i - j)%nat with (S (i - S j)) by lia. exact Hl.
Qed.

(** X22.  A run prints or writes exactly two things per prefecture, and every
    file it writes is numbered with the position, counted from 1, of a
    prefecture of the list, named with that prefecture's key, and holds the
    table that this prefecture's document resolves to. *)
Theorem main_files (w : world) (index : gmap str (cell * cell))
    (prefectures : gmap str str) (PREFECTURES : list str) :
  length (main w index prefectures PREFECTURES) = (2 * length PREFECTURES)%nat
  /\ forall (i : nat) (prefecture : str) (df : DataFrame),
       ToCsv i prefecture df ∈ main w index prefectures PREFECTURES ->
       (1 <= i)%nat /\ PREFECTURES !! (i - 1)%nat = Some prefecture /\
       try_prefecture w index i (get_prefecture_name prefectures prefecture)
       = Ok (Some df).
Proof.
  split; [apply main_from_length|].
  intros i prefecture df. apply main_from_files.
Qed.

Lemma main_files_witness :
  sample_prefectures.2 !! (1 - 1)%nat = Some (u "tokyo").
Proof.
  pose proof (main_files (sample_world postal_page demo_geocode) no_index
                sample_prefectures.1 sample_prefectures.2) as [_ H].
  refine (proj1 (proj2 (H 1%nat (u "tokyo")
            (mkDataFrame
               [u "施設名"; POSTAL_CODE; ADDRESS; REGION; LOCALITY; LATITUDE;
                LONGITUDE]
               [[Str (u "芝病院"); Str (u "105-0011");
                 Str (u "東京都港区芝公園4-2-8"); Str (u "東京都");
                 Str (u "港区"); Num 35658000; Num 139745000]]) _))).
  vm_compute. apply list_elem_of_further, list_elem_of_here.
Defined.

(** X23.  The directory of a prefecture.  A listing that fails, an empty
    directory, a document that cannot be opened and a document without pages
    each end the prefecture's turn with the error printed and no file; and
    only the first listed file is read: two runs that differ in the other
    file names of a directory do the same. *)
Theorem main_iteration_directory (w : world)
    (index : gmap str (cell * cell)) (prefectures : gmap str str)
    (i : nat) (prefecture : str) :
  (forall e, listdir w i = Exc e ->
     main_iteration w index prefectures i prefecture
     = [Print (PrefectureNumber i (get_prefecture_name prefectures prefecture)
                 prefecture);
        Print (Error e)])
  /\ (listdir w i = Ok [] ->
      main_iteration w index prefectures i prefecture
      = [Print (PrefectureNumber i (get_prefecture_name prefectures prefecture)
                  prefecture);
         Print (Error IndexError)])
  /\ (forall file files e,
        listdir w i = Ok (file :: files) -> pdf_open w i file = Exc e ->
        main_iteration w index prefectures i prefecture
        = [Print (PrefectureNumber i
                    (get_prefecture_name prefectures prefecture) prefecture);
           Print (Error e)])
  /\ (forall file files,
        listdir w i = Ok (file :: files) -> pdf_open w i file = Ok [] ->
        main_iteration w index prefectures i prefecture
        = [Print (PrefectureNumber i
                    (get_prefecture_name prefectures prefecture) prefecture);
           Print (Error IndexError)])
  /\ (forall (w' : world) file files files',
        listdir w i = Ok (file :: files) ->
        listdir w' i = Ok (file :: files') ->
        pdf_open w' i file = pdf_open w i file ->
        geocoder w' = geocoder w ->
        main_iteration w' index prefectures i prefecture
        = main_iteration w index prefectures i prefecture).
Proof.
  split; [|split; [|split; [|split]]].
  - intros e H. apply main_iteration_Exc. unfold try_prefecture.
    rewrite H. reflexivity.
  - intros H. apply main_iteration_Exc. unfold try_prefecture.
    rewrite H. reflexivity.
  - intros file files e Hl Hp. apply main_iteration_Exc.
    unfold try_prefecture. rewrite Hl. rsimpl.
    cbn [py_index lookup list_lookup]. rsimpl. rewrite Hp. reflexivity.
  - intros file files Hl Hp. apply main_iteration_Exc.
    unfold try_prefecture. rewrite Hl. rsimpl.
    cbn [py_index lookup list_lookup]. rsimpl. rewrite Hp. reflexivity.
  - intros w' file files files' Hl Hl' Hp Hg.
    unfold main_iteration, try_prefecture. rewrite Hl, Hl'. rsimpl.
    cbn [py_index lookup list_lookup]. rsimpl. rewrite Hp, Hg. reflexivity.
Qed.

Lemma main_iteration_directory_witness :
  main_iteration (mkWorld (fun _ => Ok []) (fun _ _ => Ok []) demo_geocode)
    no_index sample_prefectures.1 1 (u "tokyo")
  = [Print (PrefectureNumber 1 (u "東京都") (u "tokyo"));
     Print (Error IndexError)].
Proof.
  apply (proj1 (proj2 (main_iteration_directory
                         (mkWorld (fun _ => Ok []) (fun _ _ => Ok [])
                            demo_geocode)
                         no_index sample_prefectures.1 1 (u "tokyo")))).
  reflexivity.
Defined.

(** ** Header echoes *)

Lemma is_header_echo_first (df : DataFrame) (target : str) (c0 : cell)
    (cells : list cell) (rest : list (list cell)) :
  rows df = (c0 :: cells) :: rest ->
  is_header_echo df target
  = if cell_is target c0 then Ok true
    else if bool_decide (1 < length (columns df))%nat
         then match cells with
              | c1 :: _ => Ok (cell_is target c1)
              | [] => Exc IndexError
              end
         else Ok false.
Proof.
  intros H. unfold is_header_echo, iloc. rewrite H.
  cbn [py_index lookup list_lookup]. rsimpl.
  cbn [py_index lookup list_lookup]. rsimpl.
  destruct (cell_is target c0); [reflexivity|].
  case_bool_decide; [|reflexivity].
  destruct cells; reflexivity.
Qed.

(** X24.  [delete_headers] drops the first [line_number] rows of a page
    exactly when the page's first row echoes a header: its first cell, or its
    second cell when the table has two columns or more, is one of the two
    known labels.  Otherwise the page is returned as it is. *)
Theorem delete_headers_echo (df : DataFrame) (line_number : nat)
    (c0 c1 : cell) (cells : list cell) (rest : list (list cell)) :
  rows df = (c0 :: c1 :: cells) :: rest ->
  (1 < length (columns df))%nat ->
  (c0 = Str BASIC_INFORMATION \/ c0 = Str FACILITY_NAME \/
   c1 = Str BASIC_INFORMATION \/ c1 = Str FACILITY_NAME ->
   delete_headers df line_number = Ok (drop_rows line_number df))
  /\ (c0 <> Str BASIC_INFORMATION -> c0 <> Str FACILITY_NAME ->
      c1 <> Str BASIC_INFORMATION -> c1 <> Str FACILITY_NAME ->
      delete_headers df line_number = Ok df).
Proof.
  intros Hrows Hcols. unfold delete_headers. cbn [delete_headers_loop].
  rewrite !(is_header_echo_first df _ c0 (c1 :: cells) rest Hrows).
  rewrite (bool_decide_eq_true_2 _ Hcols). unfold cell_is.
  split.
  - intros H.
    destruct (bool_decide (c0 = Str BASIC_INFORMATION)) eqn:E1; rsimpl;
      [reflexivity|].
    destruct (bool_decide (c1 = Str BASIC_INFORMATION)) eqn:E2; rsimpl;
      [reflexivity|].
    destruct (bool_decide (c0 = Str FACILITY_NAME)) eqn:E3; rsimpl;
      [reflexivity|].
    destruct (bool_decide (c1 = Str FACILITY_NAME)) eqn:E4; rsimpl;
      [reflexivity|].
    apply bool_decide_eq_false in E1, E2, E3, E4. tauto.
  - intros H1 H2 H3 H4.
    rewrite !bool_decide_eq_false_2 by assumption. reflexivity.
Qed.

Lemma delete_headers_echo_witness :
  delete_headers
    (mkDataFrame [u "h1"; u "h2"]
       [[Str (u "No"); Str FACILITY_NAME]; [Str (u "1"); Str (u "芝病院")]]) 1
  = Ok (drop_rows 1
          (mkDataFrame [u "h1"; u "h2"]
             [[Str (u "No"); Str FACILITY_NAME];
              [Str (u "1"); Str (u "芝病院")]])).
Proof.
  refine (proj1 (delete_headers_echo
                   (mkDataFrame [u "h1"; u "h2"]
                      [[Str (u "No"); Str FACILITY_NAME];
                       [Str (u "1"); Str (u "芝病院")]])
                   1 (Str (u "No")) (Str FACILITY_NAME) []
                   [[Str (u "1"); Str (u "芝病院")]] _ _) _).
  - reflexivity.
  - cbn. lia.
  - right. right. right. reflexivity.
Defined.

(** ** The resolver as a whole *)

Lemma main_fill_from_address_shape (df df4 : DataFrame) :
  rectangular df -> main_fill_from_address df = Ok df4 ->
  rectangular df4 /\ length (rows df4) = length (rows df).
Proof.
  intros Hrect. unfold main_fill_from_address.
  destruct (get_col REGION df) as [regions|e] eqn:Hreg; [|discriminate].
  rsimpl.
  destruct (get_col LOCALITY df) as [localities|e] eqn:Hloc; [|discriminate].
  rsimpl.
  set (mask := zip_with (fun r l => cell_is [] r || cell_is [] l)
                 regions localities).
  destruct (existsb id mask); [|intros [= <-]; auto].
  destruct (get_col ADDRESS df) as [addresses|e] eqn:Haddr; [|discriminate].
  rsimpl.
  destruct (apply _ (zip mask addresses)) as [region_locality|e] eqn:Happ;
    [|discriminate].
  rsimpl.
  match goal with
  | |- context [update_col REGION ?o df] => set (other1 := o)
  end.
  destruct (update_col REGION other1 df) as [df'|e] eqn:Hu1; [|discriminate].
  rsimpl.
  match goal with
  | |- context [update_col LOCALITY ?o df'] => set (other2 := o)
  end.
  intros Hu2.
  apply get_col_length in Haddr, Hreg, Hloc.
  assert (Hmask : length mask = length (rows df))
    by (subst mask; rewrite length_zip_with; lia).
  apply apply_lookup in Happ as [Hlen _]. rewrite length_zip in Hlen.
  assert (Ho1 : length other1 = length (rows df))
    by (subst other1; rewrite length_map; lia).
  destruct (update_col_frame _ _ _ _ Hrect Ho1 Hu1) as (Hrect' & Hrows' & _).
  assert (Ho2 : length other2 = length (rows df'))
    by (subst other2; rewrite length_map; lia).
  destruct (update_col_frame _ _ _ _ Hrect' Ho2 Hu2) as (Hrect4 & Hrows4 & _).
  split; [exact Hrect4 | congruence].
Qed.

(** X25.  Whatever the resolver returns has the records of its input, one
    for one and in the same place: the table stays rectangular with the same
    number of rows, and every column other than the address, the region, the
    municipality and the two coordinates holds what it held. *)
Theorem resolve_keeps_records (geocode : cell -> geo_response)
    (index : gmap str (cell * cell)) (prefecture_name : str)
    (df df' : DataFrame) :
  rectangular df ->
  resolver_columns_unique df ->
  regex_literal prefecture_name ->
  resolve geocode index prefecture_name df = Ok df' ->
  rectangular df' /\ length (rows df') = length (rows df)
  /\ forall i other,
       other <> ADDRESS -> other <> REGION -> other <> LOCALITY ->
       other <> LATITUDE -> other <> LONGITUDE ->
       cell_at df' i other = cell_at df i other.
Proof.
  intros Hrect _ _. unfold resolve.
  destruct (main_postal_lookup index df) as [df1|e] eqn:H1; [|discriminate].
  rsimpl.
  destruct (main_postal_lookup_frame _ _ _ Hrect H1)
    as (Hrect1 & Hrows1 & Hsame1 & _).
  destruct (has_col ADDRESS df1).
  2:{ intros [= <-]. split; [exact Hrect1|]. split; [exact Hrows1|].
      intros i other _ HR HL _ _. apply Hsame1; assumption. }
  destruct (main_prepend_prefecture prefecture_name df1) as [df2|e] eqn:H2;
    [|discriminate].
  rsimpl.
  destruct (main_prepend_prefecture_frame _ _ _ Hrect1 H2)
    as (Hrect2 & Hrows2 & Hsame2).
  destruct (main_geocode geocode df2) as [df3|e] eqn:H3; [|discriminate].
  rsimpl.
  destruct (main_geocode_frame _ _ _ Hrect2 H3) as (Hrect3 & Hrows3 & Hsame3).
  intros H4.
  destruct (main_fill_from_address_shape _ _ Hrect3 H4) as (Hrect4 & Hrows4).
  destruct (main_fill_from_address_frame _ _ Hrect3 H4) as (Hsame4 & _).
  split; [exact Hrect4|]. split; [congruence|].
  intros i other HA HR HL Hlat Hlon.
  rewrite Hsame4, Hsame3, Hsame2 by assumption. apply Hsame1; assumption.
Qed.

Lemma resolve_keeps_records_witness :
  length (rows demo_df4) = length (rows demo_df)
  /\ cell_at demo_df4 1 (u "施設名") = cell_at demo_df 1 (u "施設名").
Proof.
  destruct (resolve_keeps_records demo_geocode demo_index (u "東京都")
              demo_df demo_df4) as (_ & Hlen & Hsame).
  - repeat constructor.
  - unfold resolver_columns_unique. repeat constructor; vm_compute; lia.
  - apply (bool_decide_unpack (regex_literal (u "東京都"))). vm_compute. exact I.
  - vm_compute. reflexivity.
  - split; [exact Hlen|].
    apply Hsame; vm_compute; discriminate.
Defined.
